(** * UPHR-Vault backend: extraction normalisation and doctor access tokens

    A shallow embedding of the backend route handlers
    ([backend/src/routes/doctorRoutes.ts], which also carries the patient
    routes) and of the post-processing done in
    [backend/src/services/geminiService.ts], together with the properties
    of the normaliser, the report queries and the access-token life cycle.

    Conventions of the embedding:
    - a JavaScript string is a [string] of code units below 256;
    - a JavaScript number is identified with the exact value of the decimal
      literal it was read from ([Fin q]), or one of the two infinities, or
      NaN; rounding to a double is not represented;
    - a [Date] is its time value, an integer number of milliseconds since
      the epoch; [toISOString] and [new Date(iso)] are inverse on valid
      dates, so fields holding ISO strings of instants ([expiresAt],
      [createdAt], [uploadedAt]) are stored as that integer;
    - a plain object read from JSON or from Firestore is a finite map of
      its own properties; where the code reads a key that may not be an
      own one, or assigns to the key [__proto__], the properties inherited
      from [Object.prototype] are taken into account;
    - a Firestore collection is a finite map from document id to document;
      [update] fails on a missing document, creates the maps on the way of
      a dotted field path, and is rejected for a field name of the form
      [__.*__], which Firestore reserves;  [set] and the JSON of a
      response keep the own properties of an object;  the values of
      [uuidv4] are used as keys as they are (a uuid holds no dot and no
      underscore);  the size limit of an [in] filter and the need for
      composite indexes are not represented. *)

From Stdlib Require Import ZArith QArith Ascii String List Bool Lia.
From stdpp Require Import base option list gmap strings sorting fin_maps.

Local Open Scope string_scope.
Local Open Scope Z_scope.

(** ** JavaScript values and built-ins used by the handlers *)

Module Js.

Inductive Number : Type :=
  | NaN
  | PosInf
  | NegInf
  | Fin (q : Q).

(** What a field of a parsed JSON object can hold, [undefined] standing for
    a missing field. *)
Inductive Value : Type :=
  | Undefined
  | Null
  | Bool (b : bool)
  | Num (n : Number)
  | Str (s : string).

Definition isNaN (n : Number) : bool :=
  match n with NaN => true | _ => false end.

Definition typeof (v : Value) : string :=
  match v with
  | Undefined => "undefined"
  | Null => "object"
  | Bool _ => "boolean"
  | Num _ => "number"
  | Str _ => "string"
  end.

(** [a === b]: no conversion, and NaN differs from itself. *)
Definition strictEq (a b : Value) : bool :=
  match a, b with
  | Undefined, Undefined => true
  | Null, Null => true
  | Bool x, Bool y => Bool.eqb x y
  | Str x, Str y => String.eqb x y
  | Num PosInf, Num PosInf => true
  | Num NegInf, Num NegInf => true
  | Num (Fin x), Num (Fin y) => Qeq_bool x y
  | _, _ => false
  end.

Definition code (c : ascii) : Z := Z.of_N (N_of_ascii c).

Definition isDigit (c : ascii) : bool :=
  (48 <=? code c) && (code c <=? 57).

Definition digitVal (c : ascii) : Z := code c - 48.

(** White space and line terminators stripped by [TrimString]. *)
Definition isWhiteSpace (c : ascii) : bool :=
  let n := code c in
  (n =? 9) || (n =? 10) || (n =? 11) || (n =? 12) || (n =? 13)
  || (n =? 32) || (n =? 160).

Fixpoint trimStart (s : string) : string :=
  match s with
  | String c s' => if isWhiteSpace c then trimStart s' else s
  | EmptyString => s
  end.

(** [readDigits acc n s] consumes the longest run of decimal digits at the
    head of [s]: it returns the accumulated value, the number of digits
    read added to [n], and the rest. *)
Fixpoint readDigits (acc : Z) (n : nat) (s : string) : Z * nat * string :=
  match s with
  | String c s' =>
      if isDigit c then readDigits (10 * acc + digitVal c) (S n) s'
      else (acc, n, s)
  | EmptyString => (acc, n, s)
  end.

(** [ExponentPart], when one is present and well formed at the head of
    [s]; an [e] that is not followed by digits is not part of the
    literal. *)
Definition readExponent (s : string) : Z :=
  match s with
  | String c s' =>
      if (code c =? 101) || (code c =? 69) then
        let '(neg, s'') :=
          match s' with
          | String d t =>
              if code d =? 45 then (true, t)
              else if code d =? 43 then (false, t)
              else (false, s')
          | EmptyString => (false, s')
          end in
        let '(e, n, _) := readDigits 0 0%nat s'' in
        match n with
        | O => 0
        | S _ => if neg then - e else e
        end
      else 0
  | EmptyString => 0
  end.

Definition scale (m e : Z) : Q := Qred (inject_Z m * Qpower (10 # 1) e).

(** The longest prefix that is a [StrUnsignedDecimalLiteral], as its
    value; [None] when no prefix is one. *)
Definition readUnsigned (s : string) : option Number :=
  if String.prefix "Infinity" s then Some PosInf
  else
    let '(ip, ni, rest) := readDigits 0 0%nat s in
    match rest with
    | String c rest' =>
        if code c =? 46 then
          let '(m, nf, rest'') := readDigits ip 0%nat rest' in
          match ni, nf with
          | O, O => None
          | _, _ => Some (Fin (scale m (readExponent rest'' - Z.of_nat nf)))
          end
        else
          match ni with
          | O => None
          | S _ => Some (Fin (scale ip (readExponent rest)))
          end
    | EmptyString =>
        match ni with
        | O => None
        | S _ => Some (Fin (scale ip 0))
        end
    end.

Definition negate (n : Number) : Number :=
  match n with
  | NaN => NaN
  | PosInf => NegInf
  | NegInf => PosInf
  | Fin q => Fin (Qred (- q))
  end.

(** [parseFloat(s)]: leading white space is dropped, the longest prefix
    that is a [StrDecimalLiteral] is converted, whatever follows is
    ignored; NaN when there is no such prefix. *)
Definition parseFloat (s : string) : Number :=
  match trimStart s with
  | String c s' =>
      if code c =? 45 then
        match readUnsigned s' with Some n => negate n | None => NaN end
      else if code c =? 43 then
        match readUnsigned s' with Some n => n | None => NaN end
      else
        match readUnsigned (String c s') with Some n => n | None => NaN end
  | EmptyString => NaN
  end.

(** [/^\d{4}-\d{2}-\d{2}$/.test(s)]: a pattern is a list of character
    classes, and the anchors make the whole string match it. *)
Fixpoint matchClasses (p : list (ascii -> bool)) (s : string) : bool :=
  match p, s with
  | [], EmptyString => true
  | f :: p', String c s' => f c && matchClasses p' s'
  | _, _ => false
  end.

Definition isDash (c : ascii) : bool := code c =? 45.

Definition isDateShape (s : string) : bool :=
  matchClasses
    [isDigit; isDigit; isDigit; isDigit; isDash;
     isDigit; isDigit; isDash; isDigit; isDigit] s.

(** *** The date part of [Date.prototype.toISOString] *)

Definition msPerDay : Z := 86400000.

Definition Day (t : Z) : Z := t / msPerDay.

(** Year, month (1 to 12) and day of the month of a day number counted
    from 1970-01-01, in the proleptic Gregorian calendar. *)
Definition civilFromDays (days : Z) : Z * Z * Z :=
  let z := days + 719468 in
  let era := z / 146097 in
  let doe := z - era * 146097 in
  let yoe := (doe - doe / 1460 + doe / 36524 - doe / 146096) / 365 in
  let doy := doe - (365 * yoe + yoe / 4 - yoe / 100) in
  let mp := (5 * doy + 2) / 153 in
  let d := doy - (153 * mp + 2) / 5 + 1 in
  let m := if mp <? 10 then mp + 3 else mp - 9 in
  let y := yoe + era * 400 + (if m <=? 2 then 1 else 0) in
  (y, m, d).


Definition digitChar (d : Z) : ascii := ascii_of_N (Z.to_N (48 + d)).

(** The [w] low decimal digits of [n], most significant first. *)
Fixpoint padDigits (w : nat) (n : Z) : string :=
  match w with
  | O => ""
  | S w' => padDigits w' (n / 10) +:+ String (digitChar (n mod 10)) ""
  end.

(** Years 0 to 9999 print with four digits, the others with a sign and
    six digits. *)
Definition isoYear (y : Z) : string :=
  if (0 <=? y) && (y <=? 9999) then padDigits 4 y
  else (if y <? 0 then "-" else "+") +:+ padDigits 6 (Z.abs y).

(** [date.toISOString().split('T')[0]] for a valid date of time value [t]. *)
Definition isoDate (t : Z) : string :=
  let '(y, m, d) := civilFromDays (Day t) in
  isoYear y +:+ "-" +:+ padDigits 2 m +:+ "-" +:+ padDigits 2 d.

(** [a || b] on strings: the empty string and a missing value are falsy. *)
Definition orElse (a : option string) (b : string) : string :=
  match a with
  | Some (String c s) => String c s
  | _ => b
  end.

(** *** Plain objects *)

(** The names of the properties of [Object.prototype], which every plain
    object inherits.  The value of each is a function, except that
    [o.__proto__] is the prototype of [o]: all of them are truthy. *)
Definition objectPrototypeKeys : list string :=
  ["constructor"; "__defineGetter__"; "__defineSetter__"; "hasOwnProperty";
   "__lookupGetter__"; "__lookupSetter__"; "isPrototypeOf";
   "propertyIsEnumerable"; "toString"; "valueOf"; "__proto__";
   "toLocaleString"].

(** [o?.[key]] used as a condition, for a plain object [o] whose own
    properties hold objects ([None] standing for a missing [o]): a key
    that is not an own property is looked up in [Object.prototype]. *)
Definition hasTruthy {A : Type} (o : option (gmap string A)) (key : string)
    : bool :=
  match o with
  | None => false
  | Some m =>
      match m !! key with
      | Some _ => true
      | None => bool_decide (key ∈ objectPrototypeKeys)
      end
  end.

(** An object made by [{}] and filled by assignments [o[key] = v], the
    values [v] being objects: its own properties, and the object that an
    assignment has put in the place of [Object.prototype], if one has. *)
Record Obj (A : Type) : Type := mkObj {
  own : gmap string A;
  proto : option A
}.
Arguments mkObj {A} _ _.
Arguments own {A} _.
Arguments proto {A} _.

Definition emptyObj {A : Type} : Obj A := mkObj ∅ None.

(** [o[key] = v].  The key [__proto__] is an accessor inherited from
    [Object.prototype]: assigning an object to it makes that object the
    prototype of [o] and creates no property.  Every other inherited
    property is a writable data property, so the assignment creates an own
    property. *)
Definition setProp {A : Type} (key : string) (v : A) (o : Obj A) : Obj A :=
  if String.eqb key "__proto__" then mkObj (own o) (Some v)
  else mkObj (<[key := v]> (own o)) (proto o).

End Js.

(** ** The data model of [types.ts] *)

Module GeminiExtractedValue.
Record t : Type := mk {
  value : Js.Value;
  unit : option string;
  ref : option string;
  isAbnormal : Js.Value
}.
End GeminiExtractedValue.

Module GeminiExtractedData.
Record t : Type := mk {
  reportType : option string;
  hospital : option string;
  extractedValues : gmap string GeminiExtractedValue.t;
  diagnosis : list string;
  medications : list string;
  abnormalities : list string;
  patientSummary : string;
  doctorSummary : string;
  timestamp : string
}.
End GeminiExtractedData.

Module DoctorAccessToken.
Record t : Type := mk {
  id : string;
  userId : string;
  token : string;
  expiresAt : Z;
  isActive : bool;
  createdAt : Z;
  allowedReports : list string
}.
End DoctorAccessToken.

(** What the map [doctorAccessTokens] of a stored profile holds under a
    key: a token as [createDoctorAccessToken] writes it, or the object
    [{ isActive: false }] that an update of the field path
    [doctorAccessTokens.<key>.isActive] creates when the map has nothing
    under the key. *)
Module TokenEntry.
Inductive t : Type :=
  | Token (g : DoctorAccessToken.t)
  | OnlyInactive.

(** [entry.isActive]. *)
Definition isActive (e : t) : bool :=
  match e with
  | Token g => DoctorAccessToken.isActive g
  | OnlyInactive => false
  end.
End TokenEntry.

Module UserProfile.
Record t : Type := mk {
  name : option string;
  email : string;
  createdAt : Z;
  doctorAccessTokens : option (gmap string TokenEntry.t)
}.
End UserProfile.

Module Report.
Record t : Type := mk {
  id : string;
  userId : string;
  hospital : option string;
  fileUrl : string;
  fileName : string;
  uploadedAt : Z;
  reportType : option string;
  extractedValues : gmap string GeminiExtractedValue.t;
  diagnosis : list string;
  medications : list string;
  abnormalities : list string;
  patientSummary : string;
  doctorSummary : string;
  timestamp : string
}.
End Report.

(** ** [geminiService.ts]: what [extractMedicalData] does to the parsed
    response before returning it *)

Module GeminiService.

(** The coercion applied to a measurement's [value] (the body of the
    [for ... in] loop, and the same test in [processExtractedValues]). *)
Definition coerceValue (v : Js.Value) : Js.Value :=
  match v with
  | Js.Str s =>
      if negb (Js.isNaN (Js.parseFloat s)) then Js.Num (Js.parseFloat s)
      else v
  | _ => v
  end.

Definition coerceMeasurement (m : GeminiExtractedValue.t) : GeminiExtractedValue.t :=
  GeminiExtractedValue.mk
    (coerceValue (GeminiExtractedValue.value m))
    (GeminiExtractedValue.unit m)
    (GeminiExtractedValue.ref m)
    (GeminiExtractedValue.isAbnormal m).

Section WithDateParse.

(** [new Date(s).getTime()] for a string [s], [None] standing for NaN
    (an invalid date).  The formats accepted beyond the ISO ones depend on
    the engine, so the parser is a parameter. *)
Variable Date_parse : string -> option Z.

Definition normalizeTimestamp (ts : string) : string :=
  match ts with
  | EmptyString => ts
  | String _ _ =>
      if negb (Js.isDateShape ts) then
        match Date_parse ts with
        | Some t => Js.isoDate t
        | None => "Unknown"
        end
      else ts
  end.

(** Lines 119 to 136 of [extractMedicalData]: the parsed payload with its
    timestamp validated and its numeric-looking values made numbers. *)
Definition postProcess (d : GeminiExtractedData.t) : GeminiExtractedData.t :=
  GeminiExtractedData.mk
    (GeminiExtractedData.reportType d)
    (GeminiExtractedData.hospital d)
    (coerceMeasurement <$> GeminiExtractedData.extractedValues d)
    (GeminiExtractedData.diagnosis d)
    (GeminiExtractedData.medications d)
    (GeminiExtractedData.abnormalities d)
    (GeminiExtractedData.patientSummary d)
    (GeminiExtractedData.doctorSummary d)
    (normalizeTimestamp (GeminiExtractedData.timestamp d)).

Definition supportedMime (mimeType : string) : bool :=
  String.prefix "image/" mimeType || String.eqb mimeType "application/pdf".

(** [extractMedicalData]: [response] is the model's answer parsed as JSON,
    or the message of the error the call or the parse raised; a message as
    a result stands for the exception the function throws. *)
Definition extractMedicalData (mimeType : string)
    (response : string + GeminiExtractedData.t)
    : string + GeminiExtractedData.t :=
  if supportedMime mimeType then
    match response with
    | inr extractedData => inr (postProcess extractedData)
    | inl message => inl ("Gemini API extraction failed: " +:+ message)
    end
  else inl ("Unsupported MIME type: " +:+ mimeType).

End WithDateParse.

End GeminiService.

(** ** The Firestore collections and the queries the routes run *)

Module Db.
Record t : Type := mk {
  users : gmap string UserProfile.t;
  reports : gmap string Report.t
}.

Definition empty : t := mk ∅ ∅.

(** [.where('id', 'in', ids).where('userId', '==', uid)] on the reports
    collection, as (document id, document) pairs. *)
Definition reportsInFor (d : t) (ids : list string) (uid : string)
    : list (string * Report.t) :=
  filter (λ kr, Report.id kr.2 ∈ ids ∧ Report.userId kr.2 = uid)
         (map_to_list (reports d)).

(** [.where('userId', '==', uid)] on the reports collection. *)
Definition reportsFor (d : t) (uid : string) : list (string * Report.t) :=
  filter (λ kr, Report.userId kr.2 = uid) (map_to_list (reports d)).

(** [.orderBy('timestamp', 'desc')]: the [timestamp] strings are compared
    code unit by code unit, larger first; documents with equal timestamps
    come in descending order of document id, the direction of the last
    [orderBy].  [before x y] tells that [x] may come before [y]. *)
Definition beforeb (x y : string * Report.t) : bool :=
  match String.compare (Report.timestamp y.2) (Report.timestamp x.2) with
  | Lt => true
  | Gt => false
  | Eq => String.leb y.1 x.1
  end.

Definition before (x y : string * Report.t) : Prop := beforeb x y = true.

#[global] Instance before_dec x y : Decision (before x y).
Proof. unfold before. apply _. Defined.

Definition orderByTimestampDesc (l : list (string * Report.t))
    : list (string * Report.t) :=
  merge_sort before l.

(** The message of the error an [update] of a missing document raises,
    abridged. *)
Definition notFound : string := "NOT_FOUND: No document to update".

(** [doc(uid).update({ doctorAccessTokens.<tokenId>: g })]: fails when the
    document does not exist, creates the map when the field is missing. *)
Definition setToken (d : t) (uid tokenId : string) (g : DoctorAccessToken.t)
    : option t :=
  p ← users d !! uid;
  Some (mk (<[uid := UserProfile.mk (UserProfile.name p) (UserProfile.email p)
                       (UserProfile.createdAt p)
                       (Some (<[tokenId := TokenEntry.Token g]>
                                (default ∅ (UserProfile.doctorAccessTokens p))))]>
              (users d))
           (reports d)).

Definition deactivate (g : DoctorAccessToken.t) : DoctorAccessToken.t :=
  DoctorAccessToken.mk (DoctorAccessToken.id g) (DoctorAccessToken.userId g)
    (DoctorAccessToken.token g) (DoctorAccessToken.expiresAt g) false
    (DoctorAccessToken.createdAt g) (DoctorAccessToken.allowedReports g).

(** What setting [isActive] to [false] makes of the entry under a key:
    an entry keeps its other fields, a missing one is created with that
    field alone. *)
Definition deactivateEntry (e : option TokenEntry.t) : TokenEntry.t :=
  match e with
  | Some (TokenEntry.Token g) => TokenEntry.Token (deactivate g)
  | Some TokenEntry.OnlyInactive | None => TokenEntry.OnlyInactive
  end.

(** [/^__.*__$/.test(k)]: the field names Firestore reserves. *)
Fixpoint endsWith (suffix s : string) : bool :=
  String.eqb suffix s
  || match s with
     | String _ s' => endsWith suffix s'
     | EmptyString => false
     end.

Definition reservedFieldName (k : string) : bool :=
  match k with
  | String "_" (String "_" rest) => endsWith "__" rest
  | _ => false
  end.

(** The message of the error a write to a reserved field name raises,
    abridged. *)
Definition invalidArgument : string := "INVALID_ARGUMENT: reserved field name".

(** Whether an update that writes under [tokenId] in the map [tokens] is
    refused for the name.  A key the map has went through a write before
    and is no reserved name, so the rule bears on new keys only. *)
Definition refusesKey (tokens : gmap string TokenEntry.t) (tokenId : string)
    : bool :=
  match tokens !! tokenId with
  | Some _ => false
  | None => reservedFieldName tokenId
  end.

(** [doc(uid).update({ doctorAccessTokens.<tokenId>.isActive: false })]:
    the new collections, or the message of the error raised. *)
Definition clearActive (d : t) (uid tokenId : string) : string + t :=
  match users d !! uid with
  | None => inl notFound
  | Some p =>
      let tokens := default ∅ (UserProfile.doctorAccessTokens p) in
      if refusesKey tokens tokenId then inl invalidArgument
      else
        inr (mk (<[uid := UserProfile.mk (UserProfile.name p)
                            (UserProfile.email p) (UserProfile.createdAt p)
                            (Some (<[tokenId := deactivateEntry (tokens !! tokenId)]>
                                     tokens))]>
                   (users d))
                (reports d))
  end.

(** [collection('reports').doc(id).set(r)]. *)
Definition setReport (d : t) (id : string) (r : Report.t) : t :=
  mk (users d) (<[id := r]> (reports d)).

End Db.

(** ** The route handlers *)

Module Routes.

Inductive Body : Type :=
  | Error (error : string) (details : option string)
  | Message (message : string)
  | Reports (reports : list Report.t)
  | Tokens (tokens : list DoctorAccessToken.t)
  | TokenCreated (message : string) (token : DoctorAccessToken.t)
  | ReportUploaded (message : string) (reportId : string) (report : Report.t).

Record Response : Type := send { status : Z; body : Body }.

(** The server: its collections, and how many times [uuidv4] has been
    called so far. *)
Record State : Type := mkState { db : Db.t; draws : nat }.

Definition init : State := mkState Db.empty 0.

(** A string used as a condition: missing and empty are falsy. *)
Definition truthy (s : option string) : option string :=
  match s with
  | Some (String c r) => Some (String c r)
  | _ => None
  end.

(** *** [GET /doctor/timeline/:token] *)

(** The inner loop of the handler over one profile's tokens: the first
    entry whose [token] equals the presented value, and the number of
    comparisons [=== doctorTokenValue] evaluated to find it.  An entry
    that has no [token] field compares [undefined] with a string, which
    is false. *)
Fixpoint scanTokens (entries : list (string * TokenEntry.t))
    (doctorTokenValue : string) : option DoctorAccessToken.t * nat :=
  match entries with
  | [] => (None, O)
  | (_, TokenEntry.Token g) :: rest =>
      if String.eqb (DoctorAccessToken.token g) doctorTokenValue
      then (Some g, 1%nat)
      else let '(r, n) := scanTokens rest doctorTokenValue in (r, S n)
  | (_, TokenEntry.OnlyInactive) :: rest =>
      let '(r, n) := scanTokens rest doctorTokenValue in (r, S n)
  end.

(** The outer loop over the snapshot of the whole [users] collection. *)
Fixpoint scanUsers (docs : list (string * UserProfile.t))
    (doctorTokenValue : string)
    : option (DoctorAccessToken.t * string) * nat :=
  match docs with
  | [] => (None, O)
  | (docId, userProfile) :: rest =>
      let '(found, n) :=
        match UserProfile.doctorAccessTokens userProfile with
        | Some m => scanTokens (map_to_list m) doctorTokenValue
        | None => (None, O)
        end in
      match found with
      | Some g => (Some (g, docId), n)
      | None =>
          let '(r, n') := scanUsers rest doctorTokenValue in (r, (n + n')%nat)
      end
  end.

(** The lookup of lines 17 to 33: the token found with the id of the
    profile that holds it. *)
Definition findToken (d : Db.t) (doctorTokenValue : string)
    : option (DoctorAccessToken.t * string) :=
  (scanUsers (map_to_list (Db.users d)) doctorTokenValue).1.

(** What the lookup costs: the user documents read by
    [collection('users').get()] and the token comparisons made. *)
Definition findTokenDocsRead (d : Db.t) : nat :=
  length (map_to_list (Db.users d)).

Definition findTokenComparisons (d : Db.t) (doctorTokenValue : string) : nat :=
  (scanUsers (map_to_list (Db.users d)) doctorTokenValue).2.

Definition invalidToken : Response :=
  send 404 (Error "Invalid or expired doctor access token." None).

Definition inactiveOrExpired : Response :=
  send 403 (Error "Doctor access token is inactive or expired." None).

Definition timeline (d : Db.t) (now : Z) (token : string) : Response :=
  match truthy (Some token) with
  | None => send 401 (Error "No doctor access token provided." None)
  | Some doctorTokenValue =>
      match findToken d doctorTokenValue with
      | None => invalidToken
      | Some (foundToken, patientUserId) =>
          match truthy (Some patientUserId) with
          | None => invalidToken
          | Some _ =>
              if negb (DoctorAccessToken.isActive foundToken)
                 || (DoctorAccessToken.expiresAt foundToken <? now)
              then inactiveOrExpired
              else
                send 200
                  (Reports
                     (snd <$> Db.orderByTimestampDesc
                        (Db.reportsInFor d
                           (DoctorAccessToken.allowedReports foundToken)
                           patientUserId)))
          end
      end
  end.

(** *** [GET /patient/reports] *)

Definition notAuthenticated : Response :=
  send 401 (Error "User not authenticated." None).

Definition reports (d : Db.t) (userId : option string) : Response :=
  match truthy userId with
  | None => notAuthenticated
  | Some uid =>
      send 200 (Reports (snd <$> Db.orderByTimestampDesc (Db.reportsFor d uid)))
  end.

(** *** [GET /patient/doctorAccessTokens] *)

Definition newerFirst (a b : DoctorAccessToken.t) : Prop :=
  DoctorAccessToken.createdAt b <= DoctorAccessToken.createdAt a.

#[global] Instance newerFirst_dec a b : Decision (newerFirst a b).
Proof. unfold newerFirst. apply _. Defined.

(** [tokens.filter(token => token.isActive)]: what passes the filter is a
    token with all its fields. *)
Definition activeTokens (tokens : list TokenEntry.t) : list DoctorAccessToken.t :=
  omap (fun e => match e with
                 | TokenEntry.Token g => Some g
                 | TokenEntry.OnlyInactive => None
                 end)
       (List.filter TokenEntry.isActive tokens).

Definition doctorAccessTokens (d : Db.t) (userId : option string) : Response :=
  match truthy userId with
  | None => notAuthenticated
  | Some uid =>
      match Db.users d !! uid with
      | None => send 404 (Error "User profile not found." None)
      | Some userProfile =>
          let tokens :=
            match UserProfile.doctorAccessTokens userProfile with
            | Some m => snd <$> map_to_list m
            | None => []
            end in
          send 200 (Tokens (merge_sort newerFirst (activeTokens tokens)))
      end
  end.

Section Mutations.

(** The sequence of values [uuidv4] returns, call after call. *)
Variable uuid : nat -> string.

(** [new Date(s)], see [GeminiService]. *)
Variable Date_parse : string -> option Z.

(** [bucket.name]. *)
Variable bucketName : string.

Definition uuidv4 (s : State) : string * State :=
  (uuid (draws s), mkState (db s) (S (draws s))).

(** *** [POST /patient/createDoctorAccessToken] *)

Definition forbidden : Response :=
  send 403
    (Error "One or more selected reports do not belong to the authenticated user."
       None).

(** [allowedReports] is [None] when the body field is not an array.  The
    clock is read once for [expiresAt] and once for [createdAt]; both
    reads are [now]. *)
Definition createDoctorAccessToken (s : State) (now : Z)
    (userId : option string) (allowedReports : option (list string))
    : Response * State :=
  match truthy userId with
  | None => (notAuthenticated, s)
  | Some uid =>
      match allowedReports with
      | None | Some [] =>
          (send 400
             (Error "At least one report must be selected to create an access token."
                None), s)
      | Some ids =>
          if negb (length (Db.reportsInFor (db s) ids uid) =? length ids)%nat
          then (forbidden, s)
          else
            let '(tokenId, s1) := uuidv4 s in
            let '(tokenValue, s2) := uuidv4 s1 in
            let expiresAt := now + 24 * 60 * 60 * 1000 in
            let newToken :=
              DoctorAccessToken.mk tokenId uid tokenValue expiresAt true now ids in
            match Db.setToken (db s2) uid tokenId newToken with
            | None =>
                (send 500 (Error "Failed to create token." (Some Db.notFound)),
                 s2)
            | Some d' =>
                (send 201 (TokenCreated "Doctor access token created." newToken),
                 mkState d' (draws s2))
            end
      end
  end.

(** *** [POST /patient/revokeDoctorAccessToken] *)

Definition revokeDoctorAccessToken (s : State) (userId : option string)
    (tokenId : option string) : Response * State :=
  match truthy userId with
  | None => (notAuthenticated, s)
  | Some uid =>
      match truthy tokenId with
      | None => (send 400 (Error "Token ID is required." None), s)
      | Some tid =>
          match Db.users (db s) !! uid with
          | None => (send 404 (Error "User profile not found." None), s)
          | Some userProfile =>
              if negb (Js.hasTruthy (UserProfile.doctorAccessTokens userProfile)
                         tid)
              then
                (send 404
                   (Error "Token not found or does not belong to this user."
                      None), s)
              else
                match Db.clearActive (db s) uid tid with
                | inl message =>
                    (send 500 (Error "Failed to revoke token." (Some message)),
                     s)
                | inr d' =>
                    (send 200 (Message "Doctor access token revoked."),
                     mkState d' (draws s))
                end
          end
      end
  end.

(** *** [POST /patient/uploadReport] *)

(** The helper that gives extracted values their proper types: one turn
    of its loop. *)
Definition processExtractedValue (value : GeminiExtractedValue.t)
    : GeminiExtractedValue.t :=
  GeminiExtractedValue.mk
    (match GeminiExtractedValue.value value with
     | Js.Str v =>
         if negb (Js.isNaN (Js.parseFloat v)) then Js.Num (Js.parseFloat v)
         else Js.Str v
     | v => v
     end)
    (GeminiExtractedValue.unit value)
    (GeminiExtractedValue.ref value)
    (if negb (String.eqb (Js.typeof (GeminiExtractedValue.isAbnormal value))
                "boolean")
     then Js.Bool
            (Js.strictEq (GeminiExtractedValue.isAbnormal value) (Js.Str "true")
             || Js.strictEq (GeminiExtractedValue.isAbnormal value) (Js.Bool true))
     else GeminiExtractedValue.isAbnormal value).

(** The helper: the loop runs once for each key of [data], in whatever
    order, and assigns the copy to [processed[key]]; the two assignments
    that follow in a turn act on that same copy. *)
Definition processExtractedValues (data : gmap string GeminiExtractedValue.t)
    : Js.Obj GeminiExtractedValue.t :=
  map_fold (fun key value processed =>
              Js.setProp key (processExtractedValue value) processed)
    Js.emptyObj data.

(** [file] is the uploaded file's [originalname] and [mimetype];
    [response] is what the extraction call answered, see
    [GeminiService.extractMedicalData].  Saving the file to the bucket is
    not represented beyond the [uuidv4] call it makes.  The report document
    and the response hold the own properties of [extractedValues]. *)
Definition uploadReport (s : State) (now : Z) (userId : option string)
    (file : option (string * string))
    (response : string + GeminiExtractedData.t) : Response * State :=
  match file with
  | None => (send 400 (Error "No file uploaded." None), s)
  | Some (originalname, mimetype) =>
      match truthy userId with
      | None => (notAuthenticated, s)
      | Some uid =>
          let '(reportId, s1) := uuidv4 s in
          let filePath :=
            "users/" +:+ uid +:+ "/reports/" +:+ reportId +:+ "/" +:+ originalname in
          let '(_, s2) := uuidv4 s1 in
          let fileUrl :=
            "https://storage.googleapis.com/" +:+ bucketName +:+ "/" +:+ filePath in
          match GeminiService.extractMedicalData Date_parse mimetype response with
          | inl message =>
              (send 500 (Error "Failed to upload or process report."
                           (Some message)), s2)
          | inr geminiData =>
              let newReport :=
                Report.mk reportId uid
                  (Some (Js.orElse (GeminiExtractedData.hospital geminiData) "Unknown"))
                  fileUrl originalname now
                  (Some (Js.orElse (GeminiExtractedData.reportType geminiData)
                           "General Report"))
                  (Js.own (processExtractedValues
                             (GeminiExtractedData.extractedValues geminiData)))
                  (GeminiExtractedData.diagnosis geminiData)
                  (GeminiExtractedData.medications geminiData)
                  (GeminiExtractedData.abnormalities geminiData)
                  (GeminiExtractedData.patientSummary geminiData)
                  (GeminiExtractedData.doctorSummary geminiData)
                  (GeminiExtractedData.timestamp geminiData) in
              (send 201
                 (ReportUploaded "Report uploaded and processed successfully."
                    reportId newReport),
               mkState (Db.setReport (db s2) reportId newReport) (draws s2))
          end
      end
  end.

(** *** The server as a transition system *)

(** The requests that change the state.  [SignUp] is the creation of the
    profile document [users/<uid>], which the identity provider's client
    does outside the routes: a new profile holds no access token. *)
Inductive Request : Type :=
  | SignUp (uid : string) (name : option string) (email : string)
  | UploadReport (userId : option string) (file : option (string * string))
      (response : string + GeminiExtractedData.t)
  | CreateDoctorAccessToken (userId : option string)
      (allowedReports : option (list string))
  | RevokeDoctorAccessToken (userId : option string) (tokenId : option string).

Definition signUp (s : State) (now : Z) (uid : string) (name : option string)
    (email : string) : State :=
  match Db.users (db s) !! uid with
  | Some _ => s
  | None =>
      mkState
        (Db.mk (<[uid := UserProfile.mk name email now None]> (Db.users (db s)))
               (Db.reports (db s)))
        (draws s)
  end.

Definition handle (s : State) (now : Z) (r : Request) : State :=
  match r with
  | SignUp uid name email => signUp s now uid name email
  | UploadReport userId file response =>
      (uploadReport s now userId file response).2
  | CreateDoctorAccessToken userId allowedReports =>
      (createDoctorAccessToken s now userId allowedReports).2
  | RevokeDoctorAccessToken userId tokenId =>
      (revokeDoctorAccessToken s userId tokenId).2
  end.

Inductive reachable : State -> Prop :=
  | reachable_init : reachable init
  | reachable_step s now r : reachable s -> reachable (handle s now r).

End Mutations.

End Routes.

(** ** [middleware/authMiddleware.ts] *)

Module Middleware.

(** [s.split(sep)] for a non-empty separator: [skip] counts the code
    units of a separator just met that are still to be passed over, [cur]
    is the piece being read. *)
Fixpoint splitFrom (sep : string) (skip : nat) (cur : string) (s : string)
    : list string :=
  match s with
  | EmptyString => [cur]
  | String c s' =>
      match skip with
      | S k => splitFrom sep k cur s'
      | O =>
          if String.prefix sep s
          then cur :: splitFrom sep (String.length sep - 1) "" s'
          else splitFrom sep O (cur +:+ String c "") s'
      end
  end.

Definition split (sep s : string) : list string := splitFrom sep O "" s.

Section WithVerifier.

(** [auth.verifyIdToken(idToken)]: the [uid] of the decoded token, [None]
    when the call throws.  The argument is [None] when the handler passes
    [undefined]. *)
Variable verifyIdToken : option string -> option string.

(** [authenticatePatient]: the answer it sends itself, or the [userId] it
    puts on the request before calling [next]. *)
Definition authenticatePatient (authorization : option string)
    : Routes.Response + string :=
  match Routes.truthy authorization with
  | None =>
      inl (Routes.send 401 (Routes.Error "No authentication token provided." None))
  | Some authHeader =>
      if negb (String.prefix "Bearer " authHeader)
      then inl (Routes.send 401
                  (Routes.Error "No authentication token provided." None))
      else
        let idToken := split "Bearer " authHeader !! 1%nat in
        match verifyIdToken idToken with
        | Some uid => inr uid
        | None =>
            inl (Routes.send 403
                   (Routes.Error "Unauthorized: Invalid or expired token." None))
        end
  end.

(** A route registered as [router.post(path, authenticatePatient, handler)]:
    the handler runs only when the middleware calls [next]. *)
Definition guarded {S : Type} (authorization : option string) (s : S)
    (handler : option string -> Routes.Response * S) : Routes.Response * S :=
  match authenticatePatient authorization with
  | inl response => (response, s)
  | inr uid => handler (Some uid)
  end.

End WithVerifier.

End Middleware.

(** ** [components/DoctorAccess.tsx]: the logic of the sharing page *)

Module DoctorAccess.

(** [handleReportToggle]: the new selection. *)
Definition handleReportToggle (prev : list string) (reportId : string)
    : list string :=
  if bool_decide (reportId ∈ prev)
  then filter (fun id => id <> reportId) prev
  else prev ++ [reportId].

(** [isTokenExpired], the clock of the browser reading [now]. *)
Definition isTokenExpired (expiresAt now : Z) : bool := expiresAt <? now.

(** The condition under which the page shows a token as 'Active'. *)
Definition showsActive (token : DoctorAccessToken.t) (now : Z) : bool :=
  DoctorAccessToken.isActive token
  && negb (isTokenExpired (DoctorAccessToken.expiresAt token) now).

(** The update of the local token list in [handleRevokeToken]. *)
Definition markRevoked (prev : list DoctorAccessToken.t) (tokenId : string)
    : list DoctorAccessToken.t :=
  (fun t => if String.eqb (DoctorAccessToken.id t) tokenId
            then Db.deactivate t else t) <$> prev.

(** [handleGenerateToken] up to the request: [None] when the page refuses
    an empty selection, else the [allowedReports] it posts. *)
Definition handleGenerateToken (selectedReportIds : list string)
    : option (list string) :=
  match selectedReportIds with
  | [] => None
  | _ => Some selectedReportIds
  end.

End DoctorAccess.

(** ** [components/Trends.tsx]: what the trends page offers to plot *)

Module Trends.

(** The metric names of one report whose value is a number: the inner
    loop of the effect that fills the menu. *)
Definition numericKeys (report : Report.t) : list string :=
  (filter (fun kv : string * GeminiExtractedValue.t =>
             Js.typeof (GeminiExtractedValue.value kv.2) = "number")
          (map_to_list (Report.extractedValues report))).*1.

Definition codeUnitOrder (a b : string) : Prop := String.leb a b = true.

#[global] Instance codeUnitOrder_dec a b : Decision (codeUnitOrder a b).
Proof. unfold codeUnitOrder. apply _. Defined.

(** [Array.from(metricsSet).sort()]: the set keeps one copy of each name,
    the default sort compares code units. *)
Definition availableMetrics (reports : list Report.t) : list string :=
  merge_sort codeUnitOrder (remove_dups (reports ≫= numericKeys)).

(** The callback of [reports.forEach] in [processTrendData]: the point
    it pushes for a report, if it pushes one.  A key that the report does
    not have as its own reads a property of [Object.prototype], none of
    which has a numeric [value]. *)
Definition dataPoint (metricKey : string) (report : Report.t)
    : option (string * Js.Number) :=
  match Report.extractedValues report !! metricKey with
  | Some extractedValue =>
      match GeminiExtractedValue.value extractedValue with
      | Js.Num n => Some (Report.timestamp report, n)
      | _ => None
      end
  | None => None
  end.

(** [processTrendData]: [None] when it clears the chart without looking at
    the reports (no metric selected, or no report), else the points of the
    chart it sets, as collected, before it sorts them by date. *)
Definition processTrendData (reports : list Report.t) (metricKey : string)
    : option (list (string * Js.Number)) :=
  if String.eqb metricKey "" || (length reports =? 0)%nat then None
  else Some (omap (dataPoint metricKey) reports).

End Trends.

(** ** [geminiService.ts]: unwrapping the text of the response *)

Module GeminiText.

(** [s.trimEnd()]. *)
Fixpoint trimEnd (s : string) : string :=
  match s with
  | EmptyString => ""
  | String c s' =>
      match trimEnd s' with
      | EmptyString => if Js.isWhiteSpace c then "" else String c ""
      | t => String c t
      end
  end.

(** [s.trim()]. *)
Definition trim (s : string) : string := trimEnd (Js.trimStart s).

(** The largest index from [i] on at which [sep] occurs in [s], [i]
    being the index of the head of [s]. *)
Fixpoint lastIndexOfFrom (sep s : string) (i : nat) : option nat :=
  match s with
  | EmptyString => if String.prefix sep "" then Some i else None
  | String c s' =>
      match lastIndexOfFrom sep s' (S i) with
      | Some j => Some j
      | None => if String.prefix sep s then Some i else None
      end
  end.

(** [s.lastIndexOf(sep)], -1 when [sep] does not occur. *)
Definition lastIndexOf (sep s : string) : Z :=
  match lastIndexOfFrom sep s 0 with
  | Some j => Z.of_nat j
  | None => -1
  end.

(** [s.substring(a, b)]: both indices are brought into the range of the
    string and exchanged when the first is the larger one. *)
Definition substring (a b : Z) (s : string) : string :=
  let clamp (x : Z) := Z.to_nat (Z.max 0 (Z.min x (Z.of_nat (String.length s)))) in
  String.substring (Nat.min (clamp a) (clamp b))
    (Nat.max (clamp a) (clamp b) - Nat.min (clamp a) (clamp b)) s.

(** Lines 112 to 116 of [extractMedicalData]: the text handed to
    [JSON.parse]. *)
Definition unwrap (text : string) : string :=
  let jsonStr := trim text in
  if String.prefix "```json" jsonStr
  then trim (substring 7 (lastIndexOf "```" jsonStr) jsonStr)
  else jsonStr.

End GeminiText.

(** ** Notions used in the statements *)

(** The access token [g] is stored under key [k] in the profile of [uid]. *)
Definition holds (d : Db.t) (uid k : string) (g : DoctorAccessToken.t) : Prop :=
  exists (p : UserProfile.t) (m : gmap string TokenEntry.t),
    Db.users d !! uid = Some p
    /\ UserProfile.doctorAccessTokens p = Some m
    /\ m !! k = Some (TokenEntry.Token g).

(** What the profile of [uid] has under key [k] in its map of tokens. *)
Definition entryOf (d : Db.t) (uid k : string) : option TokenEntry.t :=
  Db.users d !! uid ≫= fun p =>
    UserProfile.doctorAccessTokens p ≫= fun m => m !! k.

(** The profile of [uid] has the entry [{ isActive: false }] under key
    [k]. *)
Definition holdsOnlyInactive (d : Db.t) (uid k : string) : Prop :=
  exists (p : UserProfile.t) (m : gmap string TokenEntry.t),
    Db.users d !! uid = Some p
    /\ UserProfile.doctorAccessTokens p = Some m
    /\ m !! k = Some TokenEntry.OnlyInactive.

Definition tokenCount (p : UserProfile.t) : nat :=
  match UserProfile.doctorAccessTokens p with
  | Some m => length (map_to_list m)
  | None => O
  end.

(** The number of entries in the maps of tokens of all patients
    together. *)
Definition totalTokens (d : Db.t) : nat :=
  sum_list ((fun kp : string * UserProfile.t => tokenCount kp.2)
              <$> map_to_list (Db.users d)).

(** Every report document is stored under its own [id], as the upload
    route does. *)
Definition keyed (d : Db.t) : Prop :=
  map_Forall (fun (k : string) (r : Report.t) => Report.id r = k) (Db.reports d).

(** The report with id [i] exists and belongs to [uid]. *)
Definition owns (d : Db.t) (uid i : string) : Prop :=
  exists (k : string) (r : Report.t),
    Db.reports d !! k = Some r /\ Report.id r = i /\ Report.userId r = uid.

(** Every stored token was made by two consecutive [uuidv4] calls, the
    first giving its key and [id], the second its [token]. *)
Definition tokensFresh (uuid : nat -> string) (s : Routes.State) : Prop :=
  forall uid k g,
    holds (Routes.db s) uid k g ->
    exists i : nat,
      (S i < Routes.draws s)%nat /\ k = uuid i
      /\ DoctorAccessToken.id g = uuid i
      /\ DoctorAccessToken.token g = uuid (S i).

Definition keysUnique (d : Db.t) : Prop :=
  forall u1 u2 k g1 g2, holds d u1 k g1 -> holds d u2 k g2 -> u1 = u2.

Definition tokenNeverAnId (d : Db.t) : Prop :=
  forall u1 k1 g1 u2 k2 g2,
    holds d u1 k1 g1 -> holds d u2 k2 g2 ->
    DoctorAccessToken.token g1 <> DoctorAccessToken.id g2.

Definition Inv (uuid : nat -> string) (s : Routes.State) : Prop :=
  tokensFresh uuid s /\ keysUnique (Routes.db s) /\ tokenNeverAnId (Routes.db s).

(** All the access tokens of the store, each with the id of the profile
    and the key it is stored under. *)
Definition grantsOf (d : Db.t) : list (string * string * DoctorAccessToken.t) :=
  map_to_list (Db.users d) ≫= fun up =>
    match UserProfile.doctorAccessTokens up.2 with
    | Some m =>
        omap (fun ke : string * TokenEntry.t =>
                match ke.2 with
                | TokenEntry.Token g => Some (up.1, ke.1, g)
                | TokenEntry.OnlyInactive => None
                end) (map_to_list m)
    | None => []
    end.

(** Every report id is a value [uuidv4] has returned. *)
Definition reportsFresh (uuid : nat -> string) (s : Routes.State) : Prop :=
  forall k r, Db.reports (Routes.db s) !! k = Some r ->
    exists i : nat, (i < Routes.draws s)%nat /\ k = uuid i.

(** Every stored grant bears the id of the profile that holds it and the
    key it is stored under, and its scope is a non-empty list of distinct
    ids of reports of that patient. *)
Definition scopesValid (d : Db.t) : Prop :=
  forall u k g, holds d u k g ->
    DoctorAccessToken.userId g = u /\ DoctorAccessToken.id g = k
    /\ DoctorAccessToken.allowedReports g <> []
    /\ NoDup (DoctorAccessToken.allowedReports g)
    /\ forall i, i ∈ DoctorAccessToken.allowedReports g -> owns d u i.

Definition Inv2 (uuid : nat -> string) (s : Routes.State) : Prop :=
  reportsFresh uuid s /\ keyed (Routes.db s) /\ scopesValid (Routes.db s).

(** Every entry [{ isActive: false }] sits under the name of a property
    that every object inherits and that Firestore does not reserve. *)
Definition stubsInherited (d : Db.t) : Prop :=
  forall u k, holdsOnlyInactive d u k ->
    k ∈ Js.objectPrototypeKeys /\ Db.reservedFieldName k = false.

(** [s.includes(sep)]. *)
Fixpoint includes (sep s : string) : bool :=
  match s with
  | EmptyString => String.prefix sep ""
  | String c s' => String.prefix sep s || includes sep s'
  end.

(** ** Sample data *)

Definition measurement (value isAbnormal : Js.Value) : GeminiExtractedValue.t :=
  GeminiExtractedValue.mk value None None isAbnormal.

Definition springPayload : GeminiExtractedData.t :=
  GeminiExtractedData.mk (Some "CBC") None
    {[ "Hemoglobin" := measurement (Js.Str "13.5") (Js.Bool false) ]}
    ["Anaemia"] [] [] "All fine." "Hb 13.5 g/dL." "reported in spring 2023".

Definition sampleReport (id userId timestamp : string) (uploadedAt : Z)
    : Report.t :=
  Report.mk id userId (Some "Unknown") "" "scan.pdf" uploadedAt
    (Some "General Report") ∅ [] [] [] "" "" timestamp.

Definition sampleToken (id userId token : string) (expiresAt : Z)
    (isActive : bool) : DoctorAccessToken.t :=
  DoctorAccessToken.mk id userId token expiresAt isActive 0 ["R1"].

Definition sampleProfile (tokens : list (string * DoctorAccessToken.t))
    : UserProfile.t :=
  UserProfile.mk None "patient@example.org" 0
    (Some (TokenEntry.Token
             <$> (list_to_map tokens : gmap string DoctorAccessToken.t))).

(** A patient with two reports and three access tokens on the first one:
    a live one expiring at time 1000, a revoked one and an expired one. *)
Definition clinic : Db.t :=
  Db.mk
    {[ "pat" := sampleProfile
                  [("G1", sampleToken "G1" "pat" "tok-live" 1000 true);
                   ("G2", sampleToken "G2" "pat" "tok-revoked" 1000 false);
                   ("G3", sampleToken "G3" "pat" "tok-expired" 10 true)] ]}
    (<["R1" := sampleReport "R1" "pat" "2024-01-10" 5]>
       {[ "R2" := sampleReport "R2" "pat" "2024-03-01" 6 ]}).

(** The same collections with a second patient account. *)
Definition clinic2 : Db.t :=
  Db.mk (<["zoe" := (sampleProfile [("G9", sampleToken "G9" "zoe" "tok-zoe" 1000 true)])]>
           (Db.users clinic))
        (Db.reports clinic).

(** Two reports of one patient that bear the same date; "A" was ingested
    after "B". *)
Definition ward : Db.t :=
  Db.mk {[ "pat" := sampleProfile [] ]}
    (<["A" := sampleReport "A" "pat" "2024-01-10" 2000]>
       {[ "B" := sampleReport "B" "pat" "2024-01-10" 1000 ]}).

(** The same two reports with the ingestion times exchanged. *)
Definition ward' : Db.t :=
  Db.mk {[ "pat" := sampleProfile [] ]}
    (<["A" := sampleReport "A" "pat" "2024-01-10" 1000]>
       {[ "B" := sampleReport "B" "pat" "2024-01-10" 2000 ]}).

(** A generator that repeats itself, and one that never does. *)
Definition repeating (n : nat) : string :=
  match n with
  | 0%nat => "R"
  | 2%nat => "G1"
  | 4%nat => "G2"
  | _ => "tok"
  end.

Fixpoint tally (n : nat) : string :=
  match n with
  | O => "u"
  | S n' => String "|" (tally n')
  end.

Definition noParse (s : string) : option Z := None.



(** A stored report with one numeric measurement. *)
Definition labReport : Report.t :=
  Report.mk "L1" "pat" (Some "Unknown") "" "scan.pdf" 5 (Some "CBC")
    {[ "Hemoglobin" := GeminiExtractedValue.mk (Js.Num (Js.Fin (27 # 2))) None
                         None (Js.Bool false) ]}
    [] [] [] "" "" "2024-01-10".


(** A patient signs up, uploads a report, which gets the id [rid], and
    issues two access tokens on it. *)
Definition twoIssuances (rid : string) : list Routes.Request :=
  [Routes.SignUp "pat" None "patient@example.org";
   Routes.UploadReport (Some "pat") (Some ("scan.pdf", "application/pdf"))
     (inr springPayload);
   Routes.CreateDoctorAccessToken (Some "pat") (Some [rid]);
   Routes.CreateDoctorAccessToken (Some "pat") (Some [rid])].

Definition run (uuid : nat -> string) (rs : list Routes.Request) : Routes.State :=
  foldl (fun s r => Routes.handle uuid noParse "bucket" s 0 r) Routes.init rs.

(** The access token issued at time 0 on the report [rid] by the calls
    number [n] and [n + 1] of [uuidv4]. *)
Definition issued (uuid : nat -> string) (rid : string) (n : nat)
    : DoctorAccessToken.t :=
  DoctorAccessToken.mk (uuid n) "pat" (uuid (S n)) (0 + 24 * 60 * 60 * 1000)
    true 0 [rid].

(** A verifier of the identity provider that knows one token. *)
Definition oneUser (idToken : option string) : option string :=
  match idToken with
  | Some "eyJ.abc.def" => Some "pat"
  | _ => None
  end.

(** * Properties *)

Example isoDate_1 : Js.isoDate 0 = "1970-01-01".
Proof. reflexivity. Qed.
Example isoDate_2 : Js.isoDate 1709251200000 = "2024-03-01".
Proof. reflexivity. Qed.
Example isoDate_3 : Js.isoDate 951782400000 = "2000-02-29".
Proof. reflexivity. Qed.
Example isoDate_4 : Js.isoDate (-1) = "1969-12-31".
Proof. reflexivity. Qed.
Example isoDate_5 : Js.isoDate 253402300800000 = "+010000-01-01".
Proof. reflexivity. Qed.
Example isoDate_6 : Js.isoDate (-62198755200000) = "-000001-01-01".
Proof. reflexivity. Qed.
Example isoDate_7 : Js.isoDate 1735689599999 = "2024-12-31".
Proof. reflexivity. Qed.
Example isDateShape_1 :
  Js.isDateShape "2024-03-01" = true
  /\ Js.isDateShape "2024-3-01" = false
  /\ Js.isDateShape "2024-03-011" = false.
Proof. repeat split; reflexivity. Qed.

Example parseFloat_1 : Js.parseFloat "98.6" = Js.Fin (493 # 5).
Proof. reflexivity. Qed.
Example parseFloat_2 : Js.parseFloat "N/A" = Js.NaN.
Proof. reflexivity. Qed.
Example parseFloat_3 : Js.parseFloat "120/80" = Js.Fin (120 # 1).
Proof. reflexivity. Qed.
Example parseFloat_4 : Js.parseFloat "  -1.5e2xyz" = Js.Fin (-150 # 1).
Proof. reflexivity. Qed.
Example parseFloat_5 : Js.parseFloat ".5" = Js.Fin (1 # 2).
Proof. reflexivity. Qed.
Example parseFloat_6 : Js.parseFloat "." = Js.NaN.
Proof. reflexivity. Qed.
Example parseFloat_7 : Js.parseFloat "5.e" = Js.Fin (5 # 1).
Proof. reflexivity. Qed.
Example parseFloat_8 : Js.parseFloat "1e-2" = Js.Fin (1 # 100).
Proof. reflexivity. Qed.
Example parseFloat_9 : Js.parseFloat "-Infinity" = Js.NegInf.
Proof. reflexivity. Qed.

(** ** The normaliser *)





(** The value of a measurement after [processExtractedValue] is the one
    [extractMedicalData] computes: both run the same test. *)
Lemma processExtractedValue_value (m : GeminiExtractedValue.t) :
  GeminiExtractedValue.value (Routes.processExtractedValue m)
  = GeminiService.coerceValue (GeminiExtractedValue.value m).
Proof. destruct m as [[] ? ? ?]; reflexivity. Qed.

(** A string is replaced exactly when [parseFloat] finds a numeral at its
    head. *)
Lemma coerceValue_string (s : string) :
  (Js.parseFloat s = Js.NaN /\ GeminiService.coerceValue (Js.Str s) = Js.Str s)
  \/ (Js.parseFloat s <> Js.NaN
      /\ GeminiService.coerceValue (Js.Str s) = Js.Num (Js.parseFloat s)).
Proof.
  unfold GeminiService.coerceValue.
  destruct (Js.parseFloat s); cbn; auto; right; split; congruence.
Qed.

Lemma coerceValue_not_string (v : Js.Value) :
  Js.typeof v <> "string" -> GeminiService.coerceValue v = v.
Proof. destruct v; cbn; congruence. Qed.

Lemma coerceValue_idempotent (v : Js.Value) :
  GeminiService.coerceValue (GeminiService.coerceValue v)
  = GeminiService.coerceValue v.
Proof.
  destruct v as [| | b | n | s]; try reflexivity.
  destruct (coerceValue_string s) as [[_ E] | [_ E]]; rewrite E.
  - exact E.
  - reflexivity.
Qed.

Lemma readDigits_count (acc : Z) (n : nat) (s : string) :
  (n <= (Js.readDigits acc n s).1.2)%nat.
Proof.
  revert acc n. induction s as [|c s IH]; intros acc n; cbn; [lia|].
  destruct (Js.isDigit c); cbn; [|lia].
  specialize (IH (10 * acc + Js.digitVal c) (S n)). lia.
Qed.

Lemma digit_not_white (c : ascii) :
  Js.isDigit c = true ->
  Js.isWhiteSpace c = false /\ (Js.code c =? 45) = false
  /\ (Js.code c =? 43) = false /\ c <> "I"%char.
Proof.
  unfold Js.isDigit, Js.isWhiteSpace. intros H.
  apply andb_true_iff in H as [H1 H2]. apply Z.leb_le in H1, H2.
  repeat split.
  - repeat (apply orb_false_iff; split); apply Z.eqb_neq; lia.
  - apply Z.eqb_neq; lia.
  - apply Z.eqb_neq; lia.
  - intros ->. vm_compute in H2. congruence.
Qed.

(** A text that begins with a digit is read as a number, whatever comes
    after the numeral. *)
Lemma parseFloat_leading_digit (c : ascii) (rest : string) :
  Js.isDigit c = true -> exists q, Js.parseFloat (String c rest) = Js.Fin q.
Proof.
  intros Hd. destruct (digit_not_white c Hd) as (Hw & Hminus & Hplus & HI).
  unfold Js.parseFloat. cbn [Js.trimStart]. rewrite Hw, Hminus, Hplus.
  unfold Js.readUnsigned. cbn [String.prefix].
  destruct (ascii_dec "I" c) as [E|_]; [congruence|].
  cbn [Js.readDigits]. rewrite Hd.
  pose proof (readDigits_count (10 * 0 + Js.digitVal c) 1 rest) as Hn.
  destruct (Js.readDigits (10 * 0 + Js.digitVal c) 1 rest) as [[ip ni] tail].
  cbn in Hn. destruct ni as [|ni]; [lia|].
  destruct tail as [|c' tail']; [eexists; reflexivity|].
  destruct (Js.code c' =? 46); [|eexists; reflexivity].
  destruct (Js.readDigits ip 0 tail') as [[m nf] tail''].
  eexists; reflexivity.
Qed.

(** C5: the numeric coercion of a measurement's value.  The two examples
    hold ("98.6" becomes the number 98.6, "N/A" stays text), but a text
    that only begins with a numeral is converted as well: the blood
    pressure "120/80" is stored as the number 120, in the helper of the
    upload route and in [extractMedicalData] alike, where the claim keeps
    it as text.  Whatever follows "120", the text is stored as a number. *)
Theorem C5_parseFloat_takes_numeric_prefix :
  GeminiExtractedValue.value
    (Routes.processExtractedValue (measurement (Js.Str "98.6") (Js.Str "true")))
  = Js.Num (Js.Fin (493 # 5))
  /\ GeminiExtractedValue.value
       (Routes.processExtractedValue (measurement (Js.Str "N/A") Js.Undefined))
     = Js.Str "N/A"
  /\ GeminiExtractedValue.value
       (Routes.processExtractedValue (measurement (Js.Str "120/80") Js.Undefined))
     = Js.Num (Js.Fin (120 # 1))
  /\ GeminiService.coerceValue (Js.Str "120/80") = Js.Num (Js.Fin (120 # 1))
  /\ forall rest : string,
       exists q,
         GeminiExtractedValue.value
           (Routes.processExtractedValue
              (measurement (Js.Str ("120" +:+ rest)) Js.Undefined))
         = Js.Num (Js.Fin q).
Proof.
  do 4 (split; [reflexivity|]).
  intros rest.
  destruct (parseFloat_leading_digit "1" ("20" +:+ rest) eq_refl) as (q & Hq).
  exists q. rewrite processExtractedValue_value.
  change (GeminiExtractedValue.value
            (measurement (Js.Str ("120" +:+ rest)) Js.Undefined))
    with (Js.Str (String "1" ("20" +:+ rest))).
  unfold GeminiService.coerceValue. rewrite Hq. reflexivity.
Qed.

Lemma strictEq_true_string (v : Js.Value) :
  Js.strictEq v (Js.Str "true") = true <-> v = Js.Str "true".
Proof.
  destruct v as [| | b | [| | |q] | s]; cbn; try (split; congruence).
  rewrite String.eqb_eq. split; congruence.
Qed.

Lemma processExtractedValue_isAbnormal (m : GeminiExtractedValue.t) :
  exists b : bool,
    GeminiExtractedValue.isAbnormal (Routes.processExtractedValue m) = Js.Bool b
    /\ (b = true <->
        GeminiExtractedValue.isAbnormal m = Js.Bool true
        \/ GeminiExtractedValue.isAbnormal m = Js.Str "true").
Proof.
  destruct m as [v u r a]. cbn.
  destruct a as [| | b | n | s]; cbn.
  - exists false. split; [reflexivity|]. split; [congruence|]. intros [?|?]; congruence.
  - exists false. split; [reflexivity|]. split; [congruence|]. intros [?|?]; congruence.
  - exists b. split; [reflexivity|]. split; [intros ->; auto|].
    intros [?|?]; congruence.
  - exists false. split.
    + destruct n; reflexivity.
    + split; [congruence|]. intros [?|?]; congruence.
  - exists (String.eqb s "true"). split.
    + now rewrite orb_false_r.
    + rewrite String.eqb_eq. split; [intros ->; auto|].
      intros [?|?]; congruence.
Qed.

(** The helper in closed form: the object it returns has one own entry
    for each key of the payload but [__proto__], and the copy made for
    that key, when the payload has it, as its prototype. *)
Lemma processExtractedValues_spec (data : gmap string GeminiExtractedValue.t) :
  Js.own (Routes.processExtractedValues data)
  = delete "__proto__" (Routes.processExtractedValue <$> data)
  /\ Js.proto (Routes.processExtractedValues data)
     = Routes.processExtractedValue <$> data !! "__proto__".
Proof.
  unfold Routes.processExtractedValues.
  apply (map_fold_weak_ind
           (fun r m =>
              Js.own r = delete "__proto__" (Routes.processExtractedValue <$> m)
              /\ Js.proto r = Routes.processExtractedValue <$> m !! "__proto__")).
  - split; [rewrite fmap_empty, delete_empty | rewrite lookup_empty]; reflexivity.
  - intros i x m r Hi [Ho Hp]. unfold Js.setProp.
    destruct (String.eqb i "__proto__") eqn:E; cbn [Js.own Js.proto].
    + apply String.eqb_eq in E. subst i. split.
      * rewrite Ho, fmap_insert, delete_insert_eq. reflexivity.
      * rewrite lookup_insert_eq. reflexivity.
    + apply String.eqb_neq in E. split.
      * rewrite Ho, fmap_insert, delete_insert_ne by congruence. reflexivity.
      * rewrite Hp, lookup_insert_ne by congruence. reflexivity.
Qed.

Lemma processExtractedValues_lookup (data : gmap string GeminiExtractedValue.t)
    (key : string) :
  key <> "__proto__" ->
  Js.own (Routes.processExtractedValues data) !! key
  = Routes.processExtractedValue <$> data !! key.
Proof.
  intros Hne. rewrite (proj1 (processExtractedValues_spec data)).
  rewrite lookup_delete_ne by congruence. apply lookup_fmap.
Qed.

Lemma processExtractedValues_no_proto (data : gmap string GeminiExtractedValue.t) :
  Js.own (Routes.processExtractedValues data) !! "__proto__" = None.
Proof.
  rewrite (proj1 (processExtractedValues_spec data)). apply lookup_delete_eq.
Qed.

(** An own entry of the result is the copy made for the payload's
    measurement of that name. *)
Lemma processExtractedValues_entry (data : gmap string GeminiExtractedValue.t)
    (key : string) (m' : GeminiExtractedValue.t) :
  Js.own (Routes.processExtractedValues data) !! key = Some m' ->
  key <> "__proto__"
  /\ exists m, data !! key = Some m /\ m' = Routes.processExtractedValue m.
Proof.
  intros H. destruct (decide (key = "__proto__")) as [->|Hne].
  - rewrite processExtractedValues_no_proto in H. discriminate.
  - split; [exact Hne|]. rewrite processExtractedValues_lookup in H by exact Hne.
    destruct (data !! key) as [m|]; [|discriminate].
    injection H as <-. exists m. auto.
Qed.










(** ** The token lookup of the timeline route *)

Lemma scanTokens_found entries tok g :
  (Routes.scanTokens entries tok).1 = Some g ->
  exists k, (k, TokenEntry.Token g) ∈ entries /\ DoctorAccessToken.token g = tok.
Proof.
  induction entries as [|[k [g'|]] rest IH]; cbn; [discriminate| |].
  - destruct (String.eqb (DoctorAccessToken.token g') tok) eqn:E; cbn.
    + intros [= <-]. apply String.eqb_eq in E. exists k. split; [left | exact E].
    + destruct (Routes.scanTokens rest tok) as [r n]. cbn in *.
      intros Hr. destruct (IH Hr) as (k' & Hin & Htok).
      exists k'. split; [right; exact Hin | exact Htok].
  - destruct (Routes.scanTokens rest tok) as [r n]. cbn in *.
    intros Hr. destruct (IH Hr) as (k' & Hin & Htok).
    exists k'. split; [right; exact Hin | exact Htok].
Qed.

Lemma scanTokens_missing entries tok :
  (Routes.scanTokens entries tok).1 = None ->
  (Routes.scanTokens entries tok).2 = length entries
  /\ forall k g, (k, TokenEntry.Token g) ∈ entries ->
       DoctorAccessToken.token g <> tok.
Proof.
  induction entries as [|[k [g'|]] rest IH]; cbn.
  - intros _. split; [reflexivity|]. intros k g Hin. inversion Hin.
  - destruct (String.eqb (DoctorAccessToken.token g') tok) eqn:E; cbn;
      [discriminate|].
    destruct (Routes.scanTokens rest tok) as [r n]. cbn in *.
    intros Hr. destruct (IH Hr) as [-> Hall]. split; [reflexivity|].
    intros k0 g0 Hin. apply String.eqb_neq in E.
    apply elem_of_cons in Hin as [[= -> ->] | Hin]; [exact E | eauto].
  - destruct (Routes.scanTokens rest tok) as [r n]. cbn in *.
    intros Hr. destruct (IH Hr) as [-> Hall]. split; [reflexivity|].
    intros k0 g0 Hin.
    apply elem_of_cons in Hin as [[=] | Hin]; eauto.
Qed.

Lemma scanTokens_cost entries tok :
  ((Routes.scanTokens entries tok).2 <= length entries)%nat.
Proof.
  induction entries as [|[k [g'|]] rest IH]; cbn; [lia| |].
  - destruct (String.eqb (DoctorAccessToken.token g') tok); cbn; [lia|].
    destruct (Routes.scanTokens rest tok) as [r n]. cbn in *. lia.
  - destruct (Routes.scanTokens rest tok) as [r n]. cbn in *. lia.
Qed.

Lemma scanUsers_found docs tok g uid :
  (Routes.scanUsers docs tok).1 = Some (g, uid) ->
  exists p m k,
    (uid, p) ∈ docs /\ UserProfile.doctorAccessTokens p = Some m
    /\ m !! k = Some (TokenEntry.Token g) /\ DoctorAccessToken.token g = tok.
Proof.
  induction docs as [|[docId p] rest IH]; cbn; [discriminate|].
  destruct (UserProfile.doctorAccessTokens p) as [m|] eqn:Em.
  - destruct (Routes.scanTokens (map_to_list m) tok) as [[g'|] n] eqn:Es.
    + cbn. intros [= <- <-].
      destruct (scanTokens_found (map_to_list m) tok g') as (k & Hin & Htok);
        [rewrite Es; reflexivity|].
      exists p, m, k. split; [left|].
      split; [exact Em|]. split; [|exact Htok].
      apply elem_of_map_to_list. exact Hin.
    + destruct (Routes.scanUsers rest tok) as [r n']. cbn in *.
      intros Hr. destruct (IH Hr) as (p' & m' & k & Hin & H1 & H2 & H3).
      exists p', m', k. split; [right; exact Hin | auto].
  - destruct (Routes.scanUsers rest tok) as [r n']. cbn in *.
    intros Hr. destruct (IH Hr) as (p' & m' & k & Hin & H1 & H2 & H3).
    exists p', m', k. split; [right; exact Hin | auto].
Qed.

Lemma scanUsers_missing docs tok :
  (Routes.scanUsers docs tok).1 = None ->
  (Routes.scanUsers docs tok).2
  = sum_list ((fun kp : string * UserProfile.t => tokenCount kp.2) <$> docs)
  /\ forall uid p m k g,
       (uid, p) ∈ docs -> UserProfile.doctorAccessTokens p = Some m ->
       m !! k = Some (TokenEntry.Token g) -> DoctorAccessToken.token g <> tok.
Proof.
  induction docs as [|[docId p] rest IH]; cbn.
  - intros _. split; [reflexivity|]. intros ????? Hin. inversion Hin.
  - unfold tokenCount at 1. cbn [snd].
    destruct (UserProfile.doctorAccessTokens p) as [m|] eqn:Em.
    + pose proof (scanTokens_missing (map_to_list m) tok) as Hm.
      destruct (Routes.scanTokens (map_to_list m) tok) as [[g'|] n];
        [discriminate|].
      destruct (Hm eq_refl) as [Hn Hall]. cbn in Hn. subst n.
      destruct (Routes.scanUsers rest tok) as [r n']. cbn in *.
      intros Hr. destruct (IH Hr) as [-> Hrest]. split; [reflexivity|].
      intros uid p0 m0 k g Hin Hp Hk.
      apply elem_of_cons in Hin as [[= -> ->] | Hin]; [|eauto].
      rewrite Em in Hp. injection Hp as <-.
      apply (Hall k). apply elem_of_map_to_list. exact Hk.
    + destruct (Routes.scanUsers rest tok) as [r n']. cbn in *.
      intros Hr. destruct (IH Hr) as [-> Hrest]. split; [reflexivity|].
      intros uid p0 m0 k g Hin Hp Hk.
      apply elem_of_cons in Hin as [[= -> ->] | Hin]; [congruence | eauto].
Qed.

Lemma scanUsers_cost docs tok :
  ((Routes.scanUsers docs tok).2
   <= sum_list ((fun kp : string * UserProfile.t => tokenCount kp.2) <$> docs))%nat.
Proof.
  induction docs as [|[docId p] rest IH]; cbn; [lia|].
  unfold tokenCount at 1. cbn [snd].
  destruct (UserProfile.doctorAccessTokens p) as [m|].
  - pose proof (scanTokens_cost (map_to_list m) tok) as Hc.
    destruct (Routes.scanTokens (map_to_list m) tok) as [[g'|] n]; cbn in *;
      [lia|].
    destruct (Routes.scanUsers rest tok) as [r n']. cbn in *. lia.
  - destruct (Routes.scanUsers rest tok) as [r n']. cbn in *. lia.
Qed.

(** A token found by the lookup is stored in the profile it is returned
    with, and carries the value presented. *)
Lemma findToken_holds d tok g uid :
  Routes.findToken d tok = Some (g, uid) ->
  exists k, holds d uid k g /\ DoctorAccessToken.token g = tok.
Proof.
  intros H. apply scanUsers_found in H as (p & m & k & Hin & Hm & Hk & Htok).
  apply elem_of_map_to_list in Hin.
  exists k. split; [|exact Htok]. exists p, m. auto.
Qed.

(** The lookup fails exactly when no stored token carries the value. *)
Lemma findToken_None d tok :
  Routes.findToken d tok = None <->
  forall uid k g, holds d uid k g -> DoctorAccessToken.token g <> tok.
Proof.
  split.
  - intros H uid k g (p & m & Hp & Hm & Hk).
    apply scanUsers_missing in H as [_ Hall].
    apply (Hall uid p m k g); auto. apply elem_of_map_to_list. exact Hp.
  - intros Hall. unfold Routes.findToken.
    destruct (Routes.scanUsers (map_to_list (Db.users d)) tok).1
      as [[g uid]|] eqn:E; [|reflexivity].
    destruct (findToken_holds d tok g uid E) as (k & Hh & Htok).
    exfalso. exact (Hall uid k g Hh Htok).
Qed.

(** C8, as the claim puts it, fails: the lookup reads one document per
    patient account and compares the presented value with the stored
    tokens one after the other, so the same request costs more once a
    second account exists. *)
Lemma C8_lookup_cost_grows_with_accounts :
  Routes.findToken clinic "tok-none" = None
  /\ Routes.findToken clinic2 "tok-none" = None
  /\ Routes.findTokenDocsRead clinic = 1%nat
  /\ Routes.findTokenDocsRead clinic2 = 2%nat
  /\ Routes.findTokenComparisons clinic "tok-none" = 3%nat
  /\ Routes.findTokenComparisons clinic2 "tok-none" = 4%nat.
Proof. repeat split; vm_compute; reflexivity. Qed.

(** C8 (amended): the lookup is a scan.  It reads every document of the
    [users] collection, one per patient account, and walks the entries of
    the maps of tokens embedded in them until one carries the presented
    value: it makes at most as many comparisons as there are entries in
    those maps, and exactly that many when no token carries the value. *)
Theorem C8_lookup_is_a_linear_scan :
  forall (d : Db.t) (token : string),
    Routes.findTokenDocsRead d = size (Db.users d)
    /\ (Routes.findTokenComparisons d token <= totalTokens d)%nat
    /\ (Routes.findToken d token = None ->
        Routes.findTokenComparisons d token = totalTokens d).
Proof.
  intros d token. split; [apply length_map_to_list|]. split.
  - apply scanUsers_cost.
  - intros H. apply scanUsers_missing in H as [H _]. exact H.
Qed.

Lemma C8_lookup_is_a_linear_scan_witness :
  Routes.findTokenComparisons clinic2 "tok-none" = totalTokens clinic2.
Proof.
  apply (C8_lookup_is_a_linear_scan clinic2 "tok-none").
  vm_compute. reflexivity.
Defined.

(** ** The timeline route *)

Lemma timeline_found d now c tok' g c' uid' :
  Routes.findToken d (String c tok') = Some (g, String c' uid') ->
  Routes.timeline d now (String c tok')
  = if negb (DoctorAccessToken.isActive g)
       || (DoctorAccessToken.expiresAt g <? now)
    then Routes.inactiveOrExpired
    else Routes.send 200
           (Routes.Reports
              (snd <$> Db.orderByTimestampDesc
                 (Db.reportsInFor d (DoctorAccessToken.allowedReports g)
                    (String c' uid')))).
Proof. intros H. unfold Routes.timeline. cbn [Routes.truthy]. rewrite H. reflexivity. Qed.

Lemma timeline_unknown d now c tok' :
  Routes.findToken d (String c tok') = None ->
  Routes.timeline d now (String c tok') = Routes.invalidToken.
Proof. intros H. unfold Routes.timeline. cbn [Routes.truthy]. rewrite H. reflexivity. Qed.

(** The reports a timeline answer lists are the stored reports of the
    patient whose id is in the scope. *)
Lemma elem_of_scoped_reports d ids uid (r : Report.t) :
  r ∈ snd <$> Db.orderByTimestampDesc (Db.reportsInFor d ids uid) <->
  exists k, Db.reports d !! k = Some r
            /\ Report.id r ∈ ids /\ Report.userId r = uid.
Proof.
  unfold Db.orderByTimestampDesc, Db.reportsInFor.
  rewrite merge_sort_Permutation, list_elem_of_fmap.
  split.
  - intros ([k r'] & -> & Hin). apply list_elem_of_filter in Hin as [[H1 H2] Hin].
    apply elem_of_map_to_list in Hin. exists k. auto.
  - intros (k & Hk & H1 & H2). exists (k, r). split; [reflexivity|].
    apply list_elem_of_filter. split; [split; assumption|].
    apply elem_of_map_to_list. exact Hk.
Qed.

Lemma timeline_dead d now token uid g :
  token <> "" -> uid <> "" ->
  Routes.findToken d token = Some (g, uid) ->
  DoctorAccessToken.isActive g = false \/ DoctorAccessToken.expiresAt g < now ->
  Routes.timeline d now token = Routes.inactiveOrExpired.
Proof.
  destruct token as [|c tok'], uid as [|c' uid']; try congruence.
  intros _ _ Hfind Hdead.
  rewrite (timeline_found _ now _ _ _ _ _ Hfind).
  destruct Hdead as [Hact | Hexp].
  - rewrite Hact. reflexivity.
  - replace (DoctorAccessToken.expiresAt g <? now) with true
      by (symmetry; apply Z.ltb_lt; lia).
    rewrite orb_true_r. reflexivity.
Qed.

(** C2, as the claim puts it, fails at the very instant of expiry: the
    handler rejects when [expiresAt < now], so a request made at
    [now = expiresAt] is still served. *)
Lemma C2_served_at_expiry_instant :
  exists g : DoctorAccessToken.t,
    Routes.findToken clinic "tok-live" = Some (g, "pat")
    /\ DoctorAccessToken.isActive g = true
    /\ 1000 >= DoctorAccessToken.expiresAt g
    /\ Routes.timeline clinic 1000 "tok-live"
       = Routes.send 200 (Routes.Reports [sampleReport "R1" "pat" "2024-01-10" 5]).
Proof.
  exists (sampleToken "G1" "pat" "tok-live" 1000 true).
  repeat split; vm_compute; congruence.
Qed.

(** C2 (amended): with a token that the lookup resolves to the grant [g]
    of patient [uid], the timeline route answers 200 with the patient's
    reports in the scope of [g] exactly when [g] is active and
    [now <= expiresAt]; when [g] is inactive or [expiresAt < now] it
    answers 403 with an error message and no report. *)
Theorem C2_timeline_validity :
  forall (d : Db.t) (now : Z) (token uid : string) (g : DoctorAccessToken.t),
    token <> "" -> uid <> "" ->
    Routes.findToken d token = Some (g, uid) ->
    (DoctorAccessToken.isActive g = true /\ now <= DoctorAccessToken.expiresAt g ->
       exists rs : list Report.t,
         Routes.timeline d now token = Routes.send 200 (Routes.Reports rs)
         /\ forall r, r ∈ rs <->
              exists k, Db.reports d !! k = Some r
                        /\ Report.id r ∈ DoctorAccessToken.allowedReports g
                        /\ Report.userId r = uid)
    /\ (DoctorAccessToken.isActive g = false \/ DoctorAccessToken.expiresAt g < now ->
          Routes.timeline d now token
          = Routes.send 403
              (Routes.Error "Doctor access token is inactive or expired." None)).
Proof.
  intros d now token uid g Htok Huid Hfind.
  split; [|apply (timeline_dead d now token uid g Htok Huid Hfind)].
  destruct token as [|c tok'], uid as [|c' uid']; try congruence.
  rewrite (timeline_found _ now _ _ _ _ _ Hfind).
  intros [Hact Hexp]. rewrite Hact.
  replace (DoctorAccessToken.expiresAt g <? now) with false
    by (symmetry; apply Z.ltb_ge; lia).
  eexists. split; [reflexivity|]. apply elem_of_scoped_reports.
Qed.

Lemma C2_timeline_validity_witness :
  (exists rs : list Report.t,
     Routes.timeline clinic 1000 "tok-live" = Routes.send 200 (Routes.Reports rs)
     /\ forall r, r ∈ rs <->
          exists k, Db.reports clinic !! k = Some r
                    /\ Report.id r ∈ ["R1"] /\ Report.userId r = "pat")
  /\ Routes.timeline clinic 1001 "tok-live"
     = Routes.send 403
         (Routes.Error "Doctor access token is inactive or expired." None).
Proof.
  split.
  - refine (proj1 (C2_timeline_validity clinic 1000 "tok-live" "pat"
                     (sampleToken "G1" "pat" "tok-live" 1000 true) _ _ _) _).
    + discriminate.
    + discriminate.
    + vm_compute. reflexivity.
    + split; [reflexivity | vm_compute; discriminate].
  - refine (proj2 (C2_timeline_validity clinic 1001 "tok-live" "pat"
                     (sampleToken "G1" "pat" "tok-live" 1000 true) _ _ _) _).
    + discriminate.
    + discriminate.
    + vm_compute. reflexivity.
    + right. vm_compute. reflexivity.
Defined.

(** C3, as the claim puts it, fails: a token that no grant holds is
    answered 404 "Invalid or expired doctor access token.", a revoked or
    expired one 403 "Doctor access token is inactive or expired.", so the
    viewer can tell an unknown token from a known dead one. *)
Lemma C3_unknown_token_is_told_apart :
  Routes.findToken clinic "tok-none" = None
  /\ Routes.timeline clinic 500 "tok-none"
     = Routes.send 404 (Routes.Error "Invalid or expired doctor access token." None)
  /\ Routes.timeline clinic 500 "tok-revoked"
     = Routes.send 403 (Routes.Error "Doctor access token is inactive or expired." None)
  /\ Routes.timeline clinic 500 "tok-none" <> Routes.timeline clinic 500 "tok-revoked".
Proof. repeat split; vm_compute; congruence. Qed.

(** C3 (amended): a revoked grant and an expired grant get one and the
    same answer, status 403 with the same message, so the viewer cannot
    tell revocation from expiry; a token held by no grant gets a different
    answer, status 404. *)
Theorem C3_revoked_and_expired_answer_alike :
  forall (d : Db.t) (now : Z) (tokR uidR tokE uidE tokU : string)
         (gR gE : DoctorAccessToken.t),
    tokR <> "" -> uidR <> "" -> tokE <> "" -> uidE <> "" -> tokU <> "" ->
    Routes.findToken d tokR = Some (gR, uidR) ->
    DoctorAccessToken.isActive gR = false ->
    Routes.findToken d tokE = Some (gE, uidE) ->
    DoctorAccessToken.expiresAt gE < now ->
    Routes.findToken d tokU = None ->
    Routes.timeline d now tokR = Routes.timeline d now tokE
    /\ Routes.status (Routes.timeline d now tokR) = 403
    /\ Routes.status (Routes.timeline d now tokU) = 404
    /\ Routes.timeline d now tokU <> Routes.timeline d now tokR.
Proof.
  intros d now tokR uidR tokE uidE tokU gR gE HtR HuR HtE HuE HtU HfR HaR HfE HxE HfU.
  rewrite (timeline_dead d now tokR uidR gR HtR HuR HfR (or_introl HaR)).
  rewrite (timeline_dead d now tokE uidE gE HtE HuE HfE (or_intror HxE)).
  destruct tokU as [|c t]; [congruence|].
  rewrite (timeline_unknown _ now _ _ HfU).
  repeat split; try reflexivity. discriminate.
Qed.

Lemma C3_revoked_and_expired_answer_alike_witness :
  Routes.timeline clinic 500 "tok-revoked" = Routes.timeline clinic 500 "tok-expired"
  /\ Routes.status (Routes.timeline clinic 500 "tok-revoked") = 403
  /\ Routes.status (Routes.timeline clinic 500 "tok-none") = 404
  /\ Routes.timeline clinic 500 "tok-none" <> Routes.timeline clinic 500 "tok-revoked".
Proof.
  apply (C3_revoked_and_expired_answer_alike clinic 500
           "tok-revoked" "pat" "tok-expired" "pat" "tok-none"
           (sampleToken "G2" "pat" "tok-revoked" 1000 false)
           (sampleToken "G3" "pat" "tok-expired" 10 true));
    try discriminate; vm_compute; reflexivity.
Defined.

(** ** The order of the report queries *)

Lemma string_compare_refl (s : string) : String.compare s s = Eq.
Proof.
  induction s as [|a s IH]; [reflexivity|]. cbn.
  unfold Ascii.compare. rewrite N.compare_refl. exact IH.
Qed.

Lemma string_compare_lt_trans (s1 s2 s3 : string) :
  String.compare s1 s2 = Lt -> String.compare s2 s3 = Lt ->
  String.compare s1 s3 = Lt.
Proof.
  revert s2 s3. induction s1 as [|a s1 IH]; intros [|b s2] [|c s3]; cbn;
    try congruence.
  unfold Ascii.compare.
  destruct (N.compare_spec (N_of_ascii a) (N_of_ascii b)) as [E1|L1|G1];
    destruct (N.compare_spec (N_of_ascii b) (N_of_ascii c)) as [E2|L2|G2];
    destruct (N.compare_spec (N_of_ascii a) (N_of_ascii c)) as [E3|L3|G3];
    try congruence; try lia.
  apply IH.
Qed.

Lemma string_compare_gt_lt (s1 s2 : string) :
  String.compare s1 s2 = Gt <-> String.compare s2 s1 = Lt.
Proof.
  rewrite (String.compare_antisym s1 s2).
  destruct (String.compare s2 s1); cbn; split; congruence.
Qed.

Lemma string_leb_trans (s1 s2 s3 : string) :
  String.leb s1 s2 = true -> String.leb s2 s3 = true -> String.leb s1 s3 = true.
Proof.
  unfold String.leb.
  destruct (String.compare s1 s2) eqn:E12; try discriminate;
    destruct (String.compare s2 s3) eqn:E23; try discriminate; intros _ _.
  - apply String.compare_eq_iff in E12, E23. subst.
    now rewrite string_compare_refl.
  - apply String.compare_eq_iff in E12. subst. now rewrite E23.
  - apply String.compare_eq_iff in E23. subst. now rewrite E12.
  - now rewrite (string_compare_lt_trans _ _ _ E12 E23).
Qed.

(** [Db.before] spelled out: by date, latest first, and by document id,
    largest first, among reports of one date.  [uploadedAt] plays no part. *)
Lemma before_spec (x y : string * Report.t) :
  Db.before x y <->
  String.leb (Report.timestamp y.2) (Report.timestamp x.2) = true
  /\ (Report.timestamp x.2 = Report.timestamp y.2 -> String.leb y.1 x.1 = true).
Proof.
  unfold Db.before, Db.beforeb, String.leb.
  destruct (String.compare (Report.timestamp y.2) (Report.timestamp x.2)) eqn:E.
  - apply String.compare_eq_iff in E. split; [auto|]. intros [_ H]. auto.
  - split; [|reflexivity]. intros _. split; [reflexivity|].
    intros Heq. rewrite Heq, string_compare_refl in E. discriminate.
  - split; [discriminate|]. intros [? _]. discriminate.
Qed.

#[local] Instance before_total : Total Db.before.
Proof.
  intros x y. unfold Db.before, Db.beforeb.
  destruct (String.compare (Report.timestamp y.2) (Report.timestamp x.2)) eqn:E.
  - rewrite String.compare_antisym, E. cbn. apply String.leb_total.
  - left. reflexivity.
  - right. apply string_compare_gt_lt in E. rewrite E. reflexivity.
Qed.

#[local] Instance before_trans : Transitive Db.before.
Proof.
  intros x y z. unfold Db.before, Db.beforeb.
  destruct (String.compare (Report.timestamp y.2) (Report.timestamp x.2)) eqn:Exy;
    try discriminate;
    destruct (String.compare (Report.timestamp z.2) (Report.timestamp y.2)) eqn:Eyz;
    try discriminate; intros Hxy Hyz.
  - apply String.compare_eq_iff in Exy. rewrite <- Exy, Eyz.
    eapply string_leb_trans; eassumption.
  - apply String.compare_eq_iff in Exy. rewrite <- Exy, Eyz. reflexivity.
  - apply String.compare_eq_iff in Eyz. rewrite Eyz, Exy. reflexivity.
  - rewrite (string_compare_lt_trans _ _ _ Eyz Exy). reflexivity.
Qed.

Lemma StronglySorted_weaken {A : Type} (R1 R2 : A -> A -> Prop) (l : list A) :
  (forall x y, R1 x y -> R2 x y) -> StronglySorted R1 l -> StronglySorted R2 l.
Proof.
  intros Himp. induction 1 as [|x l Hsorted IH Hall]; constructor; [exact IH|].
  eapply Forall_impl; [exact Hall|]. intros y. apply Himp.
Qed.

(** C9, as the claim puts it, fails: the query has [timestamp] as its only
    sort key.  Reports "A" and "B" bear the same date and "A" was ingested
    later, yet "B" is listed first; and "B" is still listed first when the
    ingestion times are exchanged. *)
Lemma C9_tie_not_broken_by_ingestion :
  Report.timestamp (sampleReport "A" "pat" "2024-01-10" 2000)
  = Report.timestamp (sampleReport "B" "pat" "2024-01-10" 1000)
  /\ Report.uploadedAt (sampleReport "B" "pat" "2024-01-10" 1000)
     < Report.uploadedAt (sampleReport "A" "pat" "2024-01-10" 2000)
  /\ Routes.reports ward (Some "pat")
     = Routes.send 200
         (Routes.Reports [sampleReport "B" "pat" "2024-01-10" 1000;
                          sampleReport "A" "pat" "2024-01-10" 2000])
  /\ Routes.reports ward' (Some "pat")
     = Routes.send 200
         (Routes.Reports [sampleReport "B" "pat" "2024-01-10" 2000;
                          sampleReport "A" "pat" "2024-01-10" 1000]).
Proof. repeat split; vm_compute; reflexivity. Qed.

(** C9 (amended): for every owner, the reports route returns exactly that
    owner's reports, each once, ordered by [timestamp] descending (the
    date strings compared code unit by code unit); reports of equal
    [timestamp] come in descending order of document id, and [uploadedAt]
    plays no part in the order. *)
Theorem C9_reports_by_date_descending :
  forall (d : Db.t) (uid : string),
    uid <> "" ->
    exists l : list (string * Report.t),
      Routes.reports d (Some uid) = Routes.send 200 (Routes.Reports (l.*2))
      /\ NoDup l
      /\ (forall k r, (k, r) ∈ l <->
            Db.reports d !! k = Some r /\ Report.userId r = uid)
      /\ StronglySorted
           (fun x y =>
              String.leb (Report.timestamp y.2) (Report.timestamp x.2) = true
              /\ (Report.timestamp x.2 = Report.timestamp y.2 ->
                  String.leb y.1 x.1 = true)) l.
Proof.
  intros d [|c uid'] Huid; [congruence|].
  exists (Db.orderByTimestampDesc (Db.reportsFor d (String c uid'))).
  split; [reflexivity|].
  unfold Db.orderByTimestampDesc, Db.reportsFor.
  split.
  { rewrite merge_sort_Permutation. apply NoDup_filter, NoDup_map_to_list. }
  split.
  { intros k r. rewrite merge_sort_Permutation, list_elem_of_filter,
      elem_of_map_to_list. cbn. tauto. }
  eapply StronglySorted_weaken; [|apply (StronglySorted_merge_sort Db.before)].
  intros x y Hxy. apply before_spec. exact Hxy.
Qed.

Lemma C9_reports_by_date_descending_witness :
  exists l : list (string * Report.t),
    Routes.reports ward (Some "pat") = Routes.send 200 (Routes.Reports (l.*2))
    /\ NoDup l
    /\ (forall k r, (k, r) ∈ l <->
          Db.reports ward !! k = Some r /\ Report.userId r = "pat")
    /\ StronglySorted
         (fun x y =>
            String.leb (Report.timestamp y.2) (Report.timestamp x.2) = true
            /\ (Report.timestamp x.2 = Report.timestamp y.2 ->
                String.leb y.1 x.1 = true)) l.
Proof. apply (C9_reports_by_date_descending ward "pat"). discriminate. Defined.

(** ** Reports are stored under their id *)

(** When the update of the revoke route goes through. *)
Lemma clearActive_inr d uid tid d' :
  Db.clearActive d uid tid = inr d' ->
  exists p,
       Db.users d !! uid = Some p
       /\ Db.refusesKey (default ∅ (UserProfile.doctorAccessTokens p)) tid = false
       /\ d' = Db.mk
                 (<[uid := UserProfile.mk (UserProfile.name p)
                             (UserProfile.email p) (UserProfile.createdAt p)
                             (Some (<[tid := Db.deactivateEntry
                                               (default ∅ (UserProfile.doctorAccessTokens p)
                                                  !! tid)]>
                                      (default ∅ (UserProfile.doctorAccessTokens p))))]>
                    (Db.users d))
                 (Db.reports d).
Proof.
  unfold Db.clearActive.
  destruct (Db.users d !! uid) as [p|]; [|discriminate]. cbn zeta.
  destruct (Db.refusesKey _ tid) eqn:E; [discriminate|].
  intros [= <-]. exists p. auto.
Qed.

Lemma clearActive_reports d uid tid d' :
  Db.clearActive d uid tid = inr d' -> Db.reports d' = Db.reports d.
Proof. intros H. apply clearActive_inr in H as (p & _ & _ & ->). reflexivity. Qed.

Lemma keyed_handle uuid Date_parse bucketName s now r :
  keyed (Routes.db s) ->
  keyed (Routes.db (Routes.handle uuid Date_parse bucketName s now r)).
Proof.
  intros Hk. destruct r as [uid name email | userId file response
                            | userId allowedReports | userId tokenId];
    cbn [Routes.handle].
  - unfold Routes.signUp. destruct (Db.users (Routes.db s) !! uid); exact Hk.
  - unfold Routes.uploadReport.
    destruct file as [[originalname mimetype]|]; [|exact Hk].
    destruct (Routes.truthy userId) as [uid|]; [|exact Hk].
    cbn [Routes.uuidv4 Routes.db Routes.draws].
    destruct (GeminiService.extractMedicalData Date_parse mimetype response)
      as [message | geminiData]; cbn [snd Routes.db]; [exact Hk|].
    unfold keyed, Db.setReport. cbn [Db.reports].
    apply map_Forall_insert_2; [reflexivity | exact Hk].
  - unfold Routes.createDoctorAccessToken.
    destruct (Routes.truthy userId) as [uid|]; [|exact Hk].
    destruct allowedReports as [[|i ids]|]; try exact Hk.
    destruct (negb _); [exact Hk|].
    cbn [Routes.uuidv4 Routes.db Routes.draws].
    unfold Db.setToken.
    destruct (Db.users (Routes.db s) !! uid); cbn; exact Hk.
  - unfold Routes.revokeDoctorAccessToken.
    destruct (Routes.truthy userId) as [uid|]; [|exact Hk].
    destruct (Routes.truthy tokenId) as [tid|]; [|exact Hk].
    destruct (Db.users (Routes.db s) !! uid) as [userProfile|] eqn:Hu; [|exact Hk].
    destruct (negb _); [exact Hk|].
    destruct (Db.clearActive (Routes.db s) uid tid) as [message|d'] eqn:Hclr;
      cbn [snd Routes.db]; [exact Hk|].
    unfold keyed. rewrite (clearActive_reports _ _ _ _ Hclr). exact Hk.
Qed.

(** In every state the server can reach, each report document is stored
    under its own id. *)
Lemma keyed_reachable uuid Date_parse bucketName s :
  Routes.reachable uuid Date_parse bucketName s -> keyed (Routes.db s).
Proof.
  induction 1 as [|s now r _ IH]; [|apply keyed_handle, IH].
  unfold keyed. cbn. apply map_Forall_empty.
Qed.

Lemma reachable_run uuid rs :
  Routes.reachable uuid noParse "bucket" (run uuid rs).
Proof.
  unfold run. induction rs as [|r rs IH] using rev_ind; [constructor|].
  rewrite foldl_app. cbn. constructor. exact IH.
Qed.

Lemma tally_never_repeats i j : tally i = tally j -> i = j.
Proof.
  revert j. induction i as [|i IH]; intros [|j]; cbn; try discriminate; auto.
  intros [= H]. f_equal. apply IH, H.
Qed.

(** ** Issuing an access token *)

Lemma elem_of_reportsInFor d ids uid k r :
  (k, r) ∈ Db.reportsInFor d ids uid <->
  Db.reports d !! k = Some r /\ Report.id r ∈ ids /\ Report.userId r = uid.
Proof.
  unfold Db.reportsInFor.
  rewrite list_elem_of_filter, elem_of_map_to_list. cbn. tauto.
Qed.

Lemma NoDup_reportsInFor_keys d ids uid :
  NoDup (Db.reportsInFor d ids uid).*1.
Proof.
  apply NoDup_fmap_fst.
  - intros k r1 r2 H1 H2.
    apply elem_of_reportsInFor in H1 as [H1 _], H2 as [H2 _]. congruence.
  - apply NoDup_filter, NoDup_map_to_list.
Qed.

Lemma reportsInFor_keys_owned d ids uid k :
  keyed d -> k ∈ (Db.reportsInFor d ids uid).*1 -> k ∈ ids /\ owns d uid k.
Proof.
  intros Hkeyed Hin.
  apply list_elem_of_fmap in Hin as ([k' r] & -> & Hin).
  apply elem_of_reportsInFor in Hin as (Hk & Hid & Hu).
  pose proof (Hkeyed k' r Hk) as Hkey. cbn in Hkey. cbn.
  split; [congruence|]. exists k', r. auto.
Qed.

(** The ownership check of the route passes exactly when the requested
    ids are pairwise distinct and each names a report of the caller. *)
Lemma reportsInFor_length d ids uid :
  keyed d ->
  length (Db.reportsInFor d ids uid) = length ids <->
  NoDup ids /\ forall i, i ∈ ids -> owns d uid i.
Proof.
  intros Hkeyed.
  pose proof (NoDup_reportsInFor_keys d ids uid) as Hnd.
  split.
  - intros Hlen.
    assert ((Db.reportsInFor d ids uid).*1 ≡ₚ ids) as Hperm.
    { apply submseteq_length_Permutation.
      - apply NoDup_submseteq; [exact Hnd|].
        intros k Hk. apply (reportsInFor_keys_owned d ids uid k Hkeyed Hk).
      - rewrite length_fmap. lia. }
    split.
    + rewrite <- Hperm. exact Hnd.
    + intros i Hi. rewrite <- Hperm in Hi.
      apply (reportsInFor_keys_owned d ids uid i Hkeyed Hi).
  - intros [Hids Hown].
    rewrite <- (length_fmap fst). apply Permutation_length.
    apply NoDup_Permutation; [exact Hnd | exact Hids |].
    intros k. split.
    + intros Hk. apply (reportsInFor_keys_owned d ids uid k Hkeyed Hk).
    + intros Hk. destruct (Hown k Hk) as (k' & r & Hr & Hid & Hu).
      pose proof (Hkeyed k' r Hr) as Hkey. cbn in Hkey.
      apply list_elem_of_fmap. exists (k', r). split; [cbn; congruence|].
      apply elem_of_reportsInFor. split; [exact Hr|]. split; [|exact Hu].
      rewrite Hid. exact Hk.
Qed.

Lemma create_forbidden uuid s now uid ids :
  uid <> "" -> ids <> [] ->
  length (Db.reportsInFor (Routes.db s) ids uid) <> length ids ->
  Routes.createDoctorAccessToken uuid s now (Some uid) (Some ids)
  = (Routes.forbidden, s).
Proof.
  intros Huid Hids Hlen.
  destruct uid as [|c uid']; [congruence|]. destruct ids as [|i ids']; [congruence|].
  unfold Routes.createDoctorAccessToken. cbn [Routes.truthy].
  apply Nat.eqb_neq in Hlen. rewrite Hlen. reflexivity.
Qed.

(** The route changes the state only when the ownership check passes. *)
Lemma create_changes_only_when_sizes_agree uuid s now userId ids :
  (Routes.createDoctorAccessToken uuid s now userId (Some ids)).2 <> s ->
  exists uid, Routes.truthy userId = Some uid
    /\ length (Db.reportsInFor (Routes.db s) ids uid) = length ids.
Proof.
  unfold Routes.createDoctorAccessToken.
  destruct (Routes.truthy userId) as [uid|]; [|cbn; congruence].
  destruct ids as [|i ids']; [cbn; congruence|].
  destruct (length (Db.reportsInFor (Routes.db s) (i :: ids') uid)
            =? length (i :: ids'))%nat eqn:E; [|cbn; congruence].
  intros _. exists uid. split; [reflexivity|]. apply Nat.eqb_eq. exact E.
Qed.

(** C1: a request naming an id that is not a report of the caller is
    answered 403 and leaves the state as it was: no grant is stored, the
    list of active tokens is what it was and [uuidv4] has not been called.
    The state changes only when the query returns as many reports as ids
    were requested. *)
Theorem C1_foreign_report_is_forbidden :
  forall (uuid : nat -> string) (s : Routes.State) (now : Z)
         (uid : string) (ids : list string) (i : string),
    keyed (Routes.db s) -> uid <> "" ->
    i ∈ ids -> ~ owns (Routes.db s) uid i ->
    let result := Routes.createDoctorAccessToken uuid s now (Some uid) (Some ids) in
    result.1 = Routes.send 403
                 (Routes.Error
                    "One or more selected reports do not belong to the authenticated user."
                    None)
    /\ result.2 = s
    /\ Routes.doctorAccessTokens (Routes.db result.2) (Some uid)
       = Routes.doctorAccessTokens (Routes.db s) (Some uid)
    /\ Routes.draws result.2 = Routes.draws s
    /\ forall now' userId' ids',
         (Routes.createDoctorAccessToken uuid s now' userId' (Some ids')).2 <> s ->
         exists uid', Routes.truthy userId' = Some uid'
           /\ length (Db.reportsInFor (Routes.db s) ids' uid') = length ids'.
Proof.
  intros uuid s now uid ids i Hkeyed Huid Hi Hforeign result.
  assert (result = (Routes.forbidden, s)) as ->.
  { apply create_forbidden; [exact Huid | |].
    - intros ->. inversion Hi.
    - intros Hlen. apply (reportsInFor_length _ _ _ Hkeyed) in Hlen as [_ Hown].
      exact (Hforeign (Hown i Hi)). }
  cbn. repeat split.
  intros now' userId' ids'. apply create_changes_only_when_sizes_agree.
Qed.

(** A request of the patient that names their report and an id no report
    bears. *)
Lemma C1_foreign_report_is_forbidden_witness :
  Routes.createDoctorAccessToken tally (run tally (twoIssuances "u")) 7
    (Some "pat") (Some ["u"; "zz"])
  = (Routes.send 403
       (Routes.Error
          "One or more selected reports do not belong to the authenticated user."
          None),
     run tally (twoIssuances "u")).
Proof.
  pose proof (keyed_reachable _ _ _ _ (reachable_run tally (twoIssuances "u")))
    as Hkeyed.
  assert (~ owns (Routes.db (run tally (twoIssuances "u"))) "pat" "zz") as Hforeign.
  { intros (k & r & Hk & Hid & _). pose proof (Hkeyed k r Hk) as Hkey.
    cbn in Hkey. rewrite Hid in Hkey. subst k. vm_compute in Hk. discriminate. }
  assert ("zz" ∈ ["u"; "zz"]) as Hin by (right; left).
  pose proof (C1_foreign_report_is_forbidden tally
                (run tally (twoIssuances "u")) 7 "pat" ["u"; "zz"] "zz"
                Hkeyed ltac:(discriminate) Hin Hforeign) as H.
  cbv zeta in H. destruct H as (H1 & H2 & _).
  etransitivity; [apply surjective_pairing|]. f_equal; assumption.
Defined.

(** C10: a request listing the same id twice is answered 403 and leaves
    the state as it was, even when every listed id is a report of the
    caller: the query returns each report once, so it returns fewer
    reports than ids were listed. *)
Theorem C10_duplicate_id_is_forbidden :
  forall (uuid : nat -> string) (s : Routes.State) (now : Z)
         (uid : string) (ids : list string),
    keyed (Routes.db s) -> uid <> "" -> ~ NoDup ids ->
    Routes.createDoctorAccessToken uuid s now (Some uid) (Some ids)
    = (Routes.send 403
         (Routes.Error
            "One or more selected reports do not belong to the authenticated user."
            None), s)
    /\ (length (Db.reportsInFor (Routes.db s) ids uid) < length ids)%nat.
Proof.
  intros uuid s now uid ids Hkeyed Huid Hdup.
  assert (length (Db.reportsInFor (Routes.db s) ids uid) <> length ids) as Hne.
  { intros Hlen. apply (reportsInFor_length _ _ _ Hkeyed) in Hlen as [Hnd _].
    exact (Hdup Hnd). }
  split.
  - apply create_forbidden; [exact Huid | | exact Hne].
    intros ->. apply Hdup. constructor.
  - assert (length (Db.reportsInFor (Routes.db s) ids uid) <= length ids)%nat;
      [|lia].
    rewrite <- (length_fmap fst). apply submseteq_length, NoDup_submseteq.
    + apply NoDup_reportsInFor_keys.
    + intros k Hk. apply (reportsInFor_keys_owned _ ids uid k Hkeyed Hk).
Qed.

(** A request of the patient that names their one report twice. *)
Lemma C10_duplicate_id_is_forbidden_witness :
  owns (Routes.db (run tally (twoIssuances "u"))) "pat" "u"
  /\ Routes.createDoctorAccessToken tally (run tally (twoIssuances "u")) 7
       (Some "pat") (Some ["u"; "u"])
     = (Routes.send 403
          (Routes.Error
             "One or more selected reports do not belong to the authenticated user."
             None),
        run tally (twoIssuances "u")).
Proof.
  split.
  - eexists "u", _. split; [vm_compute; reflexivity|]. split; reflexivity.
  - refine (proj1 (C10_duplicate_id_is_forbidden tally
                     (run tally (twoIssuances "u")) 7 "pat" ["u"; "u"] _ _ _)).
    + exact (keyed_reachable _ _ _ _ (reachable_run tally (twoIssuances "u"))).
    + discriminate.
    + inversion 1 as [|? ? Hnotin]. apply Hnotin. left.
Defined.

(** ** The tokens of all grants *)

Lemma holds_entry d uid k g :
  holds d uid k g <-> entryOf d uid k = Some (TokenEntry.Token g).
Proof.
  unfold entryOf. split.
  - intros (p & m & Hp & Hm & Hk). rewrite Hp. cbn. rewrite Hm. exact Hk.
  - intros H. apply bind_Some in H as (p & Hp & H).
    apply bind_Some in H as (m & Hm & Hk). exists p, m. auto.
Qed.

Lemma holdsOnlyInactive_entry d uid k :
  holdsOnlyInactive d uid k <-> entryOf d uid k = Some TokenEntry.OnlyInactive.
Proof.
  unfold entryOf. split.
  - intros (p & m & Hp & Hm & Hk). rewrite Hp. cbn. rewrite Hm. exact Hk.
  - intros H. apply bind_Some in H as (p & Hp & H).
    apply bind_Some in H as (m & Hm & Hk). exists p, m. auto.
Qed.

Lemma holds_lookup d uid k g :
  (Db.users d !! uid ≫= fun p =>
     UserProfile.doctorAccessTokens p ≫= fun m => m !! k)
  = Some (TokenEntry.Token g) ->
  holds d uid k g.
Proof. apply holds_entry. Qed.

Lemma holds_functional d uid k g1 g2 :
  holds d uid k g1 -> holds d uid k g2 -> g1 = g2.
Proof. intros (p & m & Hp & Hm & Hk) (p' & m' & Hp' & Hm' & Hk'). congruence. Qed.

Lemma default_empty_lookup (o : option (gmap string TokenEntry.t)) (k : string) :
  default ∅ o !! k = o ≫= fun m => m !! k.
Proof. destruct o; [reflexivity | apply lookup_empty]. Qed.

(** The entries after the update of the token route. *)
Lemma setToken_entry d uid tid g d' u k :
  Db.setToken d uid tid g = Some d' ->
  entryOf d' u k
  = if decide (u = uid /\ k = tid) then Some (TokenEntry.Token g)
    else entryOf d u k.
Proof.
  unfold Db.setToken. intros Hset.
  apply bind_Some in Hset as (p & Hp & [= <-]).
  unfold entryOf. cbn [Db.users].
  destruct (decide (u = uid)) as [->|Hu].
  - rewrite lookup_insert_eq, Hp. cbn.
    destruct (decide (k = tid)) as [->|Hk].
    + rewrite lookup_insert_eq. rewrite decide_True by auto. reflexivity.
    + rewrite lookup_insert_ne by congruence.
      rewrite decide_False by tauto. apply default_empty_lookup.
  - rewrite lookup_insert_ne by congruence. rewrite decide_False by tauto.
    reflexivity.
Qed.

(** The entries after the update of the revoke route. *)
Lemma clearActive_entry d uid tid d' u k :
  Db.clearActive d uid tid = inr d' ->
  entryOf d' u k
  = if decide (u = uid /\ k = tid) then Some (Db.deactivateEntry (entryOf d u k))
    else entryOf d u k.
Proof.
  intros Hclr. apply clearActive_inr in Hclr as (p & Hp & _ & ->).
  unfold entryOf. cbn [Db.users].
  destruct (decide (u = uid)) as [->|Hu].
  - rewrite lookup_insert_eq, Hp. cbn.
    destruct (decide (k = tid)) as [->|Hk].
    + rewrite lookup_insert_eq. rewrite decide_True by auto.
      rewrite default_empty_lookup. reflexivity.
    + rewrite lookup_insert_ne by congruence.
      rewrite decide_False by tauto. apply default_empty_lookup.
  - rewrite lookup_insert_ne by congruence. rewrite decide_False by tauto.
    reflexivity.
Qed.

Lemma signUp_entry s now uid name email u k :
  entryOf (Routes.db (Routes.signUp s now uid name email)) u k
  = entryOf (Routes.db s) u k.
Proof.
  unfold Routes.signUp.
  destruct (Db.users (Routes.db s) !! uid) eqn:E; [reflexivity|].
  unfold entryOf. cbn.
  destruct (decide (u = uid)) as [->|Hu].
  - rewrite lookup_insert_eq, E. reflexivity.
  - rewrite lookup_insert_ne by congruence. reflexivity.
Qed.

Lemma holds_setToken d uid tid g d' u k g' :
  Db.setToken d uid tid g = Some d' ->
  holds d' u k g' ->
  (u = uid /\ k = tid /\ g' = g) \/ holds d u k g'.
Proof.
  intros Hset Hh. apply holds_entry in Hh.
  rewrite (setToken_entry _ _ _ _ _ _ _ Hset) in Hh.
  destruct (decide (u = uid /\ k = tid)) as [[-> ->]|Hne].
  - injection Hh as <-. left. auto.
  - right. apply holds_entry, Hh.
Qed.

Lemma deactivateEntry_Token (e : option TokenEntry.t) (g' : DoctorAccessToken.t) :
  Db.deactivateEntry e = TokenEntry.Token g' ->
  exists g, e = Some (TokenEntry.Token g) /\ g' = Db.deactivate g.
Proof.
  destruct e as [[g|]|]; cbn; try discriminate.
  intros [= <-]. exists g. auto.
Qed.

Lemma holds_clearActive_inv d uid tid d' u k g' :
  Db.clearActive d uid tid = inr d' ->
  holds d' u k g' ->
  exists g, holds d u k g /\ (g' = g \/ g' = Db.deactivate g).
Proof.
  intros Hclr Hh. apply holds_entry in Hh.
  rewrite (clearActive_entry _ _ _ _ _ _ Hclr) in Hh.
  destruct (decide (u = uid /\ k = tid)) as [[-> ->]|Hne].
  - injection Hh as Hh. apply deactivateEntry_Token in Hh as (g & Hg & ->).
    exists g. split; [apply holds_entry, Hg | auto].
  - exists g'. split; [apply holds_entry, Hh | auto].
Qed.

Lemma holds_clearActive d uid tid d' u k g' :
  Db.clearActive d uid tid = inr d' ->
  holds d' u k g' ->
  exists g, holds d u k g
            /\ DoctorAccessToken.id g' = DoctorAccessToken.id g
            /\ DoctorAccessToken.token g' = DoctorAccessToken.token g.
Proof.
  intros Hclr Hh.
  destruct (holds_clearActive_inv _ _ _ _ _ _ _ Hclr Hh) as (g & Hg & [-> | ->]);
    exists g; auto.
Qed.

Lemma holds_signUp s now uid name email u k g :
  holds (Routes.db (Routes.signUp s now uid name email)) u k g ->
  holds (Routes.db s) u k g.
Proof. rewrite !holds_entry, signUp_entry. auto. Qed.

(** A step that draws some uuids and keeps the [id] and [token] of every
    stored access token keeps the invariant. *)
Lemma Inv_frame uuid s s' :
  Inv uuid s ->
  (Routes.draws s <= Routes.draws s')%nat ->
  (forall u k g', holds (Routes.db s') u k g' ->
     exists g, holds (Routes.db s) u k g
               /\ DoctorAccessToken.id g' = DoctorAccessToken.id g
               /\ DoctorAccessToken.token g' = DoctorAccessToken.token g) ->
  Inv uuid s'.
Proof.
  intros (Hfresh & Huniq & Hnot) Hdraws Hback. split; [|split].
  - intros u k g' Hh. destruct (Hback u k g' Hh) as (g & Hg & Hid & Htok).
    destruct (Hfresh u k g Hg) as (i & Hi & Hk & Hid' & Htok').
    exists i. repeat split; [lia | exact Hk | congruence | congruence].
  - intros u1 u2 k g1 g2 H1 H2.
    destruct (Hback _ _ _ H1) as (g1' & H1' & _), (Hback _ _ _ H2) as (g2' & H2' & _).
    exact (Huniq _ _ _ _ _ H1' H2').
  - intros u1 k1 g1 u2 k2 g2 H1 H2.
    destruct (Hback _ _ _ H1) as (g1' & H1' & _ & Ht).
    destruct (Hback _ _ _ H2) as (g2' & H2' & Hi & _).
    rewrite Ht, Hi. exact (Hnot _ _ _ _ _ _ H1' H2').
Qed.

Section FreshUuids.

Variable uuid : nat -> string.
Hypothesis uuid_never_repeats : forall i j, uuid i = uuid j -> i = j.

Lemma Inv_setToken s uid g d' :
  Inv uuid s ->
  DoctorAccessToken.id g = uuid (Routes.draws s) ->
  DoctorAccessToken.token g = uuid (S (Routes.draws s)) ->
  Db.setToken (Routes.db s) uid (uuid (Routes.draws s)) g = Some d' ->
  Inv uuid (Routes.mkState d' (S (S (Routes.draws s)))).
Proof.
  intros (Hfresh & Huniq & Hnot) Hid Htok Hset.
  assert (forall u k g', holds d' u k g' ->
            exists i, (S i < S (S (Routes.draws s)))%nat /\ k = uuid i
                      /\ DoctorAccessToken.id g' = uuid i
                      /\ DoctorAccessToken.token g' = uuid (S i)
                      /\ (i = Routes.draws s -> u = uid)
                      /\ (i <> Routes.draws s ->
                          holds (Routes.db s) u k g' /\ (S i < Routes.draws s)%nat))
    as Hall.
  { intros u k g' Hh.
    destruct (holds_setToken _ _ _ _ _ _ _ _ Hset Hh) as [(-> & -> & ->) | Hold].
    - exists (Routes.draws s). repeat split; auto; try lia; congruence.
    - destruct (Hfresh u k g' Hold) as (i & Hi & Hk & Hid' & Htok').
      exists i. repeat split; auto; lia. }
  split; [|split]; cbn [Routes.db Routes.draws].
  - intros u k g' Hh. destruct (Hall u k g' Hh) as (i & ? & ? & ? & ? & _).
    exists i. auto.
  - intros u1 u2 k g1 g2 H1 H2.
    destruct (Hall _ _ _ H1) as (i1 & _ & Hk1 & _ & _ & Hnew1 & Hold1).
    destruct (Hall _ _ _ H2) as (i2 & _ & Hk2 & _ & _ & Hnew2 & Hold2).
    assert (i1 = i2) as <- by (apply uuid_never_repeats; congruence).
    destruct (decide (i1 = Routes.draws s)) as [E|E].
    + rewrite (Hnew1 E), (Hnew2 E). reflexivity.
    + exact (Huniq _ _ _ _ _ (proj1 (Hold1 E)) (proj1 (Hold2 E))).
  - intros u1 k1 g1 u2 k2 g2 H1 H2 Heq.
    destruct (Hall _ _ _ H1) as (i1 & Hb1 & _ & _ & Ht1 & _ & Hold1).
    destruct (Hall _ _ _ H2) as (i2 & Hb2 & _ & Hi2 & _ & _ & Hold2).
    assert (S i1 = i2) as Hi
      by (apply uuid_never_repeats; rewrite <- Ht1, <- Hi2; exact Heq).
    destruct (decide (i1 = Routes.draws s)) as [E1|E1]; [lia|].
    destruct (decide (i2 = Routes.draws s)) as [E2|E2].
    + destruct (Hold1 E1) as [_ Hlt]. lia.
    + exact (Hnot _ _ _ _ _ _ (proj1 (Hold1 E1)) (proj1 (Hold2 E2)) Heq).
Qed.

Lemma Inv_init : Inv uuid Routes.init.
Proof.
  assert (forall u k g, ~ holds (Routes.db Routes.init) u k g) as Hnone.
  { intros u k g (p & m & Hp & _). cbn in Hp. rewrite lookup_empty in Hp.
    discriminate. }
  split; [|split].
  - intros u k g H. destruct (Hnone _ _ _ H).
  - intros u1 u2 k g1 g2 H. destruct (Hnone _ _ _ H).
  - intros u1 k1 g1 u2 k2 g2 H. destruct (Hnone _ _ _ H).
Qed.

Lemma Inv_same_tokens s s' :
  Inv uuid s ->
  (Routes.draws s <= Routes.draws s')%nat ->
  Db.users (Routes.db s') = Db.users (Routes.db s) ->
  Inv uuid s'.
Proof.
  intros HI Hd Hu. apply (Inv_frame uuid s s' HI Hd).
  intros u k g' (p & m & Hp & Hm & Hk). rewrite Hu in Hp.
  exists g'. split; [exists p, m; auto | split; reflexivity].
Qed.

Lemma Inv_handle Date_parse bucketName s now r :
  Inv uuid s -> Inv uuid (Routes.handle uuid Date_parse bucketName s now r).
Proof.
  intros HI. destruct r as [uid name email | userId file response
                            | userId allowedReports | userId tokenId];
    cbn [Routes.handle].
  - apply (Inv_frame uuid s _ HI).
    + unfold Routes.signUp. destruct (Db.users (Routes.db s) !! uid); cbn; lia.
    + intros u k g' Hh. exists g'.
      split; [eapply holds_signUp; exact Hh | split; reflexivity].
  - unfold Routes.uploadReport.
    destruct file as [[originalname mimetype]|]; [|exact HI].
    destruct (Routes.truthy userId) as [uid|]; [|exact HI].
    cbn [Routes.uuidv4 Routes.db Routes.draws].
    destruct (GeminiService.extractMedicalData Date_parse mimetype response);
      cbn [snd]; apply (Inv_same_tokens s _ HI); cbn; try lia; reflexivity.
  - unfold Routes.createDoctorAccessToken.
    destruct (Routes.truthy userId) as [uid|]; [|exact HI].
    destruct allowedReports as [[|i ids]|]; try exact HI.
    destruct (negb _); [exact HI|].
    cbn [Routes.uuidv4 Routes.db Routes.draws].
    destruct (Db.setToken _ _ _ _) as [d'|] eqn:Hset; cbn [snd].
    + eapply Inv_setToken; [exact HI | | | exact Hset]; reflexivity.
    + apply (Inv_same_tokens s _ HI); cbn; try lia; reflexivity.
  - unfold Routes.revokeDoctorAccessToken.
    destruct (Routes.truthy userId) as [uid|]; [|exact HI].
    destruct (Routes.truthy tokenId) as [tid|]; [|exact HI].
    destruct (Db.users (Routes.db s) !! uid) as [userProfile|]; [|exact HI].
    destruct (negb _); [exact HI|].
    destruct (Db.clearActive (Routes.db s) uid tid) as [message|d'] eqn:Hclr;
      [exact HI|].
    cbn [snd]. apply (Inv_frame uuid s _ HI); [cbn; lia|].
    intros u k g' Hh. exact (holds_clearActive _ _ _ _ _ _ _ Hclr Hh).
Qed.

Lemma Inv_reachable Date_parse bucketName s :
  Routes.reachable uuid Date_parse bucketName s -> Inv uuid s.
Proof.
  induction 1 as [|s now r _ IH]; [apply Inv_init | apply Inv_handle, IH].
Qed.

End FreshUuids.

(** A successful issuance: the grant's [id] is the value of the next
    [uuidv4] call and its [token] the value of the one after; the tokens
    already stored are not looked at. *)
Lemma create_issues uuid s now uid ids p :
  uid <> "" -> ids <> [] ->
  length (Db.reportsInFor (Routes.db s) ids uid) = length ids ->
  Db.users (Routes.db s) !! uid = Some p ->
  exists s',
    Routes.createDoctorAccessToken uuid s now (Some uid) (Some ids)
    = (Routes.send 201
         (Routes.TokenCreated "Doctor access token created."
            (DoctorAccessToken.mk (uuid (Routes.draws s)) uid
               (uuid (S (Routes.draws s))) (now + 24 * 60 * 60 * 1000)
               true now ids)), s')
    /\ Routes.draws s' = S (S (Routes.draws s))
    /\ holds (Routes.db s') uid (uuid (Routes.draws s))
         (DoctorAccessToken.mk (uuid (Routes.draws s)) uid
            (uuid (S (Routes.draws s))) (now + 24 * 60 * 60 * 1000)
            true now ids).
Proof.
  intros Huid Hids Hlen Hp.
  destruct uid as [|c uid']; [congruence|]. destruct ids as [|i ids']; [congruence|].
  unfold Routes.createDoctorAccessToken. cbn [Routes.truthy].
  apply Nat.eqb_eq in Hlen. rewrite Hlen. cbn [negb Routes.uuidv4 Routes.db Routes.draws].
  unfold Db.setToken. rewrite Hp. cbn [mbind option_bind].
  eexists. split; [reflexivity|]. split; [reflexivity|].
  eexists _, _. cbn [Routes.db Db.users].
  split; [apply lookup_insert_eq|]. split; [reflexivity|]. apply lookup_insert_eq.
Qed.

(** C4, as the claim puts it, fails: the route calls [uuidv4] for the
    token and stores the grant without comparing it with the tokens
    already there.  When the generator returns "tok" a second time, the
    second issuance succeeds and the store holds two grants with the token
    "tok". *)
Lemma C4_colliding_token_is_stored :
  Routes.reachable repeating noParse "bucket" (run repeating (twoIssuances "R"))
  /\ holds (Routes.db (run repeating (twoIssuances "R"))) "pat" "G1"
       (issued repeating "R" 2)
  /\ holds (Routes.db (run repeating (twoIssuances "R"))) "pat" "G2"
       (issued repeating "R" 4)
  /\ DoctorAccessToken.token (issued repeating "R" 2)
     = DoctorAccessToken.token (issued repeating "R" 4)
  /\ issued repeating "R" 2 <> issued repeating "R" 4.
Proof.
  split; [apply reachable_run|].
  split; [apply holds_lookup; vm_compute; reflexivity|].
  split; [apply holds_lookup; vm_compute; reflexivity|].
  split; [reflexivity|]. vm_compute. discriminate.
Qed.

(** C4 (amended): a successful issuance takes the grant's [id] from one
    [uuidv4] call and its [token] from the next, and stores the grant
    without checking the token against the stored ones or drawing again.
    As long as [uuidv4] never returns the same value twice, in every
    reachable state the tokens of all stored grants, revoked and expired
    ones included, are pairwise distinct, and no token equals the [id] of
    a grant. *)
Theorem C4_tokens_distinct_while_uuids_are :
  forall (uuid : nat -> string) (Date_parse : string -> option Z)
         (bucketName : string) (s : Routes.State),
    (forall i j, uuid i = uuid j -> i = j) ->
    Routes.reachable uuid Date_parse bucketName s ->
    (forall u1 k1 g1 u2 k2 g2,
       holds (Routes.db s) u1 k1 g1 -> holds (Routes.db s) u2 k2 g2 ->
       (DoctorAccessToken.token g1 = DoctorAccessToken.token g2 ->
        u1 = u2 /\ k1 = k2 /\ g1 = g2)
       /\ DoctorAccessToken.token g1 <> DoctorAccessToken.id g2)
    /\ (forall now uid ids p,
          uid <> "" -> ids <> [] ->
          length (Db.reportsInFor (Routes.db s) ids uid) = length ids ->
          Db.users (Routes.db s) !! uid = Some p ->
          exists s',
            Routes.createDoctorAccessToken uuid s now (Some uid) (Some ids)
            = (Routes.send 201
                 (Routes.TokenCreated "Doctor access token created."
                    (DoctorAccessToken.mk (uuid (Routes.draws s)) uid
                       (uuid (S (Routes.draws s))) (now + 24 * 60 * 60 * 1000)
                       true now ids)), s')
            /\ Routes.draws s' = S (S (Routes.draws s))
            /\ holds (Routes.db s') uid (uuid (Routes.draws s))
                 (DoctorAccessToken.mk (uuid (Routes.draws s)) uid
                    (uuid (S (Routes.draws s))) (now + 24 * 60 * 60 * 1000)
                    true now ids)).
Proof.
  intros uuid Date_parse bucketName s Hinj Hreach.
  split; [|intros now uid ids p; apply create_issues].
  destruct (Inv_reachable uuid Hinj Date_parse bucketName s Hreach)
    as (Hfresh & Huniq & Hnot).
  intros u1 k1 g1 u2 k2 g2 H1 H2. split; [|exact (Hnot _ _ _ _ _ _ H1 H2)].
  intros Heq.
  destruct (Hfresh _ _ _ H1) as (i1 & _ & Hk1 & _ & Ht1).
  destruct (Hfresh _ _ _ H2) as (i2 & _ & Hk2 & _ & Ht2).
  assert (i1 = i2) as <-.
  { assert (S i1 = S i2) by (apply Hinj; congruence). lia. }
  assert (k1 = k2) as <- by congruence.
  assert (u1 = u2) as <- by exact (Huniq _ _ _ _ _ H1 H2).
  split; [reflexivity|]. split; [reflexivity|].
  exact (holds_functional _ _ _ _ _ H1 H2).
Qed.

Lemma C4_tokens_distinct_while_uuids_are_witness :
  DoctorAccessToken.token (issued tally "u" 2)
  <> DoctorAccessToken.id (issued tally "u" 4).
Proof.
  refine (proj2 (proj1 (C4_tokens_distinct_while_uuids_are tally noParse "bucket"
                          (run tally (twoIssuances "u")) tally_never_repeats
                          (reachable_run tally (twoIssuances "u")))
                   "pat" (tally 2) (issued tally "u" 2)
                   "pat" (tally 4) (issued tally "u" 4) _ _)).
  - apply holds_lookup. vm_compute. reflexivity.
  - apply holds_lookup. vm_compute. reflexivity.
Defined.

(** * Further properties *)

Lemma holds_grantsOf (d : Db.t) (u k : string) (g : DoctorAccessToken.t) :
  holds d u k g <-> (u, k, g) ∈ grantsOf d.
Proof.
  unfold grantsOf. rewrite list_elem_of_bind. split.
  - intros (p & m & Hp & Hm & Hk). exists (u, p). cbn. rewrite Hm.
    split; [|apply elem_of_map_to_list; exact Hp].
    apply list_elem_of_omap. exists (k, TokenEntry.Token g).
    split; [|reflexivity]. apply elem_of_map_to_list. exact Hk.
  - intros ([u' p] & Hin & Hp). cbn in Hin.
    apply elem_of_map_to_list in Hp.
    destruct (UserProfile.doctorAccessTokens p) as [m|] eqn:Hm;
      [|inversion Hin].
    apply list_elem_of_omap in Hin as ([k' [g'|]] & Hk & Hin); cbn in Hin;
      [|discriminate].
    injection Hin as -> -> ->.
    apply elem_of_map_to_list in Hk. exists p, m. auto.
Qed.

(** ** Revoking an access token *)

Lemma deactivate_idempotent (g : DoctorAccessToken.t) :
  Db.deactivate (Db.deactivate g) = Db.deactivate g.
Proof. reflexivity. Qed.

(** What a revocation by the holder of the grant does, step by step. *)
Lemma revoke_ok (s : Routes.State) (uid tid : string) (g : DoctorAccessToken.t) :
  uid <> "" -> tid <> "" -> holds (Routes.db s) uid tid g ->
  exists d',
    Db.clearActive (Routes.db s) uid tid = inr d'
    /\ Routes.revokeDoctorAccessToken s (Some uid) (Some tid)
       = (Routes.send 200 (Routes.Message "Doctor access token revoked."),
          Routes.mkState d' (Routes.draws s))
    /\ Db.reports d' = Db.reports (Routes.db s)
    /\ holds d' uid tid (Db.deactivate g)
    /\ forall u k g', u <> uid \/ k <> tid ->
         (holds d' u k g' <-> holds (Routes.db s) u k g').
Proof.
  intros Huid Htid Hg. pose proof Hg as (p & m & Hp & Hm & Hk).
  assert (exists d', Db.clearActive (Routes.db s) uid tid = inr d') as [d' Hclr].
  { unfold Db.clearActive, Db.refusesKey. rewrite Hp, Hm.
    cbn zeta. cbn [from_option id]. rewrite Hk. eexists. reflexivity. }
  exists d'. split; [exact Hclr|]. split.
  { destruct uid as [|c uid']; [congruence|].
    destruct tid as [|c' tid']; [congruence|].
    unfold Routes.revokeDoctorAccessToken. cbn [Routes.truthy]. rewrite Hp.
    unfold Js.hasTruthy. rewrite Hm, Hk. cbn [negb]. rewrite Hclr. reflexivity. }
  split; [exact (clearActive_reports _ _ _ _ Hclr)|]. split.
  - apply holds_entry. rewrite (clearActive_entry _ _ _ _ _ _ Hclr).
    rewrite decide_True by auto. apply holds_entry in Hg. rewrite Hg. reflexivity.
  - intros u k g' Hne. rewrite !holds_entry, (clearActive_entry _ _ _ _ _ _ Hclr).
    rewrite decide_False by tauto. reflexivity.
Qed.

Lemma deactivateEntry_idempotent (e : option TokenEntry.t) :
  Db.deactivateEntry (Some (Db.deactivateEntry e)) = Db.deactivateEntry e.
Proof. destruct e as [[g|]|]; reflexivity. Qed.

Lemma clearActive_twice (d d' : Db.t) (uid tid : string) :
  Db.clearActive d uid tid = inr d' -> Db.clearActive d' uid tid = inr d'.
Proof.
  intros H. apply clearActive_inr in H as (p & Hp & _ & ->).
  unfold Db.clearActive, Db.refusesKey. cbn [Db.users Db.reports].
  rewrite lookup_insert_eq. cbn zeta.
  cbn [UserProfile.doctorAccessTokens UserProfile.name UserProfile.email
       UserProfile.createdAt from_option id].
  rewrite lookup_insert_eq, deactivateEntry_idempotent, !insert_insert_eq.
  reflexivity.
Qed.

(** X1: revoking is idempotent.  When the caller holds the grant, the
    route answers 200; a second call answers 200 again and leaves the
    state exactly as the first call left it, the grant inactive. *)
Theorem revoke_is_idempotent :
  forall (s : Routes.State) (uid tid : string) (g : DoctorAccessToken.t),
    uid <> "" -> tid <> "" -> holds (Routes.db s) uid tid g ->
    let first := Routes.revokeDoctorAccessToken s (Some uid) (Some tid) in
    let second := Routes.revokeDoctorAccessToken first.2 (Some uid) (Some tid) in
    Routes.status first.1 = 200
    /\ second = (Routes.send 200 (Routes.Message "Doctor access token revoked."),
                 first.2)
    /\ holds (Routes.db first.2) uid tid (Db.deactivate g).
Proof.
  intros s uid tid g Huid Htid Hg first second. subst first second.
  destruct (revoke_ok s uid tid g Huid Htid Hg) as (d' & Hclr & -> & _ & Hg' & _).
  cbn [fst snd]. split; [reflexivity|]. split; [|exact Hg'].
  destruct (revoke_ok (Routes.mkState d' (Routes.draws s)) uid tid
              (Db.deactivate g) Huid Htid Hg') as (d'' & Hclr' & -> & _).
  cbn [Routes.db] in Hclr'. rewrite (clearActive_twice _ _ _ _ Hclr) in Hclr'.
  injection Hclr' as <-. reflexivity.
Qed.

(** The live token of the sample patient, revoked twice. *)
Lemma revoke_is_idempotent_witness :
  Routes.revokeDoctorAccessToken
    (Routes.revokeDoctorAccessToken (Routes.mkState clinic 0) (Some "pat")
       (Some "G1")).2 (Some "pat") (Some "G1")
  = (Routes.send 200 (Routes.Message "Doctor access token revoked."),
     (Routes.revokeDoctorAccessToken (Routes.mkState clinic 0) (Some "pat")
        (Some "G1")).2).
Proof.
  refine (proj1 (proj2 (revoke_is_idempotent (Routes.mkState clinic 0) "pat" "G1"
                          (sampleToken "G1" "pat" "tok-live" 1000 true) _ _ _))).
  - discriminate.
  - discriminate.
  - apply holds_lookup. vm_compute. reflexivity.
Defined.

(** What a revocation does when the profile has a map of tokens with
    nothing under the id, but the id names a property that every object
    inherits and Firestore does not reserve. *)
Lemma revoke_inherited (s : Routes.State) (uid tid : string) (p : UserProfile.t)
    (m : gmap string TokenEntry.t) :
  uid <> "" -> tid <> "" ->
  Db.users (Routes.db s) !! uid = Some p ->
  UserProfile.doctorAccessTokens p = Some m -> m !! tid = None ->
  tid ∈ Js.objectPrototypeKeys -> Db.reservedFieldName tid = false ->
  exists d',
    Db.clearActive (Routes.db s) uid tid = inr d'
    /\ Routes.revokeDoctorAccessToken s (Some uid) (Some tid)
       = (Routes.send 200 (Routes.Message "Doctor access token revoked."),
          Routes.mkState d' (Routes.draws s)).
Proof.
  intros Huid Htid Hp Hm Hk Hin Hres.
  assert (exists d', Db.clearActive (Routes.db s) uid tid = inr d') as [d' Hclr].
  { unfold Db.clearActive, Db.refusesKey. rewrite Hp. cbn zeta. rewrite Hm.
    cbn [from_option id]. rewrite Hk, Hres. eexists. reflexivity. }
  exists d'. split; [exact Hclr|].
  destruct uid as [|c uid']; [congruence|].
  destruct tid as [|c' tid']; [congruence|].
  unfold Routes.revokeDoctorAccessToken. cbn [Routes.truthy]. rewrite Hp.
  unfold Js.hasTruthy. rewrite Hm, Hk, bool_decide_eq_true_2 by exact Hin.
  cbn [negb]. rewrite Hclr. reflexivity.
Qed.

(** X2: revoking what the caller does not hold.  When the caller's
    profile has nothing under the given id, the route answers 404 and
    leaves the state as it is, unless the id is the name of a property
    that every object inherits, such as "constructor": the guard
    [!userProfile.doctorAccessTokens?.[tokenId]] then finds the inherited
    value and lets the request through.  For such a name that Firestore
    does not reserve, the answer is 200 and the map gets the entry
    [{ isActive: false }] under the id, every token and every report
    staying as it was. *)
Theorem revoke_of_id_not_held :
  forall (s : Routes.State) (uid tid : string),
    uid <> "" -> tid <> "" ->
    entryOf (Routes.db s) uid tid = None ->
    let result := Routes.revokeDoctorAccessToken s (Some uid) (Some tid) in
    let hasMap :=
      exists p m, Db.users (Routes.db s) !! uid = Some p
                  /\ UserProfile.doctorAccessTokens p = Some m in
    (tid ∉ Js.objectPrototypeKeys \/ ~ hasMap ->
     Routes.status result.1 = 404 /\ result.2 = s)
    /\ (tid ∈ Js.objectPrototypeKeys -> hasMap ->
        Db.reservedFieldName tid = false ->
        result.1 = Routes.send 200 (Routes.Message "Doctor access token revoked.")
        /\ holdsOnlyInactive (Routes.db result.2) uid tid
        /\ (forall u k g,
              holds (Routes.db result.2) u k g <-> holds (Routes.db s) u k g)
        /\ (forall u k, holdsOnlyInactive (Routes.db s) u k ->
              holdsOnlyInactive (Routes.db result.2) u k)
        /\ Db.reports (Routes.db result.2) = Db.reports (Routes.db s)
        /\ Routes.draws result.2 = Routes.draws s).
Proof.
  intros s uid tid Huid Htid Hnone result hasMap. subst result hasMap.
  split.
  - intros Hcase.
    destruct uid as [|c uid']; [congruence|].
    destruct tid as [|c' tid']; [congruence|].
    unfold Routes.revokeDoctorAccessToken. cbn [Routes.truthy].
    destruct (Db.users (Routes.db s) !! String c uid') as [p|] eqn:Hp;
      [|split; reflexivity].
    unfold Js.hasTruthy.
    destruct (UserProfile.doctorAccessTokens p) as [m|] eqn:Hm;
      [|split; reflexivity].
    unfold entryOf in Hnone. rewrite Hp in Hnone. cbn in Hnone.
    rewrite Hm in Hnone. cbn in Hnone. rewrite Hnone.
    destruct Hcase as [Hnot | Hno]; [|destruct Hno; eauto].
    rewrite bool_decide_eq_false_2 by exact Hnot. split; reflexivity.
  - intros Hin (p & m & Hp & Hm) Hres.
    assert (m !! tid = None) as Hk.
    { unfold entryOf in Hnone. rewrite Hp in Hnone. cbn in Hnone.
      rewrite Hm in Hnone. exact Hnone. }
    destruct (revoke_inherited s uid tid p m Huid Htid Hp Hm Hk Hin Hres)
      as (d' & Hclr & ->).
    cbn [fst snd Routes.db Routes.draws].
    split; [reflexivity|]. split; [|split; [|split; [|split]]].
    + apply holdsOnlyInactive_entry.
      rewrite (clearActive_entry _ _ _ _ _ _ Hclr), decide_True by auto.
      rewrite Hnone. reflexivity.
    + intros u k g. rewrite !holds_entry, (clearActive_entry _ _ _ _ _ _ Hclr).
      destruct (decide (u = uid /\ k = tid)) as [[-> ->]|Hne]; [|reflexivity].
      rewrite Hnone. cbn. split; discriminate.
    + intros u k. rewrite !holdsOnlyInactive_entry,
        (clearActive_entry _ _ _ _ _ _ Hclr).
      destruct (decide (u = uid /\ k = tid)) as [[-> ->]|Hne]; [|auto].
      rewrite Hnone. discriminate.
    + exact (clearActive_reports _ _ _ _ Hclr).
    + reflexivity.
Qed.

(** The second patient tries to revoke the first patient's live token;
    the first patient asks for the revocation of "constructor". *)
Lemma revoke_of_id_not_held_witness :
  (Routes.status
     (Routes.revokeDoctorAccessToken (Routes.mkState clinic2 0) (Some "zoe")
        (Some "G1")).1 = 404
   /\ (Routes.revokeDoctorAccessToken (Routes.mkState clinic2 0) (Some "zoe")
         (Some "G1")).2 = Routes.mkState clinic2 0)
  /\ (Routes.revokeDoctorAccessToken (Routes.mkState clinic 0) (Some "pat")
        (Some "constructor")).1
     = Routes.send 200 (Routes.Message "Doctor access token revoked.")
  /\ holdsOnlyInactive
       (Routes.db (Routes.revokeDoctorAccessToken (Routes.mkState clinic 0)
                     (Some "pat") (Some "constructor")).2)
       "pat" "constructor".
Proof.
  split.
  - refine (proj1 (revoke_of_id_not_held (Routes.mkState clinic2 0)
                     "zoe" "G1" _ _ _) _).
    + discriminate.
    + discriminate.
    + vm_compute. reflexivity.
    + left. intros Hin. apply list_elem_of_In in Hin. vm_compute in Hin.
      repeat (destruct Hin as [Hin|Hin]; [discriminate Hin|]). destruct Hin.
  - pose proof (proj2 (revoke_of_id_not_held
                         (Routes.mkState clinic 0) "pat" "constructor"
                         ltac:(discriminate) ltac:(discriminate)
                         ltac:(vm_compute; reflexivity))) as H.
    cbv zeta in H. destruct H as (H1 & H2 & _).
    + left.
    + eexists _, _. split; vm_compute; reflexivity.
    + reflexivity.
    + split; [exact H1 | exact H2].
Defined.

(** X3: a successful revocation changes one flag and nothing else.  The
    revoked grant keeps its id, token, scope and instants and becomes
    inactive; every other grant, every report and the count of [uuidv4]
    calls are as before. *)
Theorem revoke_changes_only_the_flag :
  forall (s : Routes.State) (uid tid : string) (g : DoctorAccessToken.t),
    uid <> "" -> tid <> "" -> holds (Routes.db s) uid tid g ->
    let s' := (Routes.revokeDoctorAccessToken s (Some uid) (Some tid)).2 in
    holds (Routes.db s') uid tid
      (DoctorAccessToken.mk (DoctorAccessToken.id g) (DoctorAccessToken.userId g)
         (DoctorAccessToken.token g) (DoctorAccessToken.expiresAt g) false
         (DoctorAccessToken.createdAt g) (DoctorAccessToken.allowedReports g))
    /\ (forall u k g', u <> uid \/ k <> tid ->
          (holds (Routes.db s') u k g' <-> holds (Routes.db s) u k g'))
    /\ Db.reports (Routes.db s') = Db.reports (Routes.db s)
    /\ Routes.draws s' = Routes.draws s.
Proof.
  intros s uid tid g Huid Htid Hg s'. subst s'.
  destruct (revoke_ok s uid tid g Huid Htid Hg) as (d' & _ & -> & Hr & Hg' & Hframe).
  cbn [snd Routes.db Routes.draws]. auto.
Qed.

Lemma revoke_changes_only_the_flag_witness :
  holds (Routes.db (Routes.revokeDoctorAccessToken (Routes.mkState clinic 0)
                      (Some "pat") (Some "G1")).2) "pat" "G1"
    (sampleToken "G1" "pat" "tok-live" 1000 false).
Proof.
  refine (proj1 (revoke_changes_only_the_flag (Routes.mkState clinic 0) "pat" "G1"
                   (sampleToken "G1" "pat" "tok-live" 1000 true) _ _ _)).
  - discriminate.
  - discriminate.
  - apply holds_lookup. vm_compute. reflexivity.
Defined.

(** X4: a revoked token opens nothing.  Once the holder has revoked a
    grant whose token no other grant carries, the timeline route answers
    403 to that token at every instant, also before the grant's expiry. *)
Theorem revoked_token_is_refused :
  forall (s : Routes.State) (uid tid : string) (g : DoctorAccessToken.t),
    uid <> "" -> tid <> "" -> holds (Routes.db s) uid tid g ->
    DoctorAccessToken.token g <> "" ->
    (forall u k g', holds (Routes.db s) u k g' ->
       DoctorAccessToken.token g' = DoctorAccessToken.token g ->
       u = uid /\ k = tid) ->
    forall now : Z,
      Routes.timeline
        (Routes.db (Routes.revokeDoctorAccessToken s (Some uid) (Some tid)).2)
        now (DoctorAccessToken.token g)
      = Routes.send 403
          (Routes.Error "Doctor access token is inactive or expired." None).
Proof.
  intros s uid tid g Huid Htid Hg Htok Huniq now.
  destruct (revoke_ok s uid tid g Huid Htid Hg) as (d' & _ & -> & _ & Hg' & Hframe).
  cbn [snd Routes.db].
  destruct (Routes.findToken d' (DoctorAccessToken.token g)) as [[g' u']|] eqn:Hfind.
  - destruct (findToken_holds _ _ _ _ Hfind) as (k' & Hh & Ht).
    assert (u' = uid /\ k' = tid) as [-> ->].
    { destruct (decide (u' = uid)) as [->|Hu];
        [destruct (decide (k' = tid)) as [->|Hk]; [auto|]|].
      - apply Hframe in Hh; [|auto]. apply (Huniq _ _ _ Hh Ht).
      - apply Hframe in Hh; [|auto]. apply (Huniq _ _ _ Hh Ht). }
    assert (g' = Db.deactivate g) as -> by exact (holds_functional _ _ _ _ _ Hh Hg').
    apply (timeline_dead d' now _ uid _ Htok Huid Hfind). left. reflexivity.
  - exfalso. exact (proj1 (findToken_None _ _) Hfind _ _ _ Hg' eq_refl).
Qed.

Lemma revoked_token_is_refused_witness :
  Routes.timeline
    (Routes.db (Routes.revokeDoctorAccessToken (Routes.mkState clinic 0)
                  (Some "pat") (Some "G1")).2) 500 "tok-live"
  = Routes.send 403
      (Routes.Error "Doctor access token is inactive or expired." None).
Proof.
  refine (revoked_token_is_refused (Routes.mkState clinic 0) "pat" "G1"
            (sampleToken "G1" "pat" "tok-live" 1000 true) _ _ _ _ _ 500).
  - discriminate.
  - discriminate.
  - apply holds_lookup. vm_compute. reflexivity.
  - discriminate.
  - intros u k g' Hh Ht. apply holds_grantsOf, list_elem_of_In in Hh.
    vm_compute in Hh.
    repeat (destruct Hh as [[= <- <- <-]|Hh]; [split; [reflexivity|]; try reflexivity; try discriminate Ht|]).
    destruct Hh.
Defined.

(** ** Requests that fail *)

(** X5: no partial writes.  A token request that is not answered 201 and
    an upload that is not answered 201 leave both collections as they
    were; a revocation that is not answered 200 leaves the whole state as
    it was. *)
Theorem failed_requests_write_nothing :
  forall (uuid : nat -> string) (Date_parse : string -> option Z)
         (bucketName : string) (s : Routes.State) (now : Z),
    (forall userId allowedReports,
       Routes.status
         (Routes.createDoctorAccessToken uuid s now userId allowedReports).1 <> 201 ->
       Routes.db (Routes.createDoctorAccessToken uuid s now userId allowedReports).2
       = Routes.db s)
    /\ (forall userId tokenId,
          Routes.status (Routes.revokeDoctorAccessToken s userId tokenId).1 <> 200 ->
          (Routes.revokeDoctorAccessToken s userId tokenId).2 = s)
    /\ (forall userId file response,
          Routes.status
            (Routes.uploadReport uuid Date_parse bucketName s now userId file
               response).1 <> 201 ->
          Routes.db
            (Routes.uploadReport uuid Date_parse bucketName s now userId file
               response).2
          = Routes.db s).
Proof.
  intros uuid Date_parse bucketName s now. split; [|split].
  - intros userId allowedReports. unfold Routes.createDoctorAccessToken.
    destruct (Routes.truthy userId) as [uid|]; [|reflexivity].
    destruct allowedReports as [[|i ids]|]; try reflexivity.
    destruct (negb _); [reflexivity|].
    cbn [Routes.uuidv4 Routes.db Routes.draws].
    destruct (Db.setToken _ _ _ _); cbn; [congruence | reflexivity].
  - intros userId tokenId. unfold Routes.revokeDoctorAccessToken.
    destruct (Routes.truthy userId) as [uid|]; [|reflexivity].
    destruct (Routes.truthy tokenId) as [tid|]; [|reflexivity].
    destruct (Db.users (Routes.db s) !! uid) as [p|]; [|reflexivity].
    destruct (negb _); [reflexivity|].
    destruct (Db.clearActive _ _ _); cbn; [reflexivity | congruence].
  - intros userId file response. unfold Routes.uploadReport.
    destruct file as [[originalname mimetype]|]; [|reflexivity].
    destruct (Routes.truthy userId) as [uid|]; [|reflexivity].
    cbn [Routes.uuidv4 Routes.db Routes.draws].
    destruct (GeminiService.extractMedicalData _ _ _); cbn;
      [reflexivity | congruence].
Qed.

(** An upload of a text file: the MIME type is not supported. *)
Lemma failed_requests_write_nothing_witness :
  Routes.db
    (Routes.uploadReport tally noParse "bucket" (Routes.mkState clinic 0) 7
       (Some "pat") (Some ("notes.txt", "text/plain")) (inr springPayload)).2
  = clinic.
Proof.
  refine (proj2 (proj2 (failed_requests_write_nothing tally noParse "bucket"
                          (Routes.mkState clinic 0) 7))
            (Some "pat") (Some ("notes.txt", "text/plain")) (inr springPayload) _).
  vm_compute. discriminate.
Defined.

(** ** The list of active tokens *)

#[local] Instance newerFirst_total : Total Routes.newerFirst.
Proof. intros a b. unfold Routes.newerFirst. lia. Qed.

#[local] Instance newerFirst_trans : Transitive Routes.newerFirst.
Proof. intros a b c. unfold Routes.newerFirst. lia. Qed.

(** X6: the tokens route lists exactly the caller's tokens whose
    [isActive] flag is set, newest first.  Expiry plays no part: an
    expired token that was not revoked is listed, a revoked one never. *)
Theorem active_tokens_are_listed_newest_first :
  forall (d : Db.t) (uid : string) (p : UserProfile.t),
    uid <> "" -> Db.users d !! uid = Some p ->
    exists l : list DoctorAccessToken.t,
      Routes.doctorAccessTokens d (Some uid) = Routes.send 200 (Routes.Tokens l)
      /\ (forall g, g ∈ l <->
            DoctorAccessToken.isActive g = true /\ exists k, holds d uid k g)
      /\ StronglySorted
           (fun a b => DoctorAccessToken.createdAt b <= DoctorAccessToken.createdAt a)
           l.
Proof.
  intros d [|c uid'] p Huid Hp; [congruence|].
  unfold Routes.doctorAccessTokens. cbn [Routes.truthy]. rewrite Hp.
  eexists. split; [reflexivity|]. split.
  - intros g. rewrite merge_sort_Permutation. unfold Routes.activeTokens.
    rewrite list_elem_of_omap. split.
    + intros ([g'|] & Hin & Hsel); [|discriminate]. injection Hsel as <-.
      apply list_elem_of_In, filter_In in Hin as [Hin Hact].
      apply list_elem_of_In in Hin. split; [exact Hact|].
      destruct (UserProfile.doctorAccessTokens p) as [m|] eqn:Hm; [|inversion Hin].
      apply list_elem_of_fmap in Hin as ([k e] & He & Hk). cbn in He. subst e.
      apply elem_of_map_to_list in Hk. exists k, p, m. auto.
    + intros [Hact (k & p' & m & Hp' & Hm & Hk)].
      exists (TokenEntry.Token g). split; [|reflexivity].
      apply list_elem_of_In, filter_In. split; [|exact Hact].
      apply list_elem_of_In.
      assert (p' = p) as -> by congruence. rewrite Hm.
      apply list_elem_of_fmap. exists (k, TokenEntry.Token g).
      split; [reflexivity|]. apply elem_of_map_to_list. exact Hk.
  - apply (StronglySorted_merge_sort Routes.newerFirst).
Qed.

(** The sample patient: the live and the expired token are listed, the
    revoked one is not. *)
Lemma active_tokens_are_listed_newest_first_witness :
  exists l : list DoctorAccessToken.t,
    Routes.doctorAccessTokens clinic (Some "pat") = Routes.send 200 (Routes.Tokens l)
    /\ sampleToken "G3" "pat" "tok-expired" 10 true ∈ l
    /\ sampleToken "G2" "pat" "tok-revoked" 1000 false ∉ l.
Proof.
  destruct (active_tokens_are_listed_newest_first clinic "pat"
              (sampleProfile
                 [("G1", sampleToken "G1" "pat" "tok-live" 1000 true);
                  ("G2", sampleToken "G2" "pat" "tok-revoked" 1000 false);
                  ("G3", sampleToken "G3" "pat" "tok-expired" 10 true)]))
    as (l & Hl & Hiff & _).
  - discriminate.
  - vm_compute. reflexivity.
  - exists l. split; [exact Hl|]. split.
    + apply Hiff. split; [reflexivity|]. exists "G3".
      apply holds_lookup. vm_compute. reflexivity.
    + intros Hin. apply Hiff in Hin as [Hact _]. discriminate.
Defined.

(** ** From issuing a token to reading with it *)

Lemma create_ok uuid s now uid ids p :
  uid <> "" -> ids <> [] ->
  length (Db.reportsInFor (Routes.db s) ids uid) = length ids ->
  Db.users (Routes.db s) !! uid = Some p ->
  let g := DoctorAccessToken.mk (uuid (Routes.draws s)) uid
             (uuid (S (Routes.draws s))) (now + 24 * 60 * 60 * 1000) true now ids in
  exists d',
    Db.setToken (Routes.db s) uid (uuid (Routes.draws s)) g = Some d'
    /\ Routes.createDoctorAccessToken uuid s now (Some uid) (Some ids)
       = (Routes.send 201 (Routes.TokenCreated "Doctor access token created." g),
          Routes.mkState d' (S (S (Routes.draws s))))
    /\ Db.reports d' = Db.reports (Routes.db s)
    /\ holds d' uid (uuid (Routes.draws s)) g.
Proof.
  intros Huid Hids Hlen Hp g. subst g.
  destruct uid as [|c uid']; [congruence|]. destruct ids as [|i ids']; [congruence|].
  unfold Routes.createDoctorAccessToken. cbn [Routes.truthy].
  apply Nat.eqb_eq in Hlen. rewrite Hlen.
  cbn [negb Routes.uuidv4 Routes.db Routes.draws].
  unfold Db.setToken. rewrite Hp. cbn [mbind option_bind].
  eexists. split; [reflexivity|]. split; [reflexivity|]. split; [reflexivity|].
  eexists _, _. cbn [Db.users].
  split; [apply lookup_insert_eq|]. split; [reflexivity|]. apply lookup_insert_eq.
Qed.

(** X7: a token opens its scope for twenty-four hours.  After a successful
    issuance whose token value is new to the store, the timeline route
    answers that token with exactly the requested reports, as many as ids
    were requested, up to and including [now + 24 h], and with 403 after. *)
Theorem issued_token_opens_its_scope :
  forall (uuid : nat -> string) (s : Routes.State) (now : Z) (uid : string)
         (ids : list string) (p : UserProfile.t),
    uid <> "" -> ids <> [] ->
    length (Db.reportsInFor (Routes.db s) ids uid) = length ids ->
    Db.users (Routes.db s) !! uid = Some p ->
    uuid (S (Routes.draws s)) <> "" ->
    (forall u k g, holds (Routes.db s) u k g ->
       DoctorAccessToken.token g <> uuid (S (Routes.draws s))) ->
    let s' := (Routes.createDoctorAccessToken uuid s now (Some uid) (Some ids)).2 in
    forall now' : Z,
      (now' <= now + 86400000 ->
       exists rs : list Report.t,
         Routes.timeline (Routes.db s') now' (uuid (S (Routes.draws s)))
         = Routes.send 200 (Routes.Reports rs)
         /\ length rs = length ids
         /\ forall r, r ∈ rs <->
              exists k, Db.reports (Routes.db s) !! k = Some r
                        /\ Report.id r ∈ ids /\ Report.userId r = uid)
      /\ (now + 86400000 < now' ->
          Routes.timeline (Routes.db s') now' (uuid (S (Routes.draws s)))
          = Routes.send 403
              (Routes.Error "Doctor access token is inactive or expired." None)).
Proof.
  intros uuid s now uid ids p Huid Hids Hlen Hp Htok Hnew s' now'. subst s'.
  destruct (create_ok uuid s now uid ids p Huid Hids Hlen Hp)
    as (d' & Hset & -> & Hrep & Hg).
  cbn [snd Routes.db].
  set (g := DoctorAccessToken.mk _ _ _ _ _ _ _) in *.
  assert (Routes.findToken d' (uuid (S (Routes.draws s))) = Some (g, uid)) as Hfind.
  { destruct (Routes.findToken d' (uuid (S (Routes.draws s)))) as [[g' u']|] eqn:Hfind.
    - destruct (findToken_holds _ _ _ _ Hfind) as (k' & Hh & Ht).
      destruct (holds_setToken _ _ _ _ _ _ _ _ Hset Hh) as [(-> & -> & ->) | Hold];
        [reflexivity|].
      destruct (Hnew _ _ _ Hold Ht).
    - exfalso. exact (proj1 (findToken_None _ _) Hfind _ _ _ Hg eq_refl). }
  destruct uid as [|c uid']; [congruence|].
  destruct (uuid (S (Routes.draws s))) as [|c' tok'] eqn:Etok; [congruence|].
  rewrite (timeline_found _ now' _ _ _ _ _ Hfind). cbn [g DoctorAccessToken.isActive
    DoctorAccessToken.expiresAt DoctorAccessToken.allowedReports negb orb].
  split.
  - intros Hlive.
    replace (now + 24 * 60 * 60 * 1000 <? now') with false
      by (symmetry; apply Z.ltb_ge; lia).
    eexists. split; [reflexivity|]. split.
    + rewrite length_fmap. unfold Db.orderByTimestampDesc.
      rewrite merge_sort_Permutation. unfold Db.reportsInFor in *.
      rewrite Hrep. exact Hlen.
    + intros r. rewrite elem_of_scoped_reports, Hrep. reflexivity.
  - intros Hdead.
    replace (now + 24 * 60 * 60 * 1000 <? now') with true
      by (symmetry; apply Z.ltb_lt; lia).
    reflexivity.
Qed.

(** The patient of the sample run issues one more token at time 100 and
    the doctor reads with it a day later, to the millisecond. *)
Lemma issued_token_opens_its_scope_witness :
  exists rs : list Report.t,
    Routes.timeline
      (Routes.db
         (Routes.createDoctorAccessToken tally (run tally (twoIssuances "u")) 100
            (Some "pat") (Some ["u"])).2)
      86400100 (tally 7)
    = Routes.send 200 (Routes.Reports rs)
    /\ length rs = 1%nat.
Proof.
  assert (exists p, Db.users (Routes.db (run tally (twoIssuances "u"))) !! "pat"
                    = Some p) as [p Hp] by (vm_compute; eauto).
  assert (forall u k g, holds (Routes.db (run tally (twoIssuances "u"))) u k g ->
            DoctorAccessToken.token g <> tally 7) as Hnew.
  { intros u k g Hh Ht. apply holds_grantsOf, list_elem_of_In in Hh.
    vm_compute in Hh.
    repeat (destruct Hh as [[= <- <- <-]|Hh]; [discriminate Ht|]).
    destruct Hh. }
  pose proof (issued_token_opens_its_scope tally (run tally (twoIssuances "u")) 100
                "pat" ["u"] p ltac:(discriminate) ltac:(discriminate) eq_refl Hp
                ltac:(discriminate) Hnew 86400100) as [Hlive _].
  destruct (Hlive ltac:(lia)) as (rs & Hrs & Hlen & _).
  exists rs. split; [exact Hrs | exact Hlen].
Defined.

(** X8: the timeline route answers 404 exactly when no grant in the store
    carries the presented token. *)
Theorem unknown_token_iff_404 :
  forall (d : Db.t) (now : Z) (token : string),
    token <> "" -> Db.users d !! "" = None ->
    (Routes.timeline d now token
     = Routes.send 404 (Routes.Error "Invalid or expired doctor access token." None)
     <-> forall u k g, holds d u k g -> DoctorAccessToken.token g <> token).
Proof.
  intros d now [|c tok'] Htok Hempty; [congruence|].
  rewrite <- findToken_None. split.
  - intros Hresp.
    destruct (Routes.findToken d (String c tok')) as [[g u]|] eqn:Hfind;
      [|reflexivity].
    destruct (findToken_holds _ _ _ _ Hfind) as (k & (p & m & Hp & _) & _).
    destruct u as [|c' u']; [congruence|].
    rewrite (timeline_found _ now _ _ _ _ _ Hfind) in Hresp.
    destruct (negb _ || _); discriminate.
  - apply timeline_unknown.
Qed.

Lemma unknown_token_iff_404_witness :
  Routes.timeline clinic 5 "tok-none"
  = Routes.send 404 (Routes.Error "Invalid or expired doctor access token." None).
Proof.
  apply (unknown_token_iff_404 clinic 5 "tok-none").
  - discriminate.
  - vm_compute. reflexivity.
  - intros u k g Hh Ht. apply holds_grantsOf, list_elem_of_In in Hh.
    vm_compute in Hh.
    repeat (destruct Hh as [[= <- <- <-]|Hh]; [discriminate Ht|]).
    destruct Hh.
Defined.

(** X9: what a timeline answer looks like.  When the reports are stored
    under their ids, the list sent to the doctor is ordered by report date,
    latest first, holds no report twice and is never longer than the
    grant's scope. *)
Theorem timeline_answer_is_ordered :
  forall (d : Db.t) (now : Z) (token uid : string) (g : DoctorAccessToken.t),
    keyed d -> token <> "" -> uid <> "" ->
    Routes.findToken d token = Some (g, uid) ->
    DoctorAccessToken.isActive g = true ->
    now <= DoctorAccessToken.expiresAt g ->
    exists rs : list Report.t,
      Routes.timeline d now token = Routes.send 200 (Routes.Reports rs)
      /\ StronglySorted
           (fun r1 r2 =>
              String.leb (Report.timestamp r2) (Report.timestamp r1) = true) rs
      /\ NoDup rs
      /\ (length rs <= length (DoctorAccessToken.allowedReports g))%nat.
Proof.
  intros d now [|c tok'] [|c' uid'] g Hkeyed Htok Huid Hfind Hact Hexp;
    try congruence.
  rewrite (timeline_found _ now _ _ _ _ _ Hfind), Hact.
  replace (DoctorAccessToken.expiresAt g <? now) with false
    by (symmetry; apply Z.ltb_ge; lia).
  eexists. split; [reflexivity|].
  set (ids := DoctorAccessToken.allowedReports g).
  set (l := Db.reportsInFor d ids (String c' uid')).
  split; [|split].
  - apply (StronglySorted_fmap snd Db.before);
      [|apply (StronglySorted_merge_sort Db.before)].
    intros x y Hxy. apply before_spec in Hxy as [H _]. exact H.
  - apply NoDup_fmap_2_strong.
    + intros [k1 r1] [k2 r2] H1 H2 Heq. cbn in Heq. subst r2.
      unfold Db.orderByTimestampDesc in H1, H2.
      rewrite merge_sort_Permutation in H1, H2.
      apply elem_of_reportsInFor in H1 as [H1 _], H2 as [H2 _].
      pose proof (Hkeyed _ _ H1) as E1. pose proof (Hkeyed _ _ H2) as E2.
      cbn in E1, E2. congruence.
    + unfold Db.orderByTimestampDesc. rewrite merge_sort_Permutation.
      apply NoDup_filter, NoDup_map_to_list.
  - rewrite length_fmap. unfold Db.orderByTimestampDesc.
    rewrite merge_sort_Permutation, <- (length_fmap fst).
    apply submseteq_length, NoDup_submseteq; [apply NoDup_reportsInFor_keys|].
    intros k Hk. apply (reportsInFor_keys_owned _ ids _ k Hkeyed Hk).
Qed.

Lemma timeline_answer_is_ordered_witness :
  exists rs : list Report.t,
    Routes.timeline clinic 20 "tok-live" = Routes.send 200 (Routes.Reports rs)
    /\ StronglySorted
         (fun r1 r2 =>
            String.leb (Report.timestamp r2) (Report.timestamp r1) = true) rs
    /\ NoDup rs
    /\ (length rs <= 1)%nat.
Proof.
  apply (timeline_answer_is_ordered clinic 20 "tok-live" "pat"
           (sampleToken "G1" "pat" "tok-live" 1000 true)).
  - unfold keyed. apply map_Forall_lookup. intros k r Hk.
    apply elem_of_map_to_list, list_elem_of_In in Hk. vm_compute in Hk.
    repeat (destruct Hk as [[= <- <-]|Hk]; [reflexivity|]). destruct Hk.
  - discriminate.
  - discriminate.
  - vm_compute. reflexivity.
  - reflexivity.
  - vm_compute. discriminate.
Defined.

(** ** What the store keeps while the server runs *)

Lemma holds_clearActive_fwd d uid tid d' u k g :
  Db.clearActive d uid tid = inr d' ->
  holds d u k g ->
  holds d' u k g \/ holds d' u k (Db.deactivate g).
Proof.
  intros Hclr Hh. rewrite !holds_entry, (clearActive_entry _ _ _ _ _ _ Hclr).
  apply holds_entry in Hh.
  destruct (decide (u = uid /\ k = tid)) as [_|_]; [|left; exact Hh].
  right. rewrite Hh. reflexivity.
Qed.

Lemma holds_setToken_fwd d uid tid g0 d' u k g :
  Db.setToken d uid tid g0 = Some d' ->
  k <> tid -> holds d u k g -> holds d' u k g.
Proof.
  intros Hset Hk Hh. rewrite holds_entry, (setToken_entry _ _ _ _ _ _ _ Hset).
  rewrite decide_False by tauto. apply holds_entry, Hh.
Qed.

Lemma holds_signUp_fwd s now uid name email u k g :
  holds (Routes.db s) u k g ->
  holds (Routes.db (Routes.signUp s now uid name email)) u k g.
Proof. rewrite !holds_entry, signUp_entry. auto. Qed.

(** The entries [{ isActive: false }] come from revocations of names of
    inherited properties only. *)
Lemma stubsInherited_handle uuid Date_parse bucketName s now r :
  stubsInherited (Routes.db s) ->
  stubsInherited (Routes.db (Routes.handle uuid Date_parse bucketName s now r)).
Proof.
  intros HI. destruct r as [uid name email | userId file response
                            | userId allowedReports | userId tokenId];
    cbn [Routes.handle].
  - intros u k Hs. apply (HI u k). revert Hs.
    rewrite !holdsOnlyInactive_entry, signUp_entry. auto.
  - unfold Routes.uploadReport.
    destruct file as [[originalname mimetype]|]; [|exact HI].
    destruct (Routes.truthy userId) as [uid|]; [|exact HI].
    cbn [Routes.uuidv4 Routes.db Routes.draws].
    destruct (GeminiService.extractMedicalData Date_parse mimetype response);
      cbn [snd Routes.db]; exact HI.
  - unfold Routes.createDoctorAccessToken.
    destruct (Routes.truthy userId) as [uid|]; [|exact HI].
    destruct allowedReports as [[|i ids]|]; try exact HI.
    destruct (negb _); [exact HI|].
    cbn [Routes.uuidv4 Routes.db Routes.draws].
    destruct (Db.setToken _ _ _ _) as [d'|] eqn:Hset; cbn [snd Routes.db];
      [|exact HI].
    intros u k Hs. apply (HI u k). revert Hs.
    rewrite !holdsOnlyInactive_entry, (setToken_entry _ _ _ _ _ _ _ Hset).
    destruct (decide _); [discriminate | auto].
  - unfold Routes.revokeDoctorAccessToken.
    destruct (Routes.truthy userId) as [uid|]; [|exact HI].
    destruct (Routes.truthy tokenId) as [tid|]; [|exact HI].
    destruct (Db.users (Routes.db s) !! uid) as [p|] eqn:Hp; [|exact HI].
    destruct (Js.hasTruthy (UserProfile.doctorAccessTokens p) tid) eqn:Hguard;
      cbn [negb]; [|exact HI].
    destruct (Db.clearActive (Routes.db s) uid tid) as [message|d'] eqn:Hclr;
      cbn [snd Routes.db]; [exact HI|].
    intros u k Hs. apply holdsOnlyInactive_entry in Hs.
    rewrite (clearActive_entry _ _ _ _ _ _ Hclr) in Hs.
    destruct (decide (u = uid /\ k = tid)) as [[-> ->]|Hne];
      [|exact (HI u k (proj2 (holdsOnlyInactive_entry _ _ _) Hs))].
    destruct (entryOf (Routes.db s) uid tid) as [[g|]|] eqn:He;
      [discriminate
      | exact (HI uid tid (proj2 (holdsOnlyInactive_entry _ _ _) He)) |].
    apply clearActive_inr in Hclr as (p' & Hp' & Hrefuse & _).
    assert (p' = p) as -> by congruence.
    unfold entryOf in He. rewrite Hp in He. cbn in He.
    unfold Js.hasTruthy in Hguard. unfold Db.refusesKey in Hrefuse.
    destruct (UserProfile.doctorAccessTokens p) as [m|]; [|discriminate].
    cbn in He, Hrefuse. rewrite He in Hguard, Hrefuse.
    split; [exact (bool_decide_eq_true_1 _ Hguard) | exact Hrefuse].
Qed.

Lemma stubsInherited_reachable uuid Date_parse bucketName s :
  Routes.reachable uuid Date_parse bucketName s -> stubsInherited (Routes.db s).
Proof.
  induction 1 as [|s now r _ IH]; [|apply stubsInherited_handle, IH].
  intros u k (p & m & Hp & _). cbn in Hp. rewrite lookup_empty in Hp.
  discriminate.
Qed.

Section FreshUuidsKeep.

Variable uuid : nat -> string.
Hypothesis uuid_never_repeats : forall i j, uuid i = uuid j -> i = j.

Lemma Inv2_init : Inv2 uuid Routes.init.
Proof.
  split; [|split].
  - intros k r Hk. cbn in Hk. rewrite lookup_empty in Hk. discriminate.
  - unfold keyed. cbn. apply map_Forall_empty.
  - intros u k g (p & m & Hp & _). cbn in Hp. rewrite lookup_empty in Hp.
    discriminate.
Qed.

Lemma scopesValid_same_reports d d' :
  Db.reports d' = Db.reports d ->
  (forall u k g', holds d' u k g' ->
     exists g, holds d u k g /\ (g' = g \/ g' = Db.deactivate g)) ->
  scopesValid d -> scopesValid d'.
Proof.
  intros Hr Hback Hv u k g' Hh.
  destruct (Hback _ _ _ Hh) as (g & Hg & Hgg).
  destruct (Hv _ _ _ Hg) as (H1 & H2 & H3 & H4 & H5).
  assert (forall i, owns d u i -> owns d' u i) as Howns.
  { intros i (k' & r & Hk' & ?). exists k', r. rewrite Hr. auto. }
  destruct Hgg as [-> | ->]; cbn; auto 10.
Qed.

Lemma Inv2_handle Date_parse bucketName s now r :
  Inv2 uuid s -> Inv2 uuid (Routes.handle uuid Date_parse bucketName s now r).
Proof.
  intros (Hfresh & Hkeyed & Hvalid).
  pose proof (keyed_handle uuid Date_parse bucketName s now r Hkeyed) as Hkeyed'.
  destruct r as [uid name email | userId file response
                 | userId allowedReports | userId tokenId];
    cbn [Routes.handle] in *.
  - split; [|split; [exact Hkeyed'|]].
    + unfold Routes.signUp. destruct (Db.users (Routes.db s) !! uid); exact Hfresh.
    + apply (scopesValid_same_reports (Routes.db s)); [| |exact Hvalid].
      * unfold Routes.signUp. destruct (Db.users (Routes.db s) !! uid); reflexivity.
      * intros u k g' Hh. exists g'. split; [eapply holds_signUp; exact Hh | auto].
  - unfold Routes.uploadReport in *.
    destruct file as [[originalname mimetype]|]; [|split; [|split]; assumption].
    destruct (Routes.truthy userId) as [uid|]; [|split; [|split]; assumption].
    cbn [Routes.uuidv4 Routes.db Routes.draws] in *.
    destruct (GeminiService.extractMedicalData Date_parse mimetype response)
      as [message | geminiData]; cbn [snd Routes.db Routes.draws] in *.
    + split; [|split; assumption].
      intros k r Hk. destruct (Hfresh k r Hk) as (i & Hi & ->). exists i.
      split; [cbn; lia | reflexivity].
    + split; [|split; [exact Hkeyed'|]].
      * intros k r Hk. cbn in Hk.
        apply lookup_insert_Some in Hk as [[<- _] | [_ Hk]].
        -- exists (Routes.draws s). split; [cbn; lia | reflexivity].
        -- destruct (Hfresh k r Hk) as (i & Hi & ->). exists i.
           split; [cbn; lia | reflexivity].
      * intros u k g Hh. destruct (Hvalid u k g Hh) as (H1 & H2 & H3 & H4 & H5).
        repeat (split; [assumption|]).
        intros i Hi. destruct (H5 i Hi) as (k' & r & Hk' & Hid & Hu).
        exists k', r. split; [|auto]. cbn.
        rewrite lookup_insert_ne; [exact Hk'|].
        intros <-. destruct (Hfresh _ _ Hk') as (j & Hj & Hjj).
        apply uuid_never_repeats in Hjj. lia.
  - unfold Routes.createDoctorAccessToken in *.
    destruct (Routes.truthy userId) as [uid|] eqn:Huid;
      [|split; [|split]; assumption].
    destruct allowedReports as [[|i ids]|]; try (split; [|split]; assumption).
    destruct (length (Db.reportsInFor (Routes.db s) (i :: ids) uid)
              =? length (i :: ids))%nat eqn:Hlen;
      cbn [negb] in *; [|split; [|split]; assumption].
    cbn [Routes.uuidv4 Routes.db Routes.draws] in *.
    assert (forall k r, Db.reports (Routes.db s) !! k = Some r ->
              exists j, (j < S (S (Routes.draws s)))%nat /\ k = uuid j) as Hfresh'.
    { intros k r Hk. destruct (Hfresh k r Hk) as (j & Hj & ->). exists j.
      split; [lia | reflexivity]. }
    destruct (Db.setToken _ _ _ _) as [d'|] eqn:Hset; cbn [snd Routes.db Routes.draws] in *;
      [|split; [exact Hfresh' | split; assumption]].
    assert (Db.reports d' = Db.reports (Routes.db s)) as Hr.
    { unfold Db.setToken in Hset. apply bind_Some in Hset as (p & _ & [= <-]).
      reflexivity. }
    split; [intros k r Hk; cbn in Hk; rewrite Hr in Hk; exact (Hfresh' k r Hk)
           | split; [exact Hkeyed'|]].
    assert (forall u j, owns (Routes.db s) u j -> owns d' u j) as Howns.
    { intros u j (k' & r & Hk' & ?). exists k', r. rewrite Hr. auto. }
    intros u k g Hh.
    destruct (holds_setToken _ _ _ _ _ _ _ _ Hset Hh) as [(-> & -> & ->) | Hold].
    + cbn. apply Nat.eqb_eq in Hlen.
      apply (reportsInFor_length _ _ _ Hkeyed) in Hlen as [Hnd Hown].
      repeat (split; [auto; discriminate|]). auto.
    + destruct (Hvalid u k g Hold) as (H1 & H2 & H3 & H4 & H5). auto 10.
  - unfold Routes.revokeDoctorAccessToken in *.
    destruct (Routes.truthy userId) as [uid|]; [|split; [|split]; assumption].
    destruct (Routes.truthy tokenId) as [tid|]; [|split; [|split]; assumption].
    destruct (Db.users (Routes.db s) !! uid) as [userProfile|] eqn:Hu;
      [|split; [|split]; assumption].
    destruct (negb _); [split; [|split]; assumption|].
    destruct (Db.clearActive (Routes.db s) uid tid) as [message|d'] eqn:Hclr;
      [split; [|split]; assumption|].
    cbn [snd Routes.db Routes.draws] in *.
    assert (Db.reports d' = Db.reports (Routes.db s)) as Hr
      by exact (clearActive_reports _ _ _ _ Hclr).
    split; [intros k r Hk; cbn in Hk; rewrite Hr in Hk; exact (Hfresh k r Hk)
           | split; [exact Hkeyed'|]].
    apply (scopesValid_same_reports (Routes.db s)); [exact Hr | | exact Hvalid].
    intros u k g' Hh. exact (holds_clearActive_inv _ _ _ _ _ _ _ Hclr Hh).
Qed.

Lemma Inv2_reachable Date_parse bucketName s :
  Routes.reachable uuid Date_parse bucketName s -> Inv2 uuid s.
Proof.
  induction 1 as [|s now r _ IH]; [apply Inv2_init | apply Inv2_handle, IH].
Qed.

End FreshUuidsKeep.

(** X10: nothing is ever deleted or rewritten.  As long as [uuidv4] does
    not repeat itself, a request leaves every stored report as it is and
    keeps every grant under its key with its id, owner, token, scope and
    instants; the only change a grant can undergo is the loss of its
    [isActive] flag, and an inactive grant never becomes active again. *)
Theorem nothing_is_ever_deleted :
  forall (uuid : nat -> string) (Date_parse : string -> option Z)
         (bucketName : string) (s : Routes.State) (now : Z) (r : Routes.Request),
    (forall i j, uuid i = uuid j -> i = j) ->
    Routes.reachable uuid Date_parse bucketName s ->
    let s' := Routes.handle uuid Date_parse bucketName s now r in
    (forall k rep, Db.reports (Routes.db s) !! k = Some rep ->
       Db.reports (Routes.db s') !! k = Some rep)
    /\ (forall u k g, holds (Routes.db s) u k g ->
          holds (Routes.db s') u k g
          \/ holds (Routes.db s') u k
               (DoctorAccessToken.mk (DoctorAccessToken.id g)
                  (DoctorAccessToken.userId g) (DoctorAccessToken.token g)
                  (DoctorAccessToken.expiresAt g) false
                  (DoctorAccessToken.createdAt g)
                  (DoctorAccessToken.allowedReports g))).
Proof.
  intros uuid Date_parse bucketName s now r Hinj Hreach s'. subst s'.
  destruct (Inv_reachable uuid Hinj Date_parse bucketName s Hreach) as (Htok & _ & _).
  destruct (Inv2_reachable uuid Hinj Date_parse bucketName s Hreach) as (Hrep & _ & _).
  destruct r as [uid name email | userId file response
                 | userId allowedReports | userId tokenId];
    cbn [Routes.handle].
  - split.
    + unfold Routes.signUp. destruct (Db.users (Routes.db s) !! uid); auto.
    + intros u k g Hh. left. apply holds_signUp_fwd, Hh.
  - unfold Routes.uploadReport.
    destruct file as [[originalname mimetype]|]; [|auto].
    destruct (Routes.truthy userId) as [uid|]; [|auto].
    cbn [Routes.uuidv4 Routes.db Routes.draws].
    destruct (GeminiService.extractMedicalData Date_parse mimetype response)
      as [message | geminiData]; cbn [snd Routes.db]; [auto|].
    split; [|auto].
    intros k rep Hk. cbn. rewrite lookup_insert_ne; [exact Hk|].
    intros <-. destruct (Hrep _ _ Hk) as (j & Hj & Hjj).
    apply Hinj in Hjj. lia.
  - unfold Routes.createDoctorAccessToken.
    destruct (Routes.truthy userId) as [uid|]; [|auto].
    destruct allowedReports as [[|i ids]|]; auto.
    destruct (negb _); [auto|].
    cbn [Routes.uuidv4 Routes.db Routes.draws].
    destruct (Db.setToken _ _ _ _) as [d'|] eqn:Hset; cbn [snd Routes.db]; [|auto].
    split.
    + unfold Db.setToken in Hset. apply bind_Some in Hset as (p & _ & [= <-]). auto.
    + intros u k g Hh. left.
      apply (holds_setToken_fwd _ _ _ _ _ _ _ _ Hset); [|exact Hh].
      intros ->. destruct (Htok _ _ _ Hh) as (j & Hj & Hjj & _).
      apply Hinj in Hjj. lia.
  - unfold Routes.revokeDoctorAccessToken.
    destruct (Routes.truthy userId) as [uid|]; [|auto].
    destruct (Routes.truthy tokenId) as [tid|]; [|auto].
    destruct (Db.users (Routes.db s) !! uid) as [userProfile|]; [|auto].
    destruct (negb _); [auto|].
    destruct (Db.clearActive (Routes.db s) uid tid) as [message|d'] eqn:Hclr;
      [auto|].
    cbn [snd Routes.db]. split.
    + rewrite (clearActive_reports _ _ _ _ Hclr). auto.
    + intros u k g Hh. exact (holds_clearActive_fwd _ _ _ _ _ _ _ Hclr Hh).
Qed.

(** After the sample run a third issuance keeps the first grant. *)
Lemma nothing_is_ever_deleted_witness :
  holds (Routes.db (Routes.handle tally noParse "bucket"
                      (run tally (twoIssuances "u")) 9
                      (Routes.CreateDoctorAccessToken (Some "pat") (Some ["u"]))))
    "pat" (tally 2) (issued tally "u" 2).
Proof.
  destruct (proj2 (nothing_is_ever_deleted tally noParse "bucket"
                     (run tally (twoIssuances "u")) 9
                     (Routes.CreateDoctorAccessToken (Some "pat") (Some ["u"]))
                     tally_never_repeats (reachable_run tally (twoIssuances "u")))
              "pat" (tally 2) (issued tally "u" 2)) as [H|H].
  - apply holds_lookup. vm_compute. reflexivity.
  - exact H.
  - exfalso. apply holds_grantsOf, list_elem_of_In in H. vm_compute in H.
    repeat (destruct H as [H|H]; [discriminate H|]). destruct H.
Defined.

(** X11: what the maps of tokens hold.  As long as [uuidv4] does not
    repeat itself, in every reachable state each token bears the id of
    the patient whose profile holds it and the key it is stored under, and
    its scope is a non-empty list of distinct ids, each of a stored report
    of that patient.  The only other entries are the objects
    [{ isActive: false }] left by revocations of names of inherited
    properties: each sits under such a name and carries no token, no
    owner and no scope, so that no presented token is found in it. *)
Theorem scopes_hold_own_reports_only :
  forall (uuid : nat -> string) (Date_parse : string -> option Z)
         (bucketName : string) (s : Routes.State),
    (forall i j, uuid i = uuid j -> i = j) ->
    Routes.reachable uuid Date_parse bucketName s ->
    (forall u k g, holds (Routes.db s) u k g ->
       DoctorAccessToken.userId g = u /\ DoctorAccessToken.id g = k
       /\ DoctorAccessToken.allowedReports g <> []
       /\ NoDup (DoctorAccessToken.allowedReports g)
       /\ forall i, i ∈ DoctorAccessToken.allowedReports g ->
            exists r, Db.reports (Routes.db s) !! i = Some r
                      /\ Report.id r = i /\ Report.userId r = u)
    /\ (forall u k e, entryOf (Routes.db s) u k = Some e ->
          (exists g, e = TokenEntry.Token g /\ holds (Routes.db s) u k g)
          \/ (e = TokenEntry.OnlyInactive
              /\ k ∈ Js.objectPrototypeKeys
              /\ forall token,
                   Routes.scanTokens [(k, e)] token = (None, 1%nat))).
Proof.
  intros uuid Date_parse bucketName s Hinj Hreach. split.
  - intros u k g Hh.
    destruct (Inv2_reachable uuid Hinj Date_parse bucketName s Hreach)
      as (_ & Hkeyed & Hvalid).
    destruct (Hvalid u k g Hh) as (H1 & H2 & H3 & H4 & H5).
    repeat (split; [assumption|]).
    intros i Hi. destruct (H5 i Hi) as (k' & r & Hk' & Hid & Hu).
    pose proof (Hkeyed _ _ Hk') as E. cbn in E. exists r.
    split; [congruence | auto].
  - intros u k [g|] He.
    + left. exists g. split; [reflexivity | apply holds_entry, He].
    + right. split; [reflexivity|].
      destruct (stubsInherited_reachable uuid Date_parse bucketName s Hreach u k)
        as [Hin Hres]; [apply holdsOnlyInactive_entry, He|].
      auto.
Qed.

Lemma scopes_hold_own_reports_only_witness :
  exists r, Db.reports (Routes.db (run tally (twoIssuances "u"))) !! "u" = Some r
            /\ Report.id r = "u" /\ Report.userId r = "pat".
Proof.
  refine (proj2 (proj2 (proj2 (proj2
            (proj1 (scopes_hold_own_reports_only tally noParse "bucket"
                      (run tally (twoIssuances "u")) tally_never_repeats
                      (reachable_run tally (twoIssuances "u")))
               "pat" (tally 2) (issued tally "u" 2) _)))) "u" _).
  - apply holds_lookup. vm_compute. reflexivity.
  - left.
Defined.

(** X12: no report of a scope goes missing.  As long as [uuidv4] does not
    repeat itself, in every reachable state a token that is active and not
    expired is answered with exactly one report for each id of its
    scope. *)
Theorem live_token_returns_whole_scope :
  forall (uuid : nat -> string) (Date_parse : string -> option Z)
         (bucketName : string) (s : Routes.State) (now : Z)
         (token uid : string) (g : DoctorAccessToken.t),
    (forall i j, uuid i = uuid j -> i = j) ->
    Routes.reachable uuid Date_parse bucketName s ->
    token <> "" -> uid <> "" ->
    Routes.findToken (Routes.db s) token = Some (g, uid) ->
    DoctorAccessToken.isActive g = true ->
    now <= DoctorAccessToken.expiresAt g ->
    exists rs : list Report.t,
      Routes.timeline (Routes.db s) now token = Routes.send 200 (Routes.Reports rs)
      /\ length rs = length (DoctorAccessToken.allowedReports g)
      /\ Report.id <$> rs ≡ₚ DoctorAccessToken.allowedReports g.
Proof.
  intros uuid Date_parse bucketName s now [|c tok'] [|c' uid'] g Hinj Hreach
    Htok Huid Hfind Hact Hexp; try congruence.
  destruct (Inv2_reachable uuid Hinj Date_parse bucketName s Hreach)
    as (_ & Hkeyed & Hvalid).
  destruct (findToken_holds _ _ _ _ Hfind) as (k & Hh & _).
  destruct (Hvalid _ _ _ Hh) as (_ & _ & _ & Hnd & Hown).
  rewrite (timeline_found _ now _ _ _ _ _ Hfind), Hact.
  replace (DoctorAccessToken.expiresAt g <? now) with false
    by (symmetry; apply Z.ltb_ge; lia).
  eexists. split; [reflexivity|].
  set (ids := DoctorAccessToken.allowedReports g) in *.
  assert (Report.id <$> (snd <$> Db.orderByTimestampDesc
                           (Db.reportsInFor (Routes.db s) ids (String c' uid')))
          ≡ₚ ids) as Hperm.
  { unfold Db.orderByTimestampDesc. rewrite merge_sort_Permutation.
    assert (Report.id <$> (Db.reportsInFor (Routes.db s) ids (String c' uid')).*2
            = (Db.reportsInFor (Routes.db s) ids (String c' uid')).*1) as ->.
    { rewrite <- list_fmap_compose. apply Forall_fmap_ext_1, Forall_forall.
      intros [k' r] Hin. apply elem_of_reportsInFor in Hin as (Hk' & _).
      exact (Hkeyed _ _ Hk'). }
    apply NoDup_Permutation; [apply NoDup_reportsInFor_keys | exact Hnd |].
    intros i. split.
    - intros Hi. apply (reportsInFor_keys_owned _ ids _ i Hkeyed Hi).
    - intros Hi. destruct (Hown i Hi) as (k' & r & Hk' & Hid & Hu).
      pose proof (Hkeyed _ _ Hk') as E. cbn in E.
      apply list_elem_of_fmap. exists (k', r). split; [cbn; congruence|].
      apply elem_of_reportsInFor. split; [exact Hk'|]. split; [|exact Hu].
      rewrite Hid. exact Hi. }
  split; [|exact Hperm].
  apply Permutation_length in Hperm. rewrite length_fmap in Hperm. exact Hperm.
Qed.

Lemma live_token_returns_whole_scope_witness :
  exists rs : list Report.t,
    Routes.timeline (Routes.db (run tally (twoIssuances "u"))) 50 (tally 3)
    = Routes.send 200 (Routes.Reports rs)
    /\ length rs = 1%nat
    /\ Report.id <$> rs ≡ₚ ["u"].
Proof.
  apply (live_token_returns_whole_scope tally noParse "bucket"
           (run tally (twoIssuances "u")) 50 (tally 3) "pat" (issued tally "u" 2)
           tally_never_repeats (reachable_run tally (twoIssuances "u"))).
  - discriminate.
  - discriminate.
  - vm_compute. reflexivity.
  - reflexivity.
  - vm_compute. discriminate.
Defined.

(** ** From uploading a report to listing it *)






(** ** More on the normaliser *)




(** X15: the first character decides.  A measurement text that begins with
    a digit is stored as a number, whatever follows; a text whose first
    character is neither white space, a digit, a sign, a dot nor the
    letter I is kept as it is. *)
Theorem text_value_by_first_character :
  forall (m : GeminiExtractedValue.t) (c : ascii) (rest : string),
    GeminiExtractedValue.value m = Js.Str (String c rest) ->
    (Js.isDigit c = true ->
     exists q, GeminiExtractedValue.value (Routes.processExtractedValue m)
               = Js.Num (Js.Fin q))
    /\ (Js.isWhiteSpace c = false -> Js.isDigit c = false ->
        Js.code c <> 43 -> Js.code c <> 45 -> Js.code c <> 46 -> c <> "I"%char ->
        GeminiExtractedValue.value (Routes.processExtractedValue m)
        = Js.Str (String c rest)).
Proof.
  intros m c rest Hm. rewrite processExtractedValue_value, Hm. split.
  - intros Hd. destruct (parseFloat_leading_digit c rest Hd) as (q & Hq).
    exists q. unfold GeminiService.coerceValue. rewrite Hq. reflexivity.
  - intros Hw Hd Hplus Hminus Hdot HI.
    assert (Js.parseFloat (String c rest) = Js.NaN) as Hnan.
    { unfold Js.parseFloat. cbn [Js.trimStart]. rewrite Hw.
      apply Z.eqb_neq in Hplus, Hminus, Hdot. rewrite Hminus, Hplus.
      unfold Js.readUnsigned. cbn [String.prefix].
      destruct (ascii_dec "I" c) as [E|_]; [congruence|].
      cbn [Js.readDigits]. rewrite Hd, Hdot. reflexivity. }
    unfold GeminiService.coerceValue. rewrite Hnan. reflexivity.
Qed.

Lemma text_value_by_first_character_witness :
  GeminiExtractedValue.value
    (Routes.processExtractedValue (measurement (Js.Str "<5 mg/dL") Js.Undefined))
  = Js.Str "<5 mg/dL".
Proof.
  refine (proj2 (text_value_by_first_character
                   (measurement (Js.Str "<5 mg/dL") Js.Undefined) "<" "5 mg/dL"
                   eq_refl) _ _ _ _ _ _); try reflexivity; discriminate.
Defined.

Lemma measurement_eq (x y : GeminiExtractedValue.t) :
  GeminiExtractedValue.value x = GeminiExtractedValue.value y ->
  GeminiExtractedValue.unit x = GeminiExtractedValue.unit y ->
  GeminiExtractedValue.ref x = GeminiExtractedValue.ref y ->
  GeminiExtractedValue.isAbnormal x = GeminiExtractedValue.isAbnormal y ->
  x = y.
Proof. destruct x, y. cbn. intros -> -> -> ->. reflexivity. Qed.

Lemma processExtractedValue_idempotent (m : GeminiExtractedValue.t) :
  Routes.processExtractedValue (Routes.processExtractedValue m)
  = Routes.processExtractedValue m.
Proof.
  apply measurement_eq.
  - rewrite !processExtractedValue_value. apply coerceValue_idempotent.
  - reflexivity.
  - reflexivity.
  - destruct (processExtractedValue_isAbnormal m) as (b & Hb & _).
    unfold Routes.processExtractedValue at 1.
    cbn [GeminiExtractedValue.isAbnormal]. rewrite Hb. reflexivity.
Qed.

(** X16: processing what was stored changes nothing.  The entries that
    the helper produced, which are what the report document holds, come
    out of another pass as they went in, and that pass sets no prototype:
    no name among them is [__proto__].  A first pass sets a prototype
    exactly when the payload has a measurement of that name. *)
Theorem processExtractedValues_idempotent :
  forall data : gmap string GeminiExtractedValue.t,
    let stored := Js.own (Routes.processExtractedValues data) in
    Routes.processExtractedValues stored = Js.mkObj stored None
    /\ (Js.proto (Routes.processExtractedValues data) = None
        <-> data !! "__proto__" = None)
    /\ (data !! "__proto__" = None ->
        Routes.processExtractedValues data
        = Js.mkObj (Routes.processExtractedValue <$> data) None).
Proof.
  intros data stored. subst stored.
  assert (forall o : Js.Obj GeminiExtractedValue.t,
            o = Js.mkObj (Js.own o) (Js.proto o)) as Heta by (intros []; reflexivity).
  split; [|split].
  - rewrite (Heta (Routes.processExtractedValues (Js.own _))).
    destruct (processExtractedValues_spec
                (Js.own (Routes.processExtractedValues data))) as [-> ->].
    rewrite processExtractedValues_no_proto. f_equal.
    rewrite delete_id by (rewrite lookup_fmap, processExtractedValues_no_proto;
                          reflexivity).
    apply map_eq. intros k. rewrite lookup_fmap.
    destruct (Js.own (Routes.processExtractedValues data) !! k) as [m'|] eqn:E;
      [|reflexivity].
    apply processExtractedValues_entry in E as (_ & m & _ & ->). cbn.
    f_equal. apply processExtractedValue_idempotent.
  - rewrite (proj2 (processExtractedValues_spec data)).
    destruct (data !! "__proto__"); cbn; split; congruence.
  - intros Hno. rewrite (Heta (Routes.processExtractedValues data)).
    destruct (processExtractedValues_spec data) as [-> ->].
    rewrite Hno. f_equal. apply delete_id. rewrite lookup_fmap, Hno. reflexivity.
Qed.

(** A payload without that name: one processed entry, no prototype. *)
Lemma processExtractedValues_idempotent_witness :
  Routes.processExtractedValues
    {[ "Hemoglobin" := measurement (Js.Str "13.5") (Js.Str "true") ]}
  = Js.mkObj
      (Routes.processExtractedValue
         <$> {[ "Hemoglobin" := measurement (Js.Str "13.5") (Js.Str "true") ]})
      None.
Proof.
  apply (proj2 (proj2 (processExtractedValues_idempotent
                         {[ "Hemoglobin" := measurement (Js.Str "13.5")
                                              (Js.Str "true") ]}))).
  vm_compute. reflexivity.
Defined.

(** ** The authentication middleware *)

Lemma string_app_nil_r (s : string) : s +:+ "" = s.
Proof. induction s as [|c s IH]; [reflexivity | exact (f_equal (String c) IH)]. Qed.

Lemma string_app_snoc (s t : string) (c : ascii) :
  (s +:+ String c "") +:+ t = s +:+ String c t.
Proof. induction s as [|c' s IH]; [reflexivity | exact (f_equal (String c') IH)]. Qed.

(** A text in which the separator does not occur is one piece. *)
Lemma splitFrom_one_piece (sep cur t : string) :
  includes sep t = false ->
  Middleware.splitFrom sep 0 cur t = [cur +:+ t].
Proof.
  revert cur. induction t as [|c t IH]; intros cur Hno; cbn [Middleware.splitFrom].
  - now rewrite string_app_nil_r.
  - cbn [includes] in Hno. apply orb_false_iff in Hno as [Hp Hno].
    rewrite Hp, (IH _ Hno), string_app_snoc. reflexivity.
Qed.

(** X17: the token the middleware verifies.  For a header made of
    "Bearer " and a token in which "Bearer " does not occur, the
    middleware hands exactly that token to [verifyIdToken]; the request
    goes on with the [uid] of the decoded token, or is answered 403 when
    the verification fails. *)
Theorem bearer_token_is_verified :
  forall (verifyIdToken : option string -> option string) (t : string),
    includes "Bearer " t = false ->
    Middleware.authenticatePatient verifyIdToken (Some ("Bearer " +:+ t))
    = match verifyIdToken (Some t) with
      | Some uid => inr uid
      | None =>
          inl (Routes.send 403
                 (Routes.Error "Unauthorized: Invalid or expired token." None))
      end.
Proof.
  intros verifyIdToken t Hno.
  unfold Middleware.authenticatePatient, Middleware.split.
  change ("Bearer " +:+ t)
    with (String "B" (String "e" (String "a" (String "r" (String "e"
            (String "r" (String " " t))))))).
  cbn [Routes.truthy].
  assert (Middleware.splitFrom "Bearer " 0 ""
            (String "B" (String "e" (String "a" (String "r" (String "e"
               (String "r" (String " " t)))))))
          = [""; t]) as Hs.
  { simpl. replace (String.prefix "" t) with true by (destruct t; reflexivity).
    f_equal. apply (splitFrom_one_piece "Bearer " "" t Hno). }
  rewrite Hs. simpl String.prefix.
  replace (String.prefix "" t) with true by (destruct t; reflexivity).
  reflexivity.
Qed.

Lemma bearer_token_is_verified_witness :
  Middleware.authenticatePatient oneUser (Some "Bearer eyJ.abc.def") = inr "pat".
Proof.
  apply (bearer_token_is_verified oneUser "eyJ.abc.def"). reflexivity.
Defined.

(** X18: no write without an accepted token.  A guarded route changes the
    state only when the [Authorization] header begins with "Bearer " and
    [verifyIdToken] accepts the token taken from it, and then it is the
    handler's doing, run for the [uid] of that token; in every other case
    the middleware answers 401 or 403 itself. *)
Theorem guarded_route_needs_accepted_token :
  forall (S : Type) (verifyIdToken : option string -> option string)
         (authorization : option string) (s : S)
         (handler : option string -> Routes.Response * S),
    (exists (authHeader uid : string),
       authorization = Some authHeader
       /\ String.prefix "Bearer " authHeader = true
       /\ verifyIdToken (Middleware.split "Bearer " authHeader !! 1%nat) = Some uid
       /\ Middleware.guarded verifyIdToken authorization s handler
          = handler (Some uid))
    \/ ((Middleware.guarded verifyIdToken authorization s handler).2 = s
        /\ (Routes.status (Middleware.guarded verifyIdToken authorization s handler).1
            = 401
            \/ Routes.status
                 (Middleware.guarded verifyIdToken authorization s handler).1
               = 403)).
Proof.
  intros S verifyIdToken authorization s handler.
  unfold Middleware.guarded, Middleware.authenticatePatient.
  destruct authorization as [[|c h]|]; cbn [Routes.truthy];
    try solve [right; cbn; auto].
  destruct (String.prefix "Bearer " (String c h)) eqn:Hp; cbn [negb];
    [|right; cbn; auto].
  destruct (verifyIdToken _) as [uid|] eqn:Hv; [|right; cbn; auto].
  left. exists (String c h), uid. auto.
Qed.

(** A token request with the header of another scheme writes nothing. *)
Lemma guarded_route_needs_accepted_token_witness :
  (Middleware.guarded oneUser (Some "Basic cGF0OnB3") (Routes.mkState clinic 0)
     (fun userId =>
        Routes.createDoctorAccessToken tally (Routes.mkState clinic 0) 7 userId
          (Some ["R1"]))).2
  = Routes.mkState clinic 0.
Proof.
  destruct (guarded_route_needs_accepted_token Routes.State oneUser
              (Some "Basic cGF0OnB3") (Routes.mkState clinic 0)
              (fun userId =>
                 Routes.createDoctorAccessToken tally (Routes.mkState clinic 0) 7
                   userId (Some ["R1"])))
    as [(h & uid & [= <-] & Hp & _) | [H _]].
  - vm_compute in Hp. discriminate.
  - exact H.
Defined.

(** ** The sharing page *)

Lemma toggle_elem (prev : list string) (x y : string) :
  y ∈ DoctorAccess.handleReportToggle prev x <->
  (y <> x /\ y ∈ prev) \/ (y = x /\ x ∉ prev).
Proof.
  unfold DoctorAccess.handleReportToggle. case_bool_decide as Hin.
  - rewrite list_elem_of_filter. split; [tauto|].
    intros [H | [-> H]]; [tauto | contradiction].
  - rewrite elem_of_app, list_elem_of_singleton. split.
    + intros [H | ->]; [|auto]. left. split; [|exact H]. intros ->. contradiction.
    + intros [[_ H] | [-> _]]; auto.
Qed.

Lemma toggle_NoDup (prev : list string) (x : string) :
  NoDup prev -> NoDup (DoctorAccess.handleReportToggle prev x).
Proof.
  intros Hnd. unfold DoctorAccess.handleReportToggle. case_bool_decide as Hin.
  - apply NoDup_filter, Hnd.
  - apply NoDup_app. split; [exact Hnd|]. split; [|apply NoDup_singleton].
    intros y Hy Hyx. apply list_elem_of_singleton in Hyx as ->. contradiction.
Qed.

(** X19: what a series of clicks selects.  Starting from the empty
    selection, the selection never holds an id twice, and it holds an id
    exactly when the report was clicked an odd number of times. *)
Theorem selection_after_clicks :
  forall clicks : list string,
    let selection := foldl DoctorAccess.handleReportToggle [] clicks in
    NoDup selection
    /\ forall i, i ∈ selection <->
         Nat.odd (length (filter (fun x => x = i) clicks)) = true.
Proof.
  intros clicks. cbn zeta.
  induction clicks as [|x clicks [IHnd IHin]] using rev_ind.
  - split; [constructor|]. intros i. cbn. split; [inversion 1 | discriminate].
  - rewrite foldl_snoc. split; [apply toggle_NoDup, IHnd|].
    intros i. rewrite toggle_elem, filter_app, length_app, !IHin.
    destruct (decide (x = i)) as [->|Hne].
    + rewrite filter_cons_True, filter_nil by reflexivity. cbn [length].
      rewrite Nat.add_1_r, Nat.odd_succ, <- Nat.negb_odd.
      destruct (Nat.odd _); cbn; split.
      * intros [[H _] | [_ H]]; [congruence | destruct H; reflexivity].
      * discriminate.
      * reflexivity.
      * intros _. right. split; [reflexivity | discriminate].
    + rewrite filter_cons_False, filter_nil by exact Hne. cbn [length].
      rewrite Nat.add_0_r. split; [|intros H; left; split; [congruence | exact H]].
      intros [[_ H] | [E _]]; [exact H | congruence].
Qed.

Lemma selection_clicked (clicks : list string) :
  NoDup (foldl DoctorAccess.handleReportToggle [] clicks)
  /\ forall i, i ∈ foldl DoctorAccess.handleReportToggle [] clicks -> i ∈ clicks.
Proof.
  induction clicks as [|x clicks [IHnd IHin]] using rev_ind.
  - split; [constructor | auto].
  - rewrite foldl_snoc. split; [apply toggle_NoDup, IHnd|].
    intros i Hi. apply toggle_elem in Hi as [[_ Hi] | [-> _]].
    + apply elem_of_app. left. apply IHin, Hi.
    + apply elem_of_app. right. left.
Qed.

(** X20: the page never trips the server's ownership check.  Whatever the
    patient clicks among reports that are theirs, a non-empty selection
    sent by the page is answered 201: the selection holds no id twice and
    only ids of the caller's reports. *)
Theorem page_selection_is_accepted :
  forall (uuid : nat -> string) (s : Routes.State) (now : Z) (uid : string)
         (p : UserProfile.t) (clicks ids : list string),
    keyed (Routes.db s) -> uid <> "" ->
    Db.users (Routes.db s) !! uid = Some p ->
    (forall i, i ∈ clicks -> owns (Routes.db s) uid i) ->
    DoctorAccess.handleGenerateToken
      (foldl DoctorAccess.handleReportToggle [] clicks) = Some ids ->
    Routes.status
      (Routes.createDoctorAccessToken uuid s now (Some uid) (Some ids)).1 = 201.
Proof.
  intros uuid s now uid p clicks ids Hkeyed Huid Hp Hown Hsel.
  destruct (selection_clicked clicks) as [Hnd Hsub].
  unfold DoctorAccess.handleGenerateToken in Hsel.
  destruct (foldl DoctorAccess.handleReportToggle [] clicks) as [|i0 sel] eqn:E;
    [discriminate|]. injection Hsel as <-.
  destruct (create_ok uuid s now uid (i0 :: sel) p Huid ltac:(discriminate))
    as (d' & _ & -> & _); [|exact Hp|reflexivity].
  apply (reportsInFor_length _ _ _ Hkeyed). split; [exact Hnd|].
  intros i Hi. apply Hown, Hsub, Hi.
Qed.

(** The patient of the sample run clicks their report three times. *)
Lemma page_selection_is_accepted_witness :
  Routes.status
    (Routes.createDoctorAccessToken tally (run tally (twoIssuances "u")) 9
       (Some "pat") (Some ["u"])).1 = 201.
Proof.
  assert (exists p, Db.users (Routes.db (run tally (twoIssuances "u"))) !! "pat"
                    = Some p) as [p Hp] by (vm_compute; eauto).
  apply (page_selection_is_accepted tally (run tally (twoIssuances "u")) 9 "pat" p
           ["u"; "u"; "u"] ["u"]).
  - exact (keyed_reachable _ _ _ _ (reachable_run tally (twoIssuances "u"))).
  - discriminate.
  - exact Hp.
  - intros i Hi. exists "u". eexists.
    split; [vm_compute; reflexivity|].
    repeat (apply elem_of_cons in Hi as [->|Hi]; [split; reflexivity|]).
    inversion Hi.
  - vm_compute. reflexivity.
Defined.

(** X21: the page and the server agree on what is live.  For the grant a
    token resolves to, the page shows 'Active' at a given instant exactly
    when the timeline route serves the token at that instant. *)
Theorem page_status_matches_server :
  forall (d : Db.t) (now : Z) (token uid : string) (g : DoctorAccessToken.t),
    token <> "" -> uid <> "" ->
    Routes.findToken d token = Some (g, uid) ->
    (DoctorAccess.showsActive g now = true
     <-> Routes.status (Routes.timeline d now token) = 200).
Proof.
  intros d now [|c tok'] [|c' uid'] g Htok Huid Hfind; try congruence.
  rewrite (timeline_found _ now _ _ _ _ _ Hfind).
  unfold DoctorAccess.showsActive, DoctorAccess.isTokenExpired.
  destruct (DoctorAccessToken.isActive g),
    (DoctorAccessToken.expiresAt g <? now); cbn; split; congruence.
Qed.

Lemma page_status_matches_server_witness :
  DoctorAccess.showsActive (sampleToken "G1" "pat" "tok-live" 1000 true) 1000 = true
  <-> Routes.status (Routes.timeline clinic 1000 "tok-live") = 200.
Proof.
  apply (page_status_matches_server clinic 1000 "tok-live" "pat").
  - discriminate.
  - discriminate.
  - vm_compute. reflexivity.
Defined.

(** X22: the page's local update after a revocation matches the store.
    When every token the page shows is the stored grant of that id, then
    after a successful revocation the tokens as the page rewrites them are
    again the stored grants. *)
Theorem page_update_matches_store :
  forall (s : Routes.State) (uid tid : string) (g : DoctorAccessToken.t)
         (shown : list DoctorAccessToken.t),
    uid <> "" -> tid <> "" -> holds (Routes.db s) uid tid g ->
    Forall (fun t => holds (Routes.db s) uid (DoctorAccessToken.id t) t) shown ->
    Forall
      (fun t =>
         holds (Routes.db (Routes.revokeDoctorAccessToken s (Some uid) (Some tid)).2)
           uid (DoctorAccessToken.id t) t)
      (DoctorAccess.markRevoked shown tid).
Proof.
  intros s uid tid g shown Huid Htid Hg Hshown.
  destruct (revoke_ok s uid tid g Huid Htid Hg) as (d' & _ & -> & _ & Hg' & Hframe).
  cbn [snd Routes.db]. unfold DoctorAccess.markRevoked.
  apply Forall_fmap. eapply Forall_impl; [exact Hshown|].
  intros t Ht. cbn beta in Ht. cbn.
  destruct (String.eqb (DoctorAccessToken.id t) tid) eqn:E.
  - apply String.eqb_eq in E. rewrite E in Ht.
    assert (t = g) as -> by exact (holds_functional _ _ _ _ _ Ht Hg).
    change (DoctorAccessToken.id (Db.deactivate g)) with (DoctorAccessToken.id g).
    rewrite E. exact Hg'.
  - apply String.eqb_neq in E. apply Hframe; [auto | exact Ht].
Qed.

Lemma page_update_matches_store_witness :
  Forall
    (fun t =>
       holds (Routes.db (Routes.revokeDoctorAccessToken (Routes.mkState clinic 0)
                           (Some "pat") (Some "G1")).2)
         "pat" (DoctorAccessToken.id t) t)
    (DoctorAccess.markRevoked
       [sampleToken "G1" "pat" "tok-live" 1000 true;
        sampleToken "G3" "pat" "tok-expired" 10 true] "G1").
Proof.
  apply (page_update_matches_store (Routes.mkState clinic 0) "pat" "G1"
           (sampleToken "G1" "pat" "tok-live" 1000 true)).
  - discriminate.
  - discriminate.
  - apply holds_lookup. vm_compute. reflexivity.
  - repeat constructor; apply holds_lookup; vm_compute; reflexivity.
Defined.

(** ** The trends page *)

#[local] Instance codeUnitOrder_total : Total Trends.codeUnitOrder.
Proof. intros a b. apply String.leb_total. Qed.

#[local] Instance codeUnitOrder_trans : Transitive Trends.codeUnitOrder.
Proof. intros a b c. apply string_leb_trans. Qed.

Lemma elem_of_numericKeys (report : Report.t) (k : string) :
  k ∈ Trends.numericKeys report <->
  exists m n, Report.extractedValues report !! k = Some m
              /\ GeminiExtractedValue.value m = Js.Num n.
Proof.
  unfold Trends.numericKeys. rewrite list_elem_of_fmap. split.
  - intros ([k' m] & -> & Hin). apply list_elem_of_filter in Hin as [Hnum Hin].
    apply elem_of_map_to_list in Hin. cbn in *.
    destruct (GeminiExtractedValue.value m) as [| | b | n | t] eqn:E;
      try discriminate. exists m, n. auto.
  - intros (m & n & Hk & Hv). exists (k, m). split; [reflexivity|].
    apply list_elem_of_filter. split; [cbn; rewrite Hv; reflexivity|].
    apply elem_of_map_to_list. exact Hk.
Qed.

(** X23: the menu of the trends page.  The metric names offered are in
    ascending order with no name twice, and a name is offered exactly when
    some report holds a numeric value under it.  For every name but the
    empty one that is exactly when [processTrendData] sets a chart with at
    least one point; for the empty name, and when there is no report, it
    clears the chart without collecting anything. *)
Theorem trends_menu :
  forall reports : list Report.t,
    StronglySorted (fun a b => String.leb a b = true)
      (Trends.availableMetrics reports)
    /\ NoDup (Trends.availableMetrics reports)
    /\ (forall k, k ∈ Trends.availableMetrics reports <->
          exists report m n,
            report ∈ reports
            /\ Report.extractedValues report !! k = Some m
            /\ GeminiExtractedValue.value m = Js.Num n)
    /\ (forall k, k <> "" ->
          (k ∈ Trends.availableMetrics reports <->
           exists points,
             Trends.processTrendData reports k = Some points /\ points <> []))
    /\ Trends.processTrendData reports "" = None
    /\ (forall k, Trends.processTrendData [] k = None).
Proof.
  intros reports.
  assert (forall k, k ∈ Trends.availableMetrics reports <->
            exists report m n,
              report ∈ reports
              /\ Report.extractedValues report !! k = Some m
              /\ GeminiExtractedValue.value m = Js.Num n) as Hmenu.
  { intros k. unfold Trends.availableMetrics.
    rewrite merge_sort_Permutation, elem_of_remove_dups, list_elem_of_bind.
    split.
    - intros (report & Hk & Hin).
      apply elem_of_numericKeys in Hk as (m & n & Hm & Hv). eauto 6.
    - intros (report & m & n & Hin & Hm & Hv). exists report.
      split; [|exact Hin]. apply elem_of_numericKeys. eauto. }
  assert (forall k, omap (Trends.dataPoint k) reports <> [] <->
            exists report m n,
              report ∈ reports
              /\ Report.extractedValues report !! k = Some m
              /\ GeminiExtractedValue.value m = Js.Num n) as Hpoints.
  { intros k. split.
    - intros Hne. destruct (omap (Trends.dataPoint k) reports) as [|[ts n] l] eqn:E;
        [congruence|].
      assert ((ts, n) ∈ omap (Trends.dataPoint k) reports) as Hp
        by (rewrite E; left).
      apply list_elem_of_omap in Hp as (report & Hin & Hf).
      unfold Trends.dataPoint in Hf.
      destruct (Report.extractedValues report !! k) as [m|] eqn:Hm; [|discriminate].
      destruct (GeminiExtractedValue.value m) as [| | b | n' | t] eqn:Hv;
        try discriminate. eauto 6.
    - intros (report & m & n & Hin & Hm & Hv) E.
      assert ((Report.timestamp report, n) ∈ omap (Trends.dataPoint k) reports)
        as Hp.
      { apply list_elem_of_omap. exists report. split; [exact Hin|].
        unfold Trends.dataPoint. rewrite Hm, Hv. reflexivity. }
      rewrite E in Hp. inversion Hp. }
  split; [apply (StronglySorted_merge_sort Trends.codeUnitOrder)|].
  split; [unfold Trends.availableMetrics; rewrite merge_sort_Permutation;
          apply NoDup_remove_dups|].
  split; [exact Hmenu|]. split; [|split; [reflexivity|]].
  - intros k Hk. rewrite Hmenu, <- Hpoints. unfold Trends.processTrendData.
    destruct k as [|c k']; [congruence|]. cbn [String.eqb orb].
    destruct reports as [|report reports'].
    + cbn. split; [congruence|]. intros (points & Hp & _). discriminate.
    + cbn [length Nat.eqb]. split.
      * intros Hne. eexists. split; [reflexivity | exact Hne].
      * intros (points & [= <-] & Hne). exact Hne.
  - intros k. unfold Trends.processTrendData. cbn [length Nat.eqb].
    rewrite orb_true_r. reflexivity.
Qed.

(** One report with a numeric hemoglobin: the name is offered and the
    chart gets a point. *)
Lemma trends_menu_witness :
  exists points,
    Trends.processTrendData [labReport] "Hemoglobin" = Some points
    /\ points <> [].
Proof.
  apply (proj1 (proj1 (proj2 (proj2 (proj2 (trends_menu [labReport]))))
                  "Hemoglobin" ltac:(discriminate))).
  apply (proj1 (proj2 (proj2 (trends_menu [labReport])))).
  eexists labReport, _, _. split; [left|]. split; vm_compute; reflexivity.
Defined.

(** ** The text of the extraction response *)

Lemma lastIndexOfFrom_fence_at_end (x : string) (i : nat) :
  GeminiText.lastIndexOfFrom "```" (x +:+ "```") i = Some (i + String.length x)%nat.
Proof.
  revert i. induction x as [|c x IH]; intros i.
  - cbn. f_equal. lia.
  - change (String c x +:+ "```") with (String c (x +:+ "```")).
    cbn [GeminiText.lastIndexOfFrom String.length]. rewrite IH. f_equal. lia.
Qed.

Lemma lastIndexOfFrom_absent (sep s : string) (i : nat) :
  includes sep s = false -> GeminiText.lastIndexOfFrom sep s i = None.
Proof.
  revert i. induction s as [|c s IH]; intros i Hno; cbn in *.
  - now rewrite Hno.
  - apply orb_false_iff in Hno as [Hp Hno]. rewrite (IH _ Hno), Hp. reflexivity.
Qed.

Lemma substring_prefix_of_app (b t : string) :
  String.substring 0 (String.length b) (b +:+ t) = b.
Proof.
  induction b as [|c b IH]; [destruct t; reflexivity|].
  exact (f_equal (String c) IH).
Qed.

Lemma string_length_app (a b : string) :
  String.length (a +:+ b) = (String.length a + String.length b)%nat.
Proof. induction a as [|c a IH]; [reflexivity | exact (f_equal S IH)]. Qed.

(** X24: a fenced response is unwrapped.  When the trimmed text of the
    response is a Markdown block, opened by three backquotes and "json"
    and closed by three backquotes, the text handed to [JSON.parse] is
    what stands between the two fences, trimmed, whatever it is. *)
Theorem fenced_response_is_unwrapped :
  forall text body : string,
    GeminiText.trim text = "```json" +:+ body +:+ "```" ->
    GeminiText.unwrap text = GeminiText.trim body.
Proof.
  intros text body Htrim. unfold GeminiText.unwrap. rewrite Htrim.
  change ("```json" +:+ body +:+ "```")
    with (String "`" (String "`" (String "`" (String "j" (String "s" (String "o"
            (String "n" (body +:+ "```")))))))).
  simpl String.prefix.
  replace (String.prefix "" (body +:+ "```")) with true
    by (destruct (body +:+ "```"); reflexivity).
  f_equal.
  assert (GeminiText.lastIndexOf "```"
            (String "`" (String "`" (String "`" (String "j" (String "s" (String "o"
               (String "n" (body +:+ "```"))))))))
          = Z.of_nat (7 + String.length body)) as ->.
  { unfold GeminiText.lastIndexOf.
    change (String "`" (String "`" (String "`" (String "j" (String "s" (String "o"
              (String "n" (body +:+ "```"))))))))
      with (("```json" +:+ body) +:+ "```").
    rewrite lastIndexOfFrom_fence_at_end, string_length_app. reflexivity. }
  unfold GeminiText.substring. cbn [String.length].
  rewrite string_length_app. cbn [String.length].
  replace (Z.to_nat (Z.max 0 (Z.min 7 _))) with 7%nat by lia.
  replace (Z.to_nat (Z.max 0 (Z.min (Z.of_nat (7 + String.length body)) _)))
    with (7 + String.length body)%nat by lia.
  replace (Nat.min 7 (7 + String.length body)) with 7%nat by lia.
  replace (Nat.max 7 (7 + String.length body) - 7)%nat
    with (String.length body) by lia.
  cbn [String.substring]. apply substring_prefix_of_app.
Qed.

Lemma fenced_response_is_unwrapped_witness :
  GeminiText.unwrap "  ```json
{ }
```
" = "{ }".
Proof.
  apply (fenced_response_is_unwrapped _ "
{ }
").
  reflexivity.
Defined.

(** X25: an unclosed fence.  When the trimmed text opens a Markdown block
    that is never closed, the only three backquotes found are the opening
    ones, at index 0; [substring(7, 0)] exchanges its bounds, and the text
    handed to [JSON.parse] is the opening fence itself, not the payload
    that follows it. *)
Theorem unclosed_fence_loses_the_payload :
  forall text body : string,
    GeminiText.trim text = "```json" +:+ body ->
    includes "```" body = false ->
    GeminiText.unwrap text = "```json".
Proof.
  intros text body Htrim Hno. unfold GeminiText.unwrap. rewrite Htrim.
  change ("```json" +:+ body)
    with (String "`" (String "`" (String "`" (String "j" (String "s" (String "o"
            (String "n" body))))))).
  simpl String.prefix.
  replace (String.prefix "" body) with true by (destruct body; reflexivity).
  assert (GeminiText.lastIndexOf "```"
            (String "`" (String "`" (String "`" (String "j" (String "s" (String "o"
               (String "n" body)))))))
          = 0) as ->.
  { unfold GeminiText.lastIndexOf. cbn [GeminiText.lastIndexOfFrom].
    rewrite (lastIndexOfFrom_absent _ _ _ Hno). reflexivity. }
  unfold GeminiText.substring. cbn [String.length].
  replace (Z.to_nat (Z.max 0 (Z.min 7 _))) with 7%nat by lia.
  replace (Z.to_nat (Z.max 0 (Z.min 0 _))) with 0%nat by lia.
  cbn [Nat.min Nat.max Nat.sub String.substring].
  replace (String.substring 0 0 body) with "" by (destruct body; reflexivity).
  reflexivity.
Qed.

Lemma unclosed_fence_loses_the_payload_witness :
  GeminiText.unwrap "```json
{ }" = "```json".
Proof.
  apply (unclosed_fence_loses_the_payload _ "
{ }"); reflexivity.
Defined.
